(** * ech-workers: the DoH ECH resolver, the ECH store, the tunnel dialer
      and the edge relay session, embedded from
      [src/websocket/websocket.go] (packages [websocket] and [ech]) and
      [src/_worker.js].

    Conventions of the embedding.
    - A Go [[]byte] is a [list byte]; a byte read as a number is [u8 b : Z].
    - A Go [int] offset is a [Z].  Offsets never exceed the length of the
      buffer by more than a few hundred, so the 64-bit wrap-around of [int]
      is out of reach and is not written out.
    - Indexing and slicing a buffer out of range is the run-time panic of Go,
      the outcome [Panic] of the [exec] monad.  Slices are checked against
      the length of the buffer (Go checks against the capacity, which is
      never smaller), so an execution without [Panic] here neither panics in
      Go nor reads a byte outside the supplied buffer.
    - A Go [string] and a JavaScript string (ASCII control protocol) are
      [string]s, a Go [error] is its message ([option string], [None] for
      [nil]). *)

From Stdlib Require Import ZArith List String Ascii Lia Bool.
From Stdlib Require Import Strings.Byte DecimalString.
Import ListNotations.
Open Scope Z_scope.

(** ** Bytes and buffers *)

Definition u8 (b : byte) : Z := Z.of_N (Byte.to_N b).

Definition byte_of_Z (z : Z) : byte :=
  match Byte.of_N (Z.to_N z) with
  | Some b => b
  | None => x00
  end.

Definition len {A : Type} (l : list A) : Z := Z.of_nat (List.length l).

(** Outcome of running a piece of the Go parser. *)
Inductive exec (A : Type) : Type :=
| Ret (a : A)
| Panic    (* index or slice bound out of range *)
| Stuck.   (* the iteration budget of a loop of the model is used up *)

Arguments Ret {A} a.
Arguments Panic {A}.
Arguments Stuck {A}.

Notation "x <- e ;; k" :=
  (match e with
   | Ret x => k
   | Panic => Panic
   | Stuck => Stuck
   end)
  (at level 61, e at next level, right associativity).

(** [b[i]] *)
Definition idx (b : list byte) (i : Z) : exec Z :=
  if (0 <=? i) && (i <? len b)
  then match nth_error b (Z.to_nat i) with
       | Some x => Ret (u8 x)
       | None => Panic
       end
  else Panic.

(** [b[lo:hi]] *)
Definition slice (b : list byte) (lo hi : Z) : exec (list byte) :=
  if (0 <=? lo) && (lo <=? hi) && (hi <=? len b)
  then Ret (firstn (Z.to_nat (hi - lo)) (skipn (Z.to_nat lo) b))
  else Panic.

(** [binary.BigEndian.Uint16(b)]: reads [b[1]] first, then [b[0]]. *)
Definition Uint16 (b : list byte) : exec Z :=
  lo <- idx b 1 ;;
  hi <- idx b 0 ;;
  Ret (Z.lor lo (Z.shiftl hi 8)).

(** ** [base64.StdEncoding] (RFC 4648, alphabet A-Z a-z 0-9 + /, padding =) *)

Module base64.

Definition encodeStd : list ascii :=
  list_ascii_of_string
    "ABCDEFGHIJKLMNOPQRSTUVWXYZabcdefghijklmnopqrstuvwxyz0123456789+/"%string.

Definition enc (n : Z) : ascii := nth (Z.to_nat n) encodeStd "A"%char.

Definition pad : ascii := "="%char.

Fixpoint EncodeToString (src : list byte) : string :=
  match src with
  | [] => EmptyString
  | [a] =>
      let v := Z.shiftl (u8 a) 16 in
      String (enc (Z.land (Z.shiftr v 18) 63))
        (String (enc (Z.land (Z.shiftr v 12) 63))
           (String pad (String pad EmptyString)))
  | [a; b] =>
      let v := Z.lor (Z.shiftl (u8 a) 16) (Z.shiftl (u8 b) 8) in
      String (enc (Z.land (Z.shiftr v 18) 63))
        (String (enc (Z.land (Z.shiftr v 12) 63))
           (String (enc (Z.land (Z.shiftr v 6) 63))
              (String pad EmptyString)))
  | a :: b :: c :: rest =>
      let v := Z.lor (Z.lor (Z.shiftl (u8 a) 16) (Z.shiftl (u8 b) 8)) (u8 c) in
      String (enc (Z.land (Z.shiftr v 18) 63))
        (String (enc (Z.land (Z.shiftr v 12) 63))
           (String (enc (Z.land (Z.shiftr v 6) 63))
              (String (enc (Z.land v 63))
                 (EncodeToString rest))))
  end.

(** Value of a character of the alphabet. *)
Definition dec (c : ascii) : option Z :=
  let n := Z.of_N (N_of_ascii c) in
  if (65 <=? n) && (n <=? 90) then Some (n - 65)
  else if (97 <=? n) && (n <=? 122) then Some (n - 71)
  else if (48 <=? n) && (n <=? 57) then Some (n + 4)
  else if n =? 43 then Some 62
  else if n =? 47 then Some 63
  else None.

Definition is_newline (c : ascii) : bool :=
  let n := Z.of_N (N_of_ascii c) in (n =? 10) || (n =? 13).

(** Decoding of the quanta of an input without line breaks: full quanta of
    four characters, the last one possibly padded with one or two [=];
    anything else is a [CorruptInputError] ([None]). *)
Fixpoint decode_quanta (s : list ascii) : option (list byte) :=
  match s with
  | [] => Some []
  | c0 :: c1 :: c2 :: c3 :: rest =>
      match dec c0, dec c1 with
      | Some v0, Some v1 =>
          let b0 := byte_of_Z (Z.lor (Z.shiftl v0 2) (Z.shiftr v1 4)) in
          match dec c2, dec c3 with
          | Some v2, Some v3 =>
              let b1 := byte_of_Z (Z.lor (Z.land (Z.shiftl v1 4) 255) (Z.shiftr v2 2)) in
              let b2 := byte_of_Z (Z.lor (Z.land (Z.shiftl v2 6) 255) v3) in
              match decode_quanta rest with
              | Some out => Some (b0 :: b1 :: b2 :: out)
              | None => None
              end
          | Some v2, None =>
              if Ascii.eqb c3 pad && match rest with [] => true | _ => false end
              then Some [b0; byte_of_Z (Z.lor (Z.land (Z.shiftl v1 4) 255) (Z.shiftr v2 2))]
              else None
          | None, _ =>
              if Ascii.eqb c2 pad && Ascii.eqb c3 pad
                 && match rest with [] => true | _ => false end
              then Some [b0]
              else None
          end
      | _, _ => None
      end
  | _ => None
  end.

(** [DecodeString]: carriage returns and line feeds are ignored. *)
Definition DecodeString (s : string) : option (list byte) :=
  decode_quanta (filter (fun c => negb (is_newline c)) (list_ascii_of_string s)).

End base64.

(** ** Pieces of the Go standard library the client relies on *)

Module strings.

(** [strings.Index(s, substr)], [-1] when absent. *)
Definition Index (s substr : string) : Z :=
  match String.index 0 substr s with
  | Some n => Z.of_nat n
  | None => -1
  end.

Definition Contains (s substr : string) : bool := 0 <=? Index s substr.

Definition HasPrefix (s prefix : string) : bool := String.prefix prefix s.

Fixpoint IndexByte (s : string) (c : ascii) : Z :=
  match s with
  | EmptyString => -1
  | String a s' =>
      if Ascii.eqb a c then 0
      else let i := IndexByte s' c in if i <? 0 then -1 else i + 1
  end.

Fixpoint LastIndexByte (s : string) (c : ascii) : Z :=
  match s with
  | EmptyString => -1
  | String a s' =>
      let i := LastIndexByte s' c in
      if 0 <=? i then i + 1 else if Ascii.eqb a c then 0 else -1
  end.

(** [s[lo:hi]] and [s[lo:]] for offsets within the string. *)
Definition sub (s : string) (lo hi : Z) : string :=
  String.substring (Z.to_nat lo) (Z.to_nat (hi - lo)) s.

Definition from (s : string) (lo : Z) : string :=
  sub s lo (Z.of_nat (String.length s)).

(** [strings.Split(s, sep)] for a separator of one byte: never empty. *)
Fixpoint Split (s : string) (sep : ascii) : list string :=
  match s with
  | EmptyString => [EmptyString]
  | String a s' =>
      if Ascii.eqb a sep then EmptyString :: Split s' sep
      else match Split s' sep with
           | [] => [String a EmptyString]
           | p :: ps => String a p :: ps
           end
  end.

End strings.

Module fmt.

(** The verb [%d] on an [int]. *)
Definition d (z : Z) : string := NilZero.string_of_int (Z.to_int z).

(** The verbs [%v] and [%w] on an [error]. *)
Definition v (e : option string) : string :=
  match e with
  | Some msg => msg
  | None => "<nil>"%string
  end.

End fmt.

Module net.

Local Open Scope string_scope.
Local Open Scope Z_scope.

Definition AddrError (addr why : string) : string :=
  if String.eqb addr "" then why else "address " ++ addr ++ ": " ++ why.

(** [net.SplitHostPort]: [inl (host, port)] or [inr] the message of the
    [*AddrError]. *)
Definition SplitHostPort (hostport : string) : (string * string) + string :=
  let missingPort := "missing port in address" in
  let tooManyColons := "too many colons in address" in
  let i := strings.LastIndexByte hostport ":"%char in
  if i <? 0 then inr (AddrError hostport missingPort)
  else
    let finish (host : string) (j k : Z) :=
      if 0 <=? strings.IndexByte (strings.from hostport j) "["%char
      then inr (AddrError hostport "unexpected '[' in address")
      else if 0 <=? strings.IndexByte (strings.from hostport k) "]"%char
      then inr (AddrError hostport "unexpected ']' in address")
      else inl (host, strings.from hostport (i + 1)) in
    if String.prefix "[" hostport then
      let end_ := strings.IndexByte hostport "]"%char in
      if end_ <? 0 then inr (AddrError hostport "missing ']' in address")
      else if end_ + 1 =? Z.of_nat (String.length hostport)
      then inr (AddrError hostport missingPort)
      else if end_ + 1 =? i
      then finish (strings.sub hostport 1 end_) 1 (end_ + 1)
      else if String.prefix ":" (strings.from hostport (end_ + 1))
      then inr (AddrError hostport tooManyColons)
      else inr (AddrError hostport missingPort)
    else
      let host := strings.sub hostport 0 i in
      if 0 <=? strings.IndexByte host ":"%char
      then inr (AddrError hostport tooManyColons)
      else finish host 0 0.


End net.

(** ** The world the client runs in

    The network, the system trust store and the clock are outside the
    program.  What they answer is an [Env]: a function of the history of
    the run so far, so that any behaviour of the outside is some [Env].
    What the program does to them is recorded, in order, in the [trace]. *)

Module rt.

(** A Go [error]: [None] is [nil], [Some msg] an error whose [Error()] is
    [msg]; wrapping with [%w] or [%v] concatenates messages. *)
Definition error : Type := option string.

(** How one DNS-over-HTTPS exchange ends. *)
Inductive DoHOutcome : Type :=
| ParseFails (e : string)                   (* url.Parse *)
| NewRequestFails (e : string)              (* http.NewRequest *)
| DoFails (e : string)                      (* client.Do *)
| Response (StatusCode : Z) (body : string + list byte). (* io.ReadAll *)

Record tlsConfig : Type :=
  { MinVersion : Z;
    ServerName : string;
    EncryptedClientHelloConfigList : list byte }.

Record Dialer : Type :=
  { TLSClientConfig : tlsConfig;
    Subprotocols : list string;
    HandshakeTimeout : Z;           (* milliseconds *)
    NetDial : option string         (* the serverIP the override closes over *) }.

Inductive Event : Type :=
| DoHRequest (dohURL : string) (dnsQuery : list byte)
| BuildTLSConfigCall (serverName : string) (err : error)
| RefreshCall (err : error)
| Sleep (ms : Z)
| Log (msg : string)
| Dial (dialer : Dialer) (wsURL : string) (err : error).

Record Env : Type :=
  { doh : list Event -> DoHOutcome;
    SystemCertPool : list Event -> error;
    dial : list Event -> error }.

Record ECHManager : Type :=
  { echList : list byte; echDomain : string; dnsServer : string }.

Record World : Type :=
  { manager : ECHManager; trace : list Event }.

Definition prog (A : Type) : Type := World -> exec (A * World).

Definition ret {A : Type} (a : A) : prog A := fun w => Ret (a, w).

Definition bind {A B : Type} (m : prog A) (k : A -> prog B) : prog B :=
  fun w =>
    match m w with
    | Ret (a, w') => k a w'
    | Panic => Panic
    | Stuck => Stuck
    end.

Definition lift {A : Type} (e : exec A) : prog A :=
  fun w => match e with Ret a => Ret (a, w) | Panic => Panic | Stuck => Stuck end.

Definition emit (e : Event) : prog unit :=
  fun w => Ret (tt, {| manager := manager w; trace := trace w ++ [e] |}).

Definition history : prog (list Event) := fun w => Ret (trace w, w).

Definition getManager : prog ECHManager := fun w => Ret (manager w, w).

Definition setEchList (raw : list byte) : prog unit :=
  fun w =>
    Ret (tt, {| manager := {| echList := raw;
                              echDomain := echDomain (manager w);
                              dnsServer := dnsServer (manager w) |};
                trace := trace w |}).

(** The [error] of a result that is a value or a message. *)
Definition errOf {A : Type} (r : A + string) : error :=
  match r with inl _ => None | inr e => Some e end.

(** *** Reading a trace *)

(** The calls of the dial loop, without the log lines and the DoH
    requests. *)
Inductive Call : Type :=
| CBuild (err : error)
| CRefresh
| CSleep (ms : Z)
| CDial (err : error).

Definition callOf (e : Event) : list Call :=
  match e with
  | BuildTLSConfigCall _ err => [CBuild err]
  | RefreshCall _ => [CRefresh]
  | Sleep ms => [CSleep ms]
  | Dial _ _ err => [CDial err]
  | DoHRequest _ _ | Log _ => []
  end.

Definition calls (tr : list Event) : list Call := flat_map callOf tr.

(** The outcomes of the calls of [BuildTLSConfig], in order. *)
Definition builds (tr : list Event) : list error :=
  flat_map (fun c => match c with CBuild err => [err] | _ => [] end) (calls tr).

(** How many times [Refresh] was called. *)
Definition refreshes (tr : list Event) : nat :=
  List.length (filter (fun c => match c with CRefresh => true | _ => false end)
                 (calls tr)).

(** The sleeps of a trace, in milliseconds. *)
Definition sleeps (tr : list Event) : list Z :=
  flat_map (fun e => match e with Sleep ms => [ms] | _ => [] end) tr.

(** The dials of a trace: the dialer, the URL and the outcome of each. *)
Definition dials (tr : list Event) : list (Dialer * string * error) :=
  flat_map (fun e => match e with Dial d u err => [(d, u, err)] | _ => [] end)
    tr.

(** The world after the events [evs]. *)
Definition after (w : World) (evs : list Event) : World :=
  {| manager := manager w; trace := trace w ++ evs |}.

End rt.

Notation "x <~ e ;; k" := (rt.bind e (fun x => k))
  (at level 61, e at next level, right associativity).
Notation "e ;;; k" := (rt.bind e (fun _ => k))
  (at level 61, right associativity).

(** ** Package [ech]: the DNS wire parser *)

Module ech.

Definition TypeHTTPS : Z := 65.

(** A Go [error] value: [None] is [nil], [Some msg] an error whose [Error()]
    is [msg]. *)
Definition error : Type := option string.

(** The loop
    [for offset < len(buf) && buf[offset] != 0 { offset += int(buf[offset]) + 1 }]
    of [parseDNSResponse] (question name and uncompressed answer names). *)
Fixpoint skipLabels (fuel : nat) (buf : list byte) (offset : Z) : exec Z :=
  if negb (offset <? len buf) then Ret offset
  else
    b <- idx buf offset ;;
    if b =? 0 then Ret offset
    else match fuel with
         | O => Stuck
         | S fuel' => skipLabels fuel' buf (offset + (b + 1))
         end.

(** The TargetName loop of [parseHTTPSRecord]; [None] is the
    [return ""] inside the loop. *)
Fixpoint skipTarget (fuel : nat) (data : list byte) (offset : Z)
  : exec (option Z) :=
  if negb (offset <? len data) then Ret (Some offset)
  else
    b <- idx data offset ;;
    if b =? 0 then Ret (Some offset)
    else
      let step := b + 1 in
      if (step <=? 0) || (offset + step >? len data) then Ret None
      else match fuel with
           | O => Stuck
           | S fuel' => skipTarget fuel' data (offset + step)
           end.

(** The SvcParam loop of [parseHTTPSRecord]. *)
Fixpoint svcParams (fuel : nat) (data : list byte) (offset : Z)
  : exec string :=
  if negb (offset + 4 <=? len data) then Ret EmptyString
  else if offset + 4 >? len data then Ret EmptyString
  else
    k <- slice data offset (offset + 2) ;;
    key <- Uint16 k ;;
    l <- slice data (offset + 2) (offset + 4) ;;
    length_ <- Uint16 l ;;
    let offset := offset + 4 in
    if (length_ =? 0) || (offset + length_ >? len data) then Ret EmptyString
    else
      value <- slice data offset (offset + length_) ;;
      let offset := offset + length_ in
      if key =? 5 then Ret (base64.EncodeToString value)
      else match fuel with
           | O => Stuck
           | S fuel' => svcParams fuel' data offset
           end.

Definition parseHTTPSRecord (data : list byte) : exec string :=
  if len data <? 2 then Ret EmptyString
  else
    let offset := 2 in
    if offset >=? len data then Ret EmptyString
    else
      b <- idx data offset ;;
      r <- (if b =? 0 then Ret (Some (offset + 1))
            else
              o <- skipTarget (List.length data) data offset ;;
              Ret (option_map (fun o => o + 1) o)) ;;
      match r with
      | None => Ret EmptyString
      | Some offset => svcParams (List.length data) data offset
      end.

Definition nonempty (s : string) : bool :=
  match s with EmptyString => false | _ => true end.

(** The answer loop [for i := 0; i < int(ancount); i++] of
    [parseDNSResponse], with [n] iterations left. *)
Fixpoint answers (n : nat) (response : list byte) (offset : Z)
  : exec (string * error) :=
  match n with
  | O => Ret (EmptyString, None)
  | S n' =>
      if offset >=? len response then Ret (EmptyString, None)
      else
        b <- idx response offset ;;
        offset <- (if Z.land b 192 =? 192 then Ret (offset + 2)
                   else
                     o <- skipLabels (List.length response) response offset ;;
                     Ret (o + 1)) ;;
        if offset + 10 >? len response then Ret (EmptyString, None)
        else
          t <- slice response offset (offset + 2) ;;
          rrType <- Uint16 t ;;
          let offset := offset + 8 in
          d <- slice response offset (offset + 2) ;;
          dataLen <- Uint16 d ;;
          let offset := offset + 2 in
          if offset + dataLen >? len response then Ret (EmptyString, None)
          else
            data <- slice response offset (offset + dataLen) ;;
            let offset := offset + dataLen in
            if rrType =? TypeHTTPS then
              ech <- parseHTTPSRecord data ;;
              if nonempty ech then Ret (ech, None)
              else answers n' response offset
            else answers n' response offset
  end.

Definition errTooShort : string := "响应过短"%string.
Definition errNoAnswer : string := "无应答记录"%string.

Definition parseDNSResponse (response : list byte) : exec (string * error) :=
  if len response <? 12 then Ret (EmptyString, Some errTooShort)
  else
    h <- slice response 6 8 ;;
    ancount <- Uint16 h ;;
    if ancount =? 0 then Ret (EmptyString, Some errNoAnswer)
    else
      offset <- skipLabels (List.length response) response 12 ;;
      let offset := offset + 5 in
      answers (Z.to_nat ancount) response offset.



(** What the resolver can return: the empty string, or the base64 text of
    a value that is not empty. *)
Definition encoded_value (s : string) : Prop :=
  s = EmptyString \/ exists v, 0 < len v /\ s = base64.EncodeToString v.

(** *** The ECH store ([ECHManager]) *)

Section Manager.

Import rt.
Variable env : Env.

Local Open Scope string_scope.
Local Open Scope Z_scope.

Definition NewECHManager (echDomain dnsServer : string) : ECHManager :=
  {| echList := []; echDomain := echDomain; dnsServer := dnsServer |}.

Definition buildDNSQuery (domain : string) (qtype : Z) : list byte :=
  let query :=
    [x00; x01; x01; x00; x00; x01; x00; x00; x00; x00; x00; x00] in
  let query :=
    fold_left
      (fun query label =>
         ((query ++ [byte_of_Z (Z.of_nat (String.length label) mod 256)])
            ++ list_byte_of_string label)%list)
      (strings.Split domain "."%char) query in
  (query ++ [x00; byte_of_Z (Z.shiftr qtype 8 mod 256);
             byte_of_Z (qtype mod 256); x00; x01])%list.

Definition queryDoH (domain dohURL : string) : prog (string * error) :=
  h <~ history ;;
  match doh env h with
  | ParseFails e => ret ("", Some ("无效的DoH URL: " ++ e))
  | NewRequestFails e => ret ("", Some ("创建请求失败: " ++ e))
  | DoFails e =>
      emit (DoHRequest dohURL (buildDNSQuery domain TypeHTTPS)) ;;;
      ret ("", Some ("DoH请求失败: " ++ e))
  | Response StatusCode body =>
      emit (DoHRequest dohURL (buildDNSQuery domain TypeHTTPS)) ;;;
      if negb (StatusCode =? 200)
      then ret ("", Some ("DoH服务器返回错误: " ++ fmt.d StatusCode))
      else match body with
           | inl e => ret ("", Some ("读取DoH响应失败: " ++ e))
           | inr body => lift (parseDNSResponse body)
           end
  end.

Definition queryHTTPSRecord (domain dnsServer : string)
  : prog (string * error) :=
  let dohURL := dnsServer in
  let dohURL :=
    if negb (strings.HasPrefix dohURL "https://")
       && negb (strings.HasPrefix dohURL "http://")
    then "https://" ++ dohURL
    else dohURL in
  queryDoH domain dohURL.

(** The message of [base64.CorruptInputError] names the offending offset,
    which the embedding leaves out. *)
Definition Prepare : prog error :=
  m <~ getManager ;;
  r <~ queryHTTPSRecord (echDomain m) (dnsServer m) ;;
  let '(echBase64, err) := r in
  match err with
  | Some e => ret (Some ("DNS查询失败: " ++ e))
  | None =>
      if String.eqb echBase64 "" then ret (Some "未找到ECH参数")
      else match base64.DecodeString echBase64 with
           | None => ret (Some "ECH解码失败: illegal base64 data")
           | Some raw => setEchList raw ;;; ret None
           end
  end.

Definition GetECHList : prog (list byte * error) :=
  m <~ getManager ;;
  if len (echList m) =? 0 then ret ([], Some "ECH配置未加载")
  else ret (echList m, None).

Definition Refresh : prog error :=
  err <~ Prepare ;;
  emit (RefreshCall err) ;;;
  ret err.

Definition VersionTLS13 : Z := 772.

Definition BuildTLSConfig_body (serverName : string)
  : prog (tlsConfig + string) :=
  r <~ GetECHList ;;
  let '(echBytes, err) := r in
  match err with
  | Some e => ret (inr e)
  | None =>
      h <~ history ;;
      match SystemCertPool env h with
      | Some e => ret (inr ("加载系统根证书失败: " ++ e))
      | None =>
          ret (inl {| MinVersion := VersionTLS13;
                      ServerName := serverName;
                      EncryptedClientHelloConfigList := echBytes |})
      end
  end.

(** [BuildTLSConfig], its call and outcome recorded in the trace. *)
Definition BuildTLSConfig (serverName : string) : prog (tlsConfig + string) :=
  r <~ BuildTLSConfig_body serverName ;;
  emit (BuildTLSConfigCall serverName
          (match r with inl _ => None | inr e => Some e end)) ;;;
  ret r.

(** The worlds reached from [w0] by calls of [Prepare] (or [Refresh], which
    is [Prepare]) among steps that leave the manager alone, with the blob
    the last successful call stored, if any call succeeded. *)
Inductive prepared (w0 : World) : option (list byte) -> World -> Prop :=
| prepared_start : prepared w0 None w0
| prepared_other (last : option (list byte)) (w w' : World) :
    prepared w0 last w -> manager w' = manager w -> prepared w0 last w'
| prepared_failed (last : option (list byte)) (w w' : World) (e : string) :
    prepared w0 last w -> Prepare w = Ret (Some e, w') -> prepared w0 last w'
| prepared_stored (last : option (list byte)) (w w' : World) :
    prepared w0 last w -> Prepare w = Ret (None, w') ->
    prepared w0 (Some (echList (manager w'))) w'.

End Manager.

End ech.

(** ** Package [websocket]: the tunnel dialer *)

Module websocket.

Import rt.

Local Open Scope string_scope.
Local Open Scope Z_scope.

Record WebSocketClient : Type :=
  { serverAddr : string; token : string; serverIP : string }.

(** The connection [dialer.Dial] hands back. *)
Record Conn : Type := { dialedURL : string; dialedWith : Dialer }.

Definition ParseServerAddr (c : WebSocketClient)
  : (string * string * string) + string :=
  if String.eqb (serverAddr c) "" then inr "服务器地址为空"
  else
    let path := "/" in
    let addr := serverAddr c in
    let slashIdx := strings.Index addr "/" in
    let '(path, addr) :=
      if negb (slashIdx =? -1)
      then ((if slashIdx <? Z.of_nat (String.length addr)
             then strings.from addr slashIdx else path),
            strings.sub addr 0 slashIdx)
      else (path, addr) in
    if String.eqb addr "" then inr "服务器地址格式错误"
    else
      match net.SplitHostPort addr with
      | inr e => inr ("无效的服务器地址格式: " ++ e)
      | inl (host, port) =>
          if String.eqb host "" || String.eqb port ""
          then inr ("无效的服务器地址格式: " ++ fmt.v None)
          else inl (host, port, path)
      end.


(** A host or a port as it stands in a server address: free of [:], [/],
    [[] and []]. *)
Fixpoint plainPart (s : string) : bool :=
  match s with
  | EmptyString => true
  | String a s' =>
      negb (Ascii.eqb a ":" || Ascii.eqb a "/" || Ascii.eqb a "["
            || Ascii.eqb a "]")
      && plainPart s'
  end.

Section Dial.

Variable env : Env.
Variable c : WebSocketClient.

Definition newDialer (tlsCfg : tlsConfig) : Dialer :=
  {| TLSClientConfig := tlsCfg;
     Subprotocols := if String.eqb (token c) "" then [] else [token c];
     HandshakeTimeout := 10000;
     NetDial := if String.eqb (serverIP c) "" then None else Some (serverIP c) |}.

(** The failures of [BuildTLSConfig] after which the loop refreshes. *)
Definition isECHConfigError (tlsErr : string) : bool :=
  strings.Contains tlsErr "ECH配置" || strings.Contains tlsErr "未找到ECH".

Definition errDialExhausted (maxRetries : Z) (lastErr : error) : string :=
  "连接失败，已达最大重试次数(" ++ fmt.d maxRetries ++ "): " ++ fmt.v lastErr.

(** The loop [for attempt := 1; attempt <= maxRetries; attempt++] with [n]
    iterations left. *)
Fixpoint attempts (n : nat) (attempt maxRetries : Z) (host wsURL : string)
    (lastErr : error) : prog (option Conn * error) :=
  match n with
  | O => ret (None, Some (errDialExhausted maxRetries lastErr))
  | S n' =>
      r <~ ech.BuildTLSConfig env host ;;
      match r with
      | inr tlsErr =>
          if (attempt <? maxRetries)
             && (strings.Contains tlsErr "ECH配置"
                 || strings.Contains tlsErr "未找到ECH")
          then
            emit (Log ("[ECH] TLS配置失败，尝试刷新ECH配置 (" ++ fmt.d attempt
                         ++ "/" ++ fmt.d maxRetries ++ "): " ++ tlsErr)) ;;;
            _ <~ ech.Refresh env ;;
            emit (Sleep 500) ;;;
            attempts n' (attempt + 1) maxRetries host wsURL (Some tlsErr)
          else ret (None, Some ("构建TLS配置失败: " ++ tlsErr))
      | inl tlsCfg =>
          let dialer := newDialer tlsCfg in
          h <~ history ;;
          let dialErr := dial env h in
          emit (Dial dialer wsURL dialErr) ;;;
          match dialErr with
          | Some e =>
              if (attempt <? maxRetries)
                 && (strings.Contains e "ECH" || strings.Contains e "encrypted")
              then
                emit (Log ("[ECH] 连接失败，尝试刷新ECH配置 (" ++ fmt.d attempt
                             ++ "/" ++ fmt.d maxRetries ++ "): " ++ e)) ;;;
                _ <~ ech.Refresh env ;;
                emit (Sleep 1000) ;;;
                attempts n' (attempt + 1) maxRetries host wsURL (Some e)
              else ret (None, Some ("WebSocket连接失败: " ++ e))
          | None =>
              emit (Log ("[WebSocket] 连接成功建立 (尝试" ++ fmt.d attempt
                           ++ "次)")) ;;;
              ret (Some {| dialedURL := wsURL; dialedWith := dialer |}, None)
          end
      end
  end.

Definition DialWithECH (maxRetries : Z) : prog (option Conn * error) :=
  match ParseServerAddr c with
  | inr e => ret (None, Some ("解析服务器地址失败: " ++ e))
  | inl (host, port, path) =>
      let wsURL := "wss://" ++ host ++ ":" ++ port ++ path in
      attempts (Z.to_nat maxRetries) 1 maxRetries host wsURL None
  end.

End Dial.

End websocket.

(** ** DNS messages on the wire (RFC 1035, section 4; RFC 9460, section 2.2)

    The well-formed responses the resolver is specified on: a header, the
    echoed question, [ANCOUNT] answer records, and whatever follows them. *)

Module wire.

Definition label : Type := list byte.

Inductive Name : Type :=
| Labels (ls : list label)                      (* labels, then the zero octet *)
| Pointer (target : Z)                          (* 11tttttt tttttttt *)
| LabelsPointer (ls : list label) (target : Z). (* labels, then a pointer *)

Record SvcParam : Type := { key : Z; value : list byte }.

Inductive RData : Type :=
| HTTPS (priority : Z) (target : list label) (params : list SvcParam)
| Other (rrtype : Z) (raw : list byte).

Record Answer : Type :=
  { name : Name; class : Z; ttl : Z; rdata : RData }.

Record Response : Type :=
  { id : Z; flags : Z;
    qname : list label; qtype : Z; qclass : Z;
    answers : list Answer;
    nscount : Z; arcount : Z;
    trailer : list byte (* authority and additional sections *) }.

Definition put16 (z : Z) : list byte :=
  [byte_of_Z (z / 256); byte_of_Z (z mod 256)].

Definition put32 (z : Z) : list byte :=
  put16 (z / 65536) ++ put16 (z mod 65536).

Definition encLabel (l : label) : list byte := byte_of_Z (len l) :: l.

Definition encLabels (ls : list label) : list byte := flat_map encLabel ls.

Definition encPointer (t : Z) : list byte :=
  [byte_of_Z (192 + t / 256); byte_of_Z (t mod 256)].

Definition encName (n : Name) : list byte :=
  match n with
  | Labels ls => encLabels ls ++ [x00]
  | Pointer t => encPointer t
  | LabelsPointer ls t => encLabels ls ++ encPointer t
  end.

Definition encParam (p : SvcParam) : list byte :=
  put16 (key p) ++ put16 (len (value p)) ++ value p.

Definition encRData (r : RData) : list byte :=
  match r with
  | HTTPS prio tgt ps =>
      put16 prio ++ (encLabels tgt ++ [x00]) ++ flat_map encParam ps
  | Other _ raw => raw
  end.

Definition typeOf (r : RData) : Z :=
  match r with
  | HTTPS _ _ _ => 65
  | Other t _ => t
  end.

Definition encAnswer (a : Answer) : list byte :=
  encName (name a) ++ put16 (typeOf (rdata a)) ++ put16 (class a)
    ++ put32 (ttl a) ++ put16 (len (encRData (rdata a))) ++ encRData (rdata a).

Definition encQuestion (r : Response) : list byte :=
  (encLabels (qname r) ++ [x00]) ++ put16 (qtype r) ++ put16 (qclass r).

Definition encHeader (r : Response) : list byte :=
  put16 (id r) ++ put16 (flags r) ++ put16 1 ++ put16 (len (answers r))
    ++ put16 (nscount r) ++ put16 (arcount r).

Definition encode (r : Response) : list byte :=
  encHeader r ++ encQuestion r ++ flat_map encAnswer (answers r) ++ trailer r.

(** *** Well-formedness *)

Definition is_u16 (z : Z) : bool := (0 <=? z) && (z <? 65536).

Definition wf_label (l : label) : bool := (1 <=? len l) && (len l <=? 63).

Definition wf_name (n : Name) : bool :=
  match n with
  | Labels ls => forallb wf_label ls
  | Pointer t => (0 <=? t) && (t <? 16384)
  | LabelsPointer ls t => forallb wf_label ls && (0 <=? t) && (t <? 16384)
  end.

Definition wf_param (p : SvcParam) : bool :=
  is_u16 (key p) && (len (value p) <? 65536).

Definition wf_rdata (r : RData) : bool :=
  match r with
  | HTTPS prio tgt ps =>
      is_u16 prio && forallb wf_label tgt && forallb wf_param ps
  | Other t _ => is_u16 t && negb (t =? 65)
  end && (len (encRData r) <? 65536).

Definition wf_answer (a : Answer) : bool :=
  wf_name (name a) && is_u16 (class a)
    && (0 <=? ttl a) && (ttl a <? 4294967296) && wf_rdata (rdata a).

Definition wf (r : Response) : bool :=
  is_u16 (id r) && is_u16 (flags r) && forallb wf_label (qname r)
    && is_u16 (qtype r) && is_u16 (qclass r)
    && forallb wf_answer (answers r) && (len (answers r) <? 65536)
    && is_u16 (nscount r) && is_u16 (arcount r).

(** *** What a response says about ECH *)

(** The name form the resolver skips by design: a bare pointer or an
    uncompressed label sequence. *)
Definition plain (n : Name) : bool :=
  match n with
  | Labels _ | Pointer _ => true
  | LabelsPointer _ _ => false
  end.

Definition has_key (k : Z) (ps : list SvcParam) : bool :=
  existsb (fun p => key p =? k) ps.

(** An answer of type HTTPS carrying SvcParam key 5. *)
Definition carries_ech (a : Answer) : bool :=
  match rdata a with
  | HTTPS _ _ ps => has_key 5 ps
  | Other _ _ => false
  end.

Definition nonempty_value (p : SvcParam) : bool := 0 <? len (value p).

End wire.


(** ** The edge relay: [src/_worker.js]

    JavaScript strings are modelled by their ASCII/UTF-8 bytes.  A session
    is the closure state of [handleSession]; the [effects] are the calls it
    makes on the WebSocket, on the outbound socket and on the platform, in
    order.  Handlers run to completion; the awaits inside one [message]
    handler settle as the environment says ([IO]) without another handler
    in between, while the two awaits of the pump (the pending read and the
    back-off timer) are separate events, so that anything may happen
    between a read error and the restart that follows it. *)

Module worker.

Local Open Scope string_scope.
Local Open Scope Z_scope.

(** *** Strings *)

Definition startsWith (s prefix : string) : bool := String.prefix prefix s.

Definition includes (s sub : string) : bool :=
  match String.index 0 sub s with Some _ => true | None => false end.

(** [s.indexOf(c)] for a one-character needle. *)
Definition indexOf (s : string) (c : ascii) : Z := strings.IndexByte s c.

(** [s.substring(lo, hi)] and [s.substring(lo)] for [0 <= lo <= hi]. *)
Definition substring (s : string) (lo hi : Z) : string :=
  String.substring (Z.to_nat lo) (Z.to_nat (hi - lo)) s.

Definition substringFrom (s : string) (lo : Z) : string :=
  substring s lo (Z.max lo (Z.of_nat (String.length s))).

(** [s.split(re)] for a regular expression that is one character class. *)
Fixpoint split (sep : ascii -> bool) (s : string) : list string :=
  match s with
  | EmptyString => [EmptyString]
  | String a s' =>
      if sep a then EmptyString :: split sep s'
      else match split sep s' with
           | [] => [String a EmptyString]
           | p :: ps => String a p :: ps
           end
  end.

Definition toLowerCase (s : string) : string :=
  string_of_list_ascii
    (map (fun c =>
            let n := N_of_ascii c in
            if ((65 <=? n) && (n <=? 90))%N then ascii_of_N (n + 32) else c)
       (list_ascii_of_string s)).

(** *** [parseInt(x, 10)]; [None] is [NaN].  Exact on integers of any
    size (JavaScript rounds beyond 2^53); the white space skipped is the
    ASCII one. *)

Definition isWhiteSpace (c : ascii) : bool :=
  let n := Z.of_N (N_of_ascii c) in
  (n =? 32) || ((9 <=? n) && (n <=? 13)).

Definition digit (c : ascii) : option Z :=
  let n := Z.of_N (N_of_ascii c) in
  if (48 <=? n) && (n <=? 57) then Some (n - 48) else None.

Fixpoint skipWhiteSpace (s : string) : string :=
  match s with
  | String c s' => if isWhiteSpace c then skipWhiteSpace s' else s
  | EmptyString => s
  end.

Fixpoint digits (acc : Z) (s : string) : Z :=
  match s with
  | String c s' =>
      match digit c with
      | Some d => digits (10 * acc + d) s'
      | None => acc
      end
  | EmptyString => acc
  end.

Definition startsWithDigit (s : string) : bool :=
  match s with
  | String c _ => match digit c with Some _ => true | None => false end
  | EmptyString => false
  end.

Definition parseInt (s : string) : option Z :=
  let s := skipWhiteSpace s in
  let '(sign, s) :=
    match s with
    | String "-" s' => (-1, s')
    | String "+" s' => (1, s')
    | _ => (1, s)
    end in
  if startsWithDigit s then Some (sign * digits 0 s) else None.

(** *** [parseAddress] *)

Record Address : Type := { host : string; port : Z }.

(** A port before [parseInt]: the text after the separator, or the number
    443 the code puts in its place. *)
Inductive RawPort : Type := PortText (s : string) | PortNumber (n : Z).

Definition isSeparator (c : ascii) : bool :=
  Ascii.eqb c ":" || Ascii.eqb c "," || Ascii.eqb c ";".

Definition rawParts (addr : string) : string * RawPort :=
  if startsWith addr "[" && includes addr "]" then
    let closeBracketIndex := indexOf addr "]" in
    let ipv6 := substring addr 0 (closeBracketIndex + 1) in
    let afterBracket := substringFrom addr (closeBracketIndex + 1) in
    let port :=
      if startsWith afterBracket ":"
      then PortText (substringFrom afterBracket 1)
      else PortNumber 443 in
    (ipv6, port)
  else
    match split isSeparator addr with
    | host :: port :: _ => (host, PortText port)
    | [host] => (host, PortNumber 443)
    | [] => (EmptyString, PortNumber 443)
    end.

Definition parseAddress (addr : string) : Address :=
  let '(host, port) := rawParts addr in
  let parsedPort :=
    match port with
    | PortText s => parseInt s
    | PortNumber n => Some n
    end in
  let finalPort :=
    match parsedPort with
    | None => 443
    | Some n => n
    end in
  {| host := host; port := finalPort |}.


Definition isCFError (message : string) : bool :=
  let msg := toLowerCase message in
  includes msg "proxy request" || includes msg "cannot connect"
  || includes msg "cloudflare".

(** *** The session of [handleSession] *)

Inductive Payload : Type := Text (s : string) | Binary (b : list byte).

(** Calls made on the outside, and [PumpRestart], the pump calling itself
    again (line 67). *)
Inductive Effect : Type :=
| WsSend (p : Payload)
| WsClose (code : Z) (reason : string)
| WriterReleaseLock (sock : nat)
| ReaderReleaseLock (sock : nat)
| SocketClose (sock : nat)
| SocketConnect (hostname : string) (port : Z)
| GetWriter (sock : nat)
| GetReader (sock : nat)
| WriterWrite (sock : nat) (chunk : list byte)
| ReaderRead (sock : nat)
| SetTimeout (ms : Z)
| ConsoleError
| PumpRestart.

(** Where the pump of the session is suspended. *)
Inductive Pump : Type := Idle | AwaitRead | AwaitTimer.

Record Session : Type := mkSession
  { remoteSocket : option nat;
    remoteWriter : option nat;
    remoteReader : option nat;
    isClosed : bool;
    isConnecting : bool;
    connectionAttempts : Z;
    readyState : Z;             (* webSocket.readyState *)
    pump : Pump;
    opened : nat;               (* sockets opened so far *)
    effects : list Effect }.

Definition emit (e : Effect) (s : Session) : Session :=
  mkSession (remoteSocket s) (remoteWriter s) (remoteReader s) (isClosed s)
    (isConnecting s) (connectionAttempts s) (readyState s) (pump s)
    (opened s) (effects s ++ [e]).

Definition setHandles (k w r : option nat) (s : Session) : Session :=
  mkSession k w r (isClosed s) (isConnecting s) (connectionAttempts s)
    (readyState s) (pump s) (opened s) (effects s).

Definition setIsClosed (b : bool) (s : Session) : Session :=
  mkSession (remoteSocket s) (remoteWriter s) (remoteReader s) b
    (isConnecting s) (connectionAttempts s) (readyState s) (pump s)
    (opened s) (effects s).

Definition setIsConnecting (b : bool) (s : Session) : Session :=
  mkSession (remoteSocket s) (remoteWriter s) (remoteReader s) (isClosed s)
    b (connectionAttempts s) (readyState s) (pump s) (opened s) (effects s).

Definition setConnectionAttempts (n : Z) (s : Session) : Session :=
  mkSession (remoteSocket s) (remoteWriter s) (remoteReader s) (isClosed s)
    (isConnecting s) n (readyState s) (pump s) (opened s) (effects s).

Definition setReadyState (rs : Z) (s : Session) : Session :=
  mkSession (remoteSocket s) (remoteWriter s) (remoteReader s) (isClosed s)
    (isConnecting s) (connectionAttempts s) rs (pump s) (opened s) (effects s).

Definition setPump (p : Pump) (s : Session) : Session :=
  mkSession (remoteSocket s) (remoteWriter s) (remoteReader s) (isClosed s)
    (isConnecting s) (connectionAttempts s) (readyState s) p (opened s)
    (effects s).

Definition setOpened (n : nat) (s : Session) : Session :=
  mkSession (remoteSocket s) (remoteWriter s) (remoteReader s) (isClosed s)
    (isConnecting s) (connectionAttempts s) (readyState s) (pump s) n
    (effects s).

(** The session as [handleSession] starts it, on an accepted WebSocket. *)
Definition newSession : Session :=
  mkSession None None None false false 0 1 Idle 0 [].

Definition safeCloseWebSocket (s : Session) : Session :=
  if (readyState s =? 1) || (readyState s =? 2)
  then setReadyState 2 (emit (WsClose 1000 "Server closed") s)
  else s.

(** [try { remoteWriter?.releaseLock() } catch { }] and the two lines after
    it, then the handles set to [null] (lines 44-47 and 170-173). *)
Definition releaseHandles (s : Session) : Session :=
  let s := match remoteWriter s with
           | Some w => emit (WriterReleaseLock w) s
           | None => s
           end in
  let s := match remoteReader s with
           | Some r => emit (ReaderReleaseLock r) s
           | None => s
           end in
  let s := match remoteSocket s with
           | Some k => emit (SocketClose k) s
           | None => s
           end in
  setHandles None None None s.

Definition cleanup (s : Session) : Session :=
  if isClosed s then s
  else
    let s := setIsClosed true s in
    let s := setIsConnecting false s in
    let s := releaseHandles s in
    safeCloseWebSocket s.

(** *** The pump [pumpRemoteToWebSocket] *)

Inductive ReadResult : Type :=
| Chunk (value : list byte)
| Done
| ReadError.

(** Lines 74-77. *)
Definition pumpFinish (s : Session) : Session :=
  let s := setPump Idle s in
  if negb (isClosed s)
  then cleanup (emit (WsSend (Text "CLOSE")) s)
  else s.

(** The head of the [while] loop, up to the read it awaits. *)
Definition pumpLoop (s : Session) : Session :=
  match remoteReader s with
  | Some r =>
      if negb (isClosed s) then setPump AwaitRead (emit (ReaderRead r) s)
      else pumpFinish s
  | None => pumpFinish s
  end.

(** The pending read settles. *)
Definition onRead (r : ReadResult) (s : Session) : Session :=
  match pump s with
  | AwaitRead =>
      match r with
      | Done => pumpFinish s
      | Chunk value =>
          if negb (readyState s =? 1) then pumpFinish s
          else
            let s := if len value >? 0 then emit (WsSend (Binary value)) s
                     else s in
            pumpLoop s
      | ReadError =>
          let s := emit ConsoleError s in
          if negb (isClosed s) && (connectionAttempts s <? 3) then
            let s := setConnectionAttempts (connectionAttempts s + 1) s in
            setPump AwaitTimer
              (emit (SetTimeout (1000 * connectionAttempts s)) s)
          else pumpFinish s
      end
  | _ => s
  end.

(** The back-off timer fires; [readable] is the truth of
    [remoteSocket.readable], [getReaderOk] whether [getReader()] returns. *)
Definition onTimer (readable getReaderOk : bool) (s : Session) : Session :=
  match pump s with
  | AwaitTimer =>
      match remoteSocket s with
      | Some k =>
          if readable then
            let s := emit (GetReader k) s in
            if getReaderOk then
              let s := setHandles (remoteSocket s) (remoteWriter s) (Some k) s in
              pumpLoop (emit PumpRestart s)
            else pumpFinish s
          else pumpFinish s
      | None => pumpFinish s
      end
  | _ => s
  end.

(** *** [connectToRemote] *)

(** A JavaScript completion: normal, or an exception with its message. *)
Inductive Completion : Type :=
| Normal (s : Session)
| Throw (message : string) (s : Session).

Inductive Stage : Type :=
| AtConnect | AtOpened | AtGetWriter | AtGetReader | AtWrite | AtSend.

Inductive AttemptOutcome : Type :=
| Established
| FailsAt (stage : Stage) (message : string).

Definition stage_eqb (a b : Stage) : bool :=
  match a, b with
  | AtConnect, AtConnect | AtOpened, AtOpened | AtGetWriter, AtGetWriter
  | AtGetReader, AtGetReader | AtWrite, AtWrite | AtSend, AtSend => true
  | _, _ => false
  end.

Definition fails (o : AttemptOutcome) (st : Stage) : option string :=
  match o with
  | FailsAt st' m => if stage_eqb st' st then Some m else None
  | Established => None
  end.

Definition encode (s : string) : list byte := list_byte_of_string s.

(** The body of the inner [try] (lines 151-168). *)
Definition attempt (attemptHost : string) (attemptPort : Z)
    (firstFrameData : string) (o : AttemptOutcome) (s : Session)
  : Completion :=
  let s := emit (SocketConnect attemptHost attemptPort) s in
  match fails o AtConnect with
  | Some m => Throw m s
  | None =>
  let k := opened s in
  let s := setOpened (S k) s in
  let s := setHandles (Some k) (remoteWriter s) (remoteReader s) s in
  match fails o AtOpened with
  | Some m => Throw m s
  | None =>
  let s := emit (GetWriter k) s in
  match fails o AtGetWriter with
  | Some m => Throw m s
  | None =>
  let s := setHandles (remoteSocket s) (Some k) (remoteReader s) s in
  let s := emit (GetReader k) s in
  match fails o AtGetReader with
  | Some m => Throw m s
  | None =>
  let s := setHandles (remoteSocket s) (remoteWriter s) (Some k) s in
  let r :=
    if String.eqb firstFrameData "" then Normal s
    else
      let s := emit (WriterWrite k (encode firstFrameData)) s in
      match fails o AtWrite with
      | Some m => Throw m s
      | None => Normal s
      end in
  match r with
  | Throw m s => Throw m s
  | Normal s =>
  let s := setIsConnecting false s in
  let s := emit (WsSend (Text "CONNECTED")) s in
  match fails o AtSend with
  | Some m => Throw m s
  | None => Normal (pumpLoop s)
  end end end end end end.

(** The exception one attempt ends with, if any: the write of the first
    frame is only made, and so can only fail, when there is a first
    frame. *)
Definition thrown (o : AttemptOutcome) (firstFrameData : string)
  : option string :=
  match o with
  | Established => None
  | FailsAt AtWrite m =>
      if String.eqb firstFrameData "" then None else Some m
  | FailsAt _ m => Some m
  end.

(** The loop over [attempts] (lines 129-179), at index [i].  The port that
    [parseAddress] returns is never [NaN], so of the two ways the code takes
    a fallback only the first, [parsed.host] and [parsed.port], can run. *)
Fixpoint tryAttempts (original : Address) (firstFrameData : string)
    (io : nat -> AttemptOutcome) (i : nat) (attempts : list (option string))
    (s : Session) : Completion :=
  match attempts with
  | [] => Normal s
  | a :: rest =>
      let '(attemptHost, attemptPort) :=
        match a with
        | None => (host original, port original)
        | Some fallback =>
            let parsed := parseAddress fallback in
            (host parsed, port parsed)
        end in
      match attempt attemptHost attemptPort firstFrameData (io i) s with
      | Normal s => Normal s
      | Throw err s =>
          let s := releaseHandles s in
          if negb (isCFError err) || match rest with [] => true | _ => false end
          then Throw err s
          else tryAttempts original firstFrameData io (S i) rest s
      end
  end.

Definition errAlreadyConnecting : string := "已有连接或正在连接中".

Definition connectToRemote (targetAddr firstFrameData proxyIP : string)
    (io : nat -> AttemptOutcome) (s : Session) : Completion :=
  if isConnecting s || match remoteSocket s with Some _ => true | None => false end
  then Throw errAlreadyConnecting s
  else
    let s := setIsConnecting true s in
    let s := setConnectionAttempts 0 s in
    let original := parseAddress targetAddr in
    let fallbackIPs := if String.eqb proxyIP "" then [] else [Some proxyIP] in
    let attempts := None :: fallbackIPs in
    match tryAttempts original firstFrameData io 0 attempts s with
    | Normal s => Normal s
    | Throw err s => Throw err (setIsConnecting false s)
    end.

(** *** The [message], [close] and [error] listeners *)

(** What the awaits of one [message] handler settle to. *)
Record IO : Type :=
  { attemptOutcome : nat -> AttemptOutcome;   (* per connect attempt *)
    writeRejects : option string              (* [remoteWriter.write] *) }.

Definition write (w : nat) (chunk : list byte) (io : IO) (s : Session)
  : Completion :=
  let s := emit (WriterWrite w chunk) s in
  match writeRejects io with
  | Some m => Throw m s
  | None => Normal s
  end.

(** The body of the [try] of the [message] listener. *)
Definition handle (data : Payload) (io : IO) (s : Session) : Completion :=
  match data with
  | Text data =>
      if startsWith data "CONNECT:" then
        let parts := split (Ascii.eqb "|") data in
        let targetAddr := substringFrom (nth 0 parts "") 8 in
        let firstFrameData := nth 1 parts "" in
        let proxyIP := nth 2 parts "" in
        if String.eqb targetAddr "" then Throw "无效的目标地址" s
        else connectToRemote targetAddr firstFrameData proxyIP
               (attemptOutcome io) s
      else if startsWith data "DATA:" then
        match remoteWriter s with
        | Some w => write w (encode (substringFrom data 5)) io s
        | None => Normal s
        end
      else if String.eqb data "CLOSE" then Normal (cleanup s)
      else Normal s
  | Binary b =>
      match remoteWriter s with
      | Some w => write w b io s
      | None => Normal s
      end
  end.

Definition onMessage (data : Payload) (io : IO) (s : Session) : Session :=
  if isClosed s then s
  else
    match handle data io s with
    | Normal s => s
    | Throw message s =>
        cleanup (emit (WsSend (Text ("ERROR:" ++ message))) s)
    end.

Inductive Event : Type :=
| Message (data : Payload) (io : IO)
| Close
| Error
| ReadyStateChange (rs : Z)     (* the peer or the network moves the WebSocket *)
| ReadSettles (r : ReadResult)
| TimerFires (readable getReaderOk : bool).

Definition step (s : Session) (e : Event) : Session :=
  match e with
  | Message data io => onMessage data io s
  | Close => cleanup s
  | Error => cleanup s
  | ReadyStateChange rs => setReadyState rs s
  | ReadSettles r => onRead r s
  | TimerFires readable getReaderOk => onTimer readable getReaderOk s
  end.

Definition run (evs : list Event) (s : Session) : Session :=
  fold_left step evs s.

(** *** Reading the effects *)

Definition isRestart (e : Effect) : bool :=
  match e with PumpRestart => true | _ => false end.

Definition restarts (l : list Effect) : nat :=
  List.length (filter isRestart l).

Fixpoint timeouts (l : list Effect) : list Z :=
  match l with
  | [] => []
  | SetTimeout ms :: l' => ms :: timeouts l'
  | _ :: l' => timeouts l'
  end.

(** The close operations of teardown. *)
Definition isCloseOp (e : Effect) : bool :=
  match e with
  | WriterReleaseLock _ | ReaderReleaseLock _ | SocketClose _ | WsClose _ _ =>
      true
  | _ => false
  end.

Definition closeOps (l : list Effect) : list Effect := filter isCloseOp l.

(** The targets of the calls of [connect], in order. *)
Definition connects (l : list Effect) : list (string * Z) :=
  flat_map (fun e => match e with SocketConnect h p => [(h, p)] | _ => [] end)
    l.

(** How many times the outbound socket [k] was closed. *)
Definition closes (k : nat) (l : list Effect) : nat :=
  List.length
    (filter (fun e => match e with SocketClose j => Nat.eqb j k | _ => false end)
       l).

(** The data frames of the peer, a text that starts with [DATA:] or a
    binary message, and the bytes they carry. *)
Definition isData (p : Payload) : bool :=
  match p with
  | Text s => startsWith s "DATA:"
  | Binary _ => true
  end.

Definition dataBytes (p : Payload) : list byte :=
  match p with
  | Text s => encode (substringFrom s 5)
  | Binary b => b
  end.

(** *** The ways into teardown *)

(** The places that call [cleanup()]: the peer's [CLOSE] (line 210), the
    [close] and [error] listeners (lines 222-223), the [catch] of the
    [message] listener (lines 216-219) and the last lines of the pump
    (lines 74-77). *)
Inductive Trigger : Type :=
| PeerClose
| CloseEvent
| ErrorEvent
| HandlerError (message : string)
| PumpExhausted.

Definition fire (s : Session) (t : Trigger) : Session :=
  match t with
  | PeerClose =>
      onMessage (Text "CLOSE")
        {| attemptOutcome := fun _ => Established; writeRejects := None |} s
  | CloseEvent => step s Close
  | ErrorEvent => step s Error
  | HandlerError message =>
      cleanup (emit (WsSend (Text ("ERROR:" ++ message))) s)
  | PumpExhausted => pumpFinish s
  end.

(** What one teardown of [s] has to do: one operation per handle held, and
    the close of a WebSocket that is open or closing. *)
Definition teardownOps (s : Session) : list Effect :=
  (match remoteWriter s with Some w => [WriterReleaseLock w] | None => [] end
   ++ match remoteReader s with Some r => [ReaderReleaseLock r] | None => [] end
   ++ match remoteSocket s with Some k => [SocketClose k] | None => [] end
   ++ (if (readyState s =? 1) || (readyState s =? 2)
       then [WsClose 1000 "Server closed"] else []))%list.

(** *** What holds of every session between two events *)

(** The back-off delays of the first [n] restart attempts. *)
Definition delays (n : nat) : list Z :=
  map (fun k => 1000 * Z.of_nat k) (seq 1 n).

Record Inv (s : Session) : Prop :=
  { inv_attempts : 0 <= connectionAttempts s <= 3;
    inv_timeouts :
      timeouts (effects s) = delays (Z.to_nat (connectionAttempts s));
    inv_restarts :
      (restarts (effects s) <= Z.to_nat (connectionAttempts s))%nat;
    inv_timer :
      pump s = AwaitTimer ->
      (restarts (effects s) < Z.to_nat (connectionAttempts s))%nat;
    inv_idle :
      isClosed s = false -> remoteSocket s = None ->
      connectionAttempts s = 0 /\ pump s = Idle;
    inv_closed : isClosed s = true -> remoteSocket s = None;
    inv_connecting : isConnecting s = false }.


End worker.

(** ** Concrete inputs *)

Module sample.

Import wire.

Definition bytes (s : string) : list byte := list_byte_of_string s.

Definition response (answers : list Answer) : Response :=
  {| id := 1; flags := 33152;
     qname := [bytes "example"; bytes "com"]; qtype := 65; qclass := 1;
     answers := answers; nscount := 0; arcount := 0; trailer := [] |}.

(** A CNAME whose owner is a pointer to the question name. *)
Definition cname : Answer :=
  {| name := Pointer 12; class := 1; ttl := 300;
     rdata := Other 5 (x03 :: bytes "cdn" ++ [xc0; x0c]) |}.

Definition https (params : list SvcParam) : Answer :=
  {| name := Pointer 12; class := 1; ttl := 300;
     rdata := HTTPS 1 [] params |}.

Definition ech_config : list byte := bytes "ech-config-list".

Definition alpn : SvcParam := {| key := 1; value := x02 :: bytes "h2" |}.
Definition no_default_alpn : SvcParam := {| key := 2; value := [] |}.
Definition ech_param : SvcParam := {| key := 5; value := ech_config |}.

Definition with_ech : Response := response [cname; https [alpn; ech_param]].

Definition with_no_default_alpn : Response :=
  response [https [alpn; no_default_alpn; ech_param]].

Definition no_answers : Response := response [].

Definition no_https : Response := response [cname].

(** One TXT answer whose owner name is a label followed by a pointer, and
    whose text holds, 181 octets in, a zero octet and what reads as an HTTPS
    record with key 5 = "xyz". *)
Definition smuggled : Response :=
  response
    [ {| name := LabelsPointer [bytes "a"] 12; class := 1; ttl := 300;
         rdata :=
           Other 16
             (xc9 :: repeat x41 180
                ++ [x00; x00; x41; x00; x01; x00; x00; x00; x00; x00; x0a;
                    x00; x01; x00; x00; x05; x00; x03]
                ++ bytes "xyz") |} ].

(** A DoH server that answers every query with [m]; the trust store loads
    and the dial connects. *)
Definition serving (m : Response) : rt.Env :=
  {| rt.doh := fun _ => rt.Response 200 (inr (encode m));
     rt.SystemCertPool := fun _ => None;
     rt.dial := fun _ => None |}.

(** The client before its first [Prepare]. *)
Definition fresh : rt.World :=
  {| rt.manager := ech.NewECHManager "cloudflare-ech.com" "dns.alidns.com/dns-query";
     rt.trace := [] |}.

Definition client : websocket.WebSocketClient :=
  {| websocket.serverAddr := "edge.example.com:443/tunnel";
     websocket.token := "secret";
     websocket.serverIP := "" |}.

(** The system trust store cannot be read. *)
Definition untrusted : rt.Env :=
  {| rt.doh := fun _ => rt.Response 200 (inr (encode with_ech));
     rt.SystemCertPool := fun _ => Some "x509: system roots unavailable"%string;
     rt.dial := fun _ => None |}.

(** No DoH query ever gets through. *)
Definition offline : rt.Env :=
  {| rt.doh := fun _ => rt.DoFails "context deadline exceeded";
     rt.SystemCertPool := fun _ => None;
     rt.dial := fun _ => None |}.

(** The first DoH query times out, the later ones deliver [with_ech];
    every dial ends with [dialErr]. *)
Definition recovering (dialErr : rt.error) : rt.Env :=
  {| rt.doh := fun h =>
       if Nat.eqb (rt.refreshes h) 0
       then rt.DoFails "context deadline exceeded"
       else rt.Response 200 (inr (encode with_ech));
     rt.SystemCertPool := fun _ => None;
     rt.dial := fun _ => dialErr |}.

(** The edge rejects ECH on every dial. *)
Definition rejecting : rt.Env :=
  {| rt.doh := fun _ => rt.Response 200 (inr (encode with_ech));
     rt.SystemCertPool := fun _ => None;
     rt.dial := fun _ => Some "tls: server rejected ECH"%string |}.

(** A session with its outbound connection up and the pump reading. *)
Definition connected : worker.Session :=
  worker.mkSession (Some 0%nat) (Some 0%nat) (Some 0%nat) false false 0 1
    worker.AwaitRead 1
    [worker.SocketConnect "example.com" 443; worker.GetWriter 0;
     worker.GetReader 0; worker.WsSend (worker.Text "CONNECTED");
     worker.ReaderRead 0].

Definition io : worker.IO :=
  {| worker.attemptOutcome := fun _ => worker.Established;
     worker.writeRejects := None |}.

(** Connect, then three read errors, each followed by a restart, with one
    chunk forwarded in between. *)
Definition restart_run : list worker.Event :=
  [worker.Message (worker.Text "CONNECT:example.com:443") io;
   worker.ReadSettles worker.ReadError; worker.TimerFires true true;
   worker.ReadSettles (worker.Chunk [x01]);
   worker.ReadSettles worker.ReadError; worker.TimerFires true true;
   worker.ReadSettles worker.ReadError; worker.TimerFires true true].

(** The client with a blob in its store. *)
Definition loaded : rt.World :=
  {| rt.manager :=
       {| rt.echList := ech_config;
          rt.echDomain := "cloudflare-ech.com";
          rt.dnsServer := "dns.alidns.com/dns-query" |};
     rt.trace := [] |}.

End sample.

(** * Properties *)

(** ** Buffers *)

Lemma u8_range (b : byte) : 0 <= u8 b < 256.
Proof.
  unfold u8. pose proof (Byte.to_N_bounded b). lia.
Qed.

Lemma u8_byte_of_Z (z : Z) : 0 <= z < 256 -> u8 (byte_of_Z z) = z.
Proof.
  intros Hz. unfold u8, byte_of_Z.
  destruct (Byte.of_N (Z.to_N z)) as [b|] eqn:E.
  - apply Byte.to_of_N in E. rewrite E. lia.
  - apply Byte.of_N_None_iff in E. lia.
Qed.

Lemma len_nonneg {A : Type} (l : list A) : 0 <= len l.
Proof. unfold len. lia. Qed.

Lemma len_app {A : Type} (l1 l2 : list A) : len (l1 ++ l2) = len l1 + len l2.
Proof. unfold len. rewrite length_app. lia. Qed.

Lemma len_cons {A : Type} (a : A) (l : list A) : len (a :: l) = 1 + len l.
Proof. unfold len. cbn [List.length]. lia. Qed.

Lemma len_nil {A : Type} : len (@nil A) = 0.
Proof. reflexivity. Qed.

Lemma idx_in_range (b : list byte) (i : Z) :
  0 <= i < len b -> exists x, idx b i = Ret x /\ 0 <= x < 256.
Proof.
  intros Hi. unfold idx.
  replace ((0 <=? i) && (i <? len b)) with true
    by (symmetry; apply andb_true_iff; split; [apply Z.leb_le | apply Z.ltb_lt]; lia).
  destruct (nth_error b (Z.to_nat i)) as [x|] eqn:E.
  - exists (u8 x). split; [reflexivity | apply u8_range].
  - apply nth_error_None in E. unfold len in Hi. lia.
Qed.

Lemma idx_app (pre : list byte) (x : byte) (post : list byte) :
  idx (pre ++ x :: post) (len pre) = Ret (u8 x).
Proof.
  unfold idx. rewrite len_app, len_cons.
  pose proof (len_nonneg pre). pose proof (len_nonneg post).
  replace ((0 <=? len pre) && (len pre <? len pre + (1 + len post))) with true
    by (symmetry; apply andb_true_iff; split; [apply Z.leb_le | apply Z.ltb_lt]; lia).
  unfold len. rewrite Nat2Z.id, nth_error_app2 by lia.
  rewrite Nat.sub_diag. reflexivity.
Qed.

Lemma slice_in_range (b : list byte) (lo hi : Z) :
  0 <= lo <= hi -> hi <= len b ->
  exists d, slice b lo hi = Ret d /\ len d = hi - lo.
Proof.
  intros H1 H2. unfold slice.
  replace ((0 <=? lo) && (lo <=? hi) && (hi <=? len b)) with true
    by (symmetry; rewrite !andb_true_iff; repeat split; apply Z.leb_le; lia).
  eexists. split; [reflexivity|].
  unfold len in *. rewrite length_firstn, length_skipn. lia.
Qed.

Lemma slice_app (pre mid post : list byte) :
  slice (pre ++ mid ++ post) (len pre) (len pre + len mid) = Ret mid.
Proof.
  unfold slice. rewrite !len_app.
  pose proof (len_nonneg pre). pose proof (len_nonneg mid).
  pose proof (len_nonneg post).
  replace ((0 <=? len pre) && (len pre <=? len pre + len mid)
           && (len pre + len mid <=? len pre + (len mid + len post))) with true
    by (symmetry; rewrite !andb_true_iff; repeat split; apply Z.leb_le; lia).
  f_equal. unfold len. rewrite Nat2Z.id.
  rewrite skipn_app, Nat.sub_diag, skipn_all. simpl.
  replace (Z.to_nat (Z.of_nat (List.length pre) + Z.of_nat (List.length mid)
                     - Z.of_nat (List.length pre))) with (List.length mid) by lia.
  rewrite firstn_app, Nat.sub_diag, firstn_all. simpl. apply app_nil_r.
Qed.

Lemma Uint16_in_range (b : list byte) :
  2 <= len b -> exists z, Uint16 b = Ret z /\ 0 <= z < 65536.
Proof.
  intros Hb. unfold Uint16.
  destruct (idx_in_range b 1) as (lo & -> & Hlo); [lia|].
  destruct (idx_in_range b 0) as (hi & -> & Hhi); [lia|].
  eexists. split; [reflexivity|].
  split.
  - apply Z.lor_nonneg. split; [lia|]. apply Z.shiftl_nonneg. lia.
  - assert (Hlog : forall a, 0 <= a < 2 ^ 16 -> forall c, 0 <= c < 2 ^ 16 ->
                               Z.lor a c < 2 ^ 16).
    { intros a Ha c Hc.
      destruct (Z.eq_dec (Z.lor a c) 0) as [->|Hne]; [lia|].
      assert (0 <= Z.lor a c) by (apply Z.lor_nonneg; lia).
      apply Z.log2_lt_pow2; [lia|].
      rewrite Z.log2_lor by lia.
      apply Z.max_lub_lt.
      - destruct (Z.eq_dec a 0) as [->|]; [simpl; lia|].
        apply Z.log2_lt_pow2; lia.
      - destruct (Z.eq_dec c 0) as [->|]; [simpl; lia|].
        apply Z.log2_lt_pow2; lia. }
    change 65536 with (2 ^ 16). apply Hlog.
    + change (2 ^ 16) with 65536. lia.
    + rewrite Z.shiftl_mul_pow2 by lia. change (2 ^ 8) with 256.
      change (2 ^ 16) with 65536. lia.
Qed.

(** ** The parser is total: no panic, no loop without end *)

Lemma skipLabels_eq (fuel : nat) (buf : list byte) (offset : Z) :
  ech.skipLabels fuel buf offset =
  if negb (offset <? len buf) then Ret offset
  else
    b <- idx buf offset ;;
    if b =? 0 then Ret offset
    else match fuel with
         | O => Stuck
         | S fuel' => ech.skipLabels fuel' buf (offset + (b + 1))
         end.
Proof. destruct fuel; reflexivity. Qed.

Lemma skipLabels_total (fuel : nat) :
  forall (buf : list byte) (offset : Z),
    0 <= offset -> len buf <= offset + Z.of_nat fuel ->
    exists o, ech.skipLabels fuel buf offset = Ret o /\ offset <= o.
Proof.
  induction fuel as [|fuel IH]; intros buf offset H0 Hfuel;
    rewrite skipLabels_eq.
  - replace (offset <? len buf) with false by (symmetry; apply Z.ltb_ge; lia).
    exists offset. split; [reflexivity | lia].
  - destruct (offset <? len buf) eqn:E; cbn [negb].
    + apply Z.ltb_lt in E.
      destruct (idx_in_range buf offset) as (b & -> & Hb); [lia|].
      destruct (b =? 0) eqn:Eb.
      * exists offset. split; [reflexivity | lia].
      * apply Z.eqb_neq in Eb.
        destruct (IH buf (offset + (b + 1))) as (o & Ho & Hle); [lia | lia |].
        exists o. split; [exact Ho | lia].
    + exists offset. split; [reflexivity | lia].
Qed.

Lemma skipTarget_eq (fuel : nat) (data : list byte) (offset : Z) :
  ech.skipTarget fuel data offset =
  if negb (offset <? len data) then Ret (Some offset)
  else
    b <- idx data offset ;;
    if b =? 0 then Ret (Some offset)
    else
      let step := b + 1 in
      if (step <=? 0) || (offset + step >? len data) then Ret None
      else match fuel with
           | O => Stuck
           | S fuel' => ech.skipTarget fuel' data (offset + step)
           end.
Proof. destruct fuel; reflexivity. Qed.

Lemma skipTarget_total (fuel : nat) :
  forall (data : list byte) (offset : Z),
    0 <= offset -> len data <= offset + Z.of_nat fuel ->
    ech.skipTarget fuel data offset = Ret None
    \/ exists o, ech.skipTarget fuel data offset = Ret (Some o) /\ offset <= o.
Proof.
  induction fuel as [|fuel IH]; intros data offset H0 Hfuel;
    rewrite skipTarget_eq.
  - replace (offset <? len data) with false by (symmetry; apply Z.ltb_ge; lia).
    right. exists offset. split; [reflexivity | lia].
  - destruct (offset <? len data) eqn:E; cbn [negb].
    + apply Z.ltb_lt in E.
      destruct (idx_in_range data offset) as (b & -> & Hb); [lia|].
      destruct (b =? 0) eqn:Eb.
      * right. exists offset. split; [reflexivity | lia].
      * apply Z.eqb_neq in Eb. cbv zeta.
        destruct ((b + 1 <=? 0) || (offset + (b + 1) >? len data)); [now left|].
        destruct (IH data (offset + (b + 1))) as [Hn | (o & Ho & Hle)];
          [lia | lia | now left |].
        right. exists o. split; [exact Ho | lia].
    + right. exists offset. split; [reflexivity | lia].
Qed.

Lemma svcParams_eq (fuel : nat) (data : list byte) (offset : Z) :
  ech.svcParams fuel data offset =
  if negb (offset + 4 <=? len data) then Ret EmptyString
  else if offset + 4 >? len data then Ret EmptyString
  else
    k <- slice data offset (offset + 2) ;;
    key <- Uint16 k ;;
    l <- slice data (offset + 2) (offset + 4) ;;
    length_ <- Uint16 l ;;
    let offset := offset + 4 in
    if (length_ =? 0) || (offset + length_ >? len data) then Ret EmptyString
    else
      value <- slice data offset (offset + length_) ;;
      let offset := offset + length_ in
      if key =? 5 then Ret (base64.EncodeToString value)
      else match fuel with
           | O => Stuck
           | S fuel' => ech.svcParams fuel' data offset
           end.
Proof. destruct fuel; reflexivity. Qed.

Lemma svcParams_total (fuel : nat) :
  forall (data : list byte) (offset : Z),
    0 <= offset -> len data <= offset + Z.of_nat fuel ->
    exists s, ech.svcParams fuel data offset = Ret s.
Proof.
  induction fuel as [|fuel IH]; intros data offset H0 Hfuel;
    rewrite svcParams_eq.
  - replace (offset + 4 <=? len data) with false
      by (symmetry; apply Z.leb_gt; lia).
    now eexists.
  - destruct (offset + 4 <=? len data) eqn:E; cbn [negb]; [|now eexists].
    apply Z.leb_le in E.
    replace (offset + 4 >? len data) with false
      by (symmetry; rewrite Z.gtb_ltb; apply Z.ltb_ge; lia).
    destruct (slice_in_range data offset (offset + 2)) as (k & -> & Hk);
      [lia | lia |].
    destruct (Uint16_in_range k) as (key & -> & Hkey); [lia|].
    destruct (slice_in_range data (offset + 2) (offset + 4)) as (l & -> & Hl);
      [lia | lia |].
    destruct (Uint16_in_range l) as (n & -> & Hn); [lia|].
    cbv zeta.
    destruct (n =? 0) eqn:En; cbn [orb]; [now eexists|].
    apply Z.eqb_neq in En.
    destruct (offset + 4 + n >? len data) eqn:Eg; [now eexists|].
    rewrite Z.gtb_ltb in Eg. apply Z.ltb_ge in Eg.
    destruct (slice_in_range data (offset + 4) (offset + 4 + n))
      as (v & -> & Hv); [lia | lia |].
    destruct (key =? 5); [now eexists|].
    apply IH; lia.
Qed.

Lemma parseHTTPSRecord_total (data : list byte) :
  exists s, ech.parseHTTPSRecord data = Ret s.
Proof.
  unfold ech.parseHTTPSRecord.
  destruct (len data <? 2) eqn:E2; [now eexists|].
  destruct (2 >=? len data) eqn:E3; [now eexists|].
  apply Z.ltb_ge in E2. rewrite Z.geb_leb in E3. apply Z.leb_gt in E3.
  destruct (idx_in_range data 2) as (b & -> & Hb); [lia|].
  destruct (b =? 0).
  - apply svcParams_total; unfold len in *; lia.
  - destruct (skipTarget_total (List.length data) data 2)
      as [-> | (o & -> & Ho)]; [lia | fold (len data); lia | now eexists |].
    cbn [option_map]. apply svcParams_total; unfold len in *; lia.
Qed.

Lemma answers_total (n : nat) :
  forall (response : list byte) (offset : Z),
    0 <= offset -> exists r, ech.answers n response offset = Ret r.
Proof.
  induction n as [|n IH]; intros response offset H0; cbn [ech.answers].
  - now eexists.
  - destruct (offset >=? len response) eqn:E; [now eexists|].
    rewrite Z.geb_leb in E. apply Z.leb_gt in E.
    destruct (idx_in_range response offset) as (b & -> & Hb); [lia|].
    assert (Hname : exists o,
               (if Z.land b 192 =? 192 then Ret (offset + 2)
                else o <- ech.skipLabels (List.length response) response offset ;;
                     Ret (o + 1)) = Ret o /\ 0 <= o).
    { destruct (Z.land b 192 =? 192).
      - eexists. split; [reflexivity | lia].
      - destruct (skipLabels_total (List.length response) response offset)
          as (o & -> & Ho); [lia | fold (len response); lia |].
        eexists. split; [reflexivity | lia]. }
    destruct Hname as (o & -> & Ho).
    destruct (o + 10 >? len response) eqn:E10; [now eexists|].
    rewrite Z.gtb_ltb in E10. apply Z.ltb_ge in E10.
    destruct (slice_in_range response o (o + 2)) as (t & -> & Ht);
      [lia | lia |].
    destruct (Uint16_in_range t) as (rrType & -> & Hty); [lia|].
    cbv zeta.
    destruct (slice_in_range response (o + 8) (o + 8 + 2)) as (d & -> & Hd);
      [lia | lia |].
    destruct (Uint16_in_range d) as (dataLen & -> & Hdl); [lia|].
    destruct (o + 8 + 2 + dataLen >? len response) eqn:El; [now eexists|].
    rewrite Z.gtb_ltb in El. apply Z.ltb_ge in El.
    destruct (slice_in_range response (o + 8 + 2) (o + 8 + 2 + dataLen))
      as (data & -> & Hdata); [lia | lia |].
    destruct (rrType =? ech.TypeHTTPS).
    + destruct (parseHTTPSRecord_total data) as (ech & ->).
      destruct (ech.nonempty ech); [now eexists|]. apply IH. lia.
    + apply IH. lia.
Qed.

Lemma parseDNSResponse_total (response : list byte) :
  exists r, ech.parseDNSResponse response = Ret r.
Proof.
  unfold ech.parseDNSResponse.
  destruct (len response <? 12) eqn:E; [now eexists|].
  apply Z.ltb_ge in E.
  destruct (slice_in_range response 6 8) as (h & -> & Hh); [lia | lia |].
  destruct (Uint16_in_range h) as (ancount & -> & Hn); [lia|].
  destruct (ancount =? 0); [now eexists|].
  destruct (skipLabels_total (List.length response) response 12)
    as (o & -> & Ho); [lia | fold (len response); lia |].
  apply answers_total. lia.
Qed.

(** C2.  For every input byte slice, and so for every prefix of an encoded
    response, [parseDNSResponse] and [parseHTTPSRecord] return: no index or
    slice leaves the buffer (no [Panic]) and every loop ends (no [Stuck]). *)
Theorem parser_never_reads_past_buffer :
  (forall response : list byte,
      exists r, ech.parseDNSResponse response = Ret r)
  /\ (forall data : list byte,
         exists s, ech.parseHTTPSRecord data = Ret s)
  /\ (forall (m : wire.Response) (n : nat),
         exists r, ech.parseDNSResponse (firstn n (wire.encode m)) = Ret r).
Proof.
  split; [|split].
  - exact parseDNSResponse_total.
  - exact parseHTTPSRecord_total.
  - intros m n. apply parseDNSResponse_total.
Qed.

(** ** The parser on encoded responses *)

Lemma is_u16_spec (z : Z) : wire.is_u16 z = true <-> 0 <= z < 65536.
Proof.
  unfold wire.is_u16. rewrite andb_true_iff, Z.leb_le, Z.ltb_lt. tauto.
Qed.

Lemma lor_split_256 (z : Z) :
  0 <= z -> Z.lor (z mod 256) (Z.shiftl (z / 256) 8) = z.
Proof.
  intros Hz.
  change 256 with (2 ^ 8).
  rewrite <- Z.land_ones, <- Z.shiftr_div_pow2, <- Z.ldiff_ones_r by lia.
  rewrite Z.lor_comm. apply Z.lor_ldiff_and.
Qed.

Lemma len_put16 (z : Z) : len (wire.put16 z) = 2.
Proof. reflexivity. Qed.

Lemma len_put32 (z : Z) : len (wire.put32 z) = 4.
Proof. reflexivity. Qed.

Lemma Uint16_put16 (z : Z) :
  0 <= z < 65536 -> Uint16 (wire.put16 z) = Ret z.
Proof.
  intros Hz. unfold Uint16, wire.put16.
  change (idx [byte_of_Z (z / 256); byte_of_Z (z mod 256)] 1)
    with (Ret (u8 (byte_of_Z (z mod 256)))).
  change (idx [byte_of_Z (z / 256); byte_of_Z (z mod 256)] 0)
    with (Ret (u8 (byte_of_Z (z / 256)))).
  cbv iota beta.
  rewrite !u8_byte_of_Z.
  - f_equal. apply lor_split_256. lia.
  - split; [apply Z.div_pos; lia | apply Z.div_lt_upper_bound; lia].
  - apply Z.mod_pos_bound. lia.
Qed.

Lemma land_192 (b : Z) :
  0 <= b < 256 ->
  Z.land b 192 = if b <? 64 then 0
                 else if b <? 128 then 64
                 else if b <? 192 then 128 else 192.
Proof.
  intros Hb.
  assert (H : forallb (fun n => let b := Z.of_nat n in
                         Z.land b 192 =?
                         (if b <? 64 then 0
                          else if b <? 128 then 64
                          else if b <? 192 then 128 else 192))
                (seq 0 256) = true) by (vm_compute; reflexivity).
  rewrite forallb_forall in H.
  specialize (H (Z.to_nat b)).
  cbv zeta in H. rewrite Z2Nat.id in H by lia.
  apply Z.eqb_eq, H, in_seq. lia.
Qed.

Lemma wf_label_spec (l : wire.label) :
  wire.wf_label l = true <-> 1 <= len l <= 63.
Proof.
  unfold wire.wf_label. rewrite andb_true_iff, !Z.leb_le. tauto.
Qed.

Create Rewrite HintDb lens.

#[global] Hint Rewrite @len_app @len_cons @len_nil len_put16 len_put32 : lens.

Lemma length_encLabels (ls : list wire.label) :
  (List.length ls <= List.length (wire.encLabels ls))%nat.
Proof.
  induction ls as [|l ls IH]; [apply Nat.le_refl|].
  unfold wire.encLabels in *. cbn [flat_map]. unfold wire.encLabel at 1.
  cbn [app List.length]. rewrite length_app. lia.
Qed.

Lemma encLabels_cons (l : wire.label) (ls : list wire.label) :
  wire.encLabels (l :: ls) = (byte_of_Z (len l) :: l) ++ wire.encLabels ls.
Proof. reflexivity. Qed.

(** Walking the labels of an encoded name stops on its zero octet. *)
Lemma skipLabels_encLabels (ls : list wire.label) :
  forall (fuel : nat) (pre post : list byte),
    forallb wire.wf_label ls = true ->
    (List.length ls <= fuel)%nat ->
    ech.skipLabels fuel (pre ++ wire.encLabels ls ++ x00 :: post) (len pre)
    = Ret (len pre + len (wire.encLabels ls)).
Proof.
  induction ls as [|l ls IH]; intros fuel pre post Hwf Hfuel;
    rewrite skipLabels_eq.
  - cbn [wire.encLabels flat_map app].
    rewrite len_app, len_cons.
    pose proof (len_nonneg pre). pose proof (len_nonneg post).
    replace (len pre <? len pre + (1 + len post)) with true
      by (symmetry; apply Z.ltb_lt; lia).
    cbn [negb]. rewrite idx_app.
    change (u8 x00) with 0. cbn [Z.eqb]. f_equal. rewrite len_nil. lia.
  - cbn [forallb] in Hwf. apply andb_true_iff in Hwf as [Hl Hls].
    apply wf_label_spec in Hl.
    rewrite encLabels_cons, <- app_assoc. cbn [app].
    rewrite len_app, len_cons.
    pose proof (len_nonneg pre).
    pose proof (len_nonneg (l ++ wire.encLabels ls ++ x00 :: post)).
    replace (len pre <? _) with true by (symmetry; apply Z.ltb_lt; lia).
    cbn [negb]. rewrite idx_app, u8_byte_of_Z by lia.
    replace (len l =? 0) with false by (symmetry; apply Z.eqb_neq; lia).
    destruct fuel as [|fuel]; [cbn [List.length] in Hfuel; lia|].
    replace (pre ++ byte_of_Z (len l) :: l ++ wire.encLabels ls ++ x00 :: post)
      with ((pre ++ byte_of_Z (len l) :: l)
              ++ wire.encLabels ls ++ x00 :: post)
      by (rewrite <- !app_assoc; reflexivity).
    replace (len pre + (len l + 1)) with (len (pre ++ byte_of_Z (len l) :: l))
      by (rewrite len_app, len_cons; lia).
    cbn [List.length] in Hfuel. rewrite IH; [| assumption | lia].
    f_equal. autorewrite with lens. lia.
Qed.

Lemma skipLabels_name (ls : list wire.label) (pre post : list byte) :
  forallb wire.wf_label ls = true ->
  let buf := pre ++ wire.encLabels ls ++ x00 :: post in
  ech.skipLabels (List.length buf) buf (len pre)
  = Ret (len pre + len (wire.encLabels ls)).
Proof.
  intros Hwf buf. apply skipLabels_encLabels; [exact Hwf|].
  unfold buf. rewrite !length_app. pose proof (length_encLabels ls). lia.
Qed.

(** The TargetName of an HTTPS record is walked the same way. *)
Lemma skipTarget_encLabels (ls : list wire.label) :
  forall (fuel : nat) (pre post : list byte),
    forallb wire.wf_label ls = true ->
    (List.length ls <= fuel)%nat ->
    ech.skipTarget fuel (pre ++ wire.encLabels ls ++ x00 :: post) (len pre)
    = Ret (Some (len pre + len (wire.encLabels ls))).
Proof.
  induction ls as [|l ls IH]; intros fuel pre post Hwf Hfuel;
    rewrite skipTarget_eq.
  - cbn [wire.encLabels flat_map app].
    autorewrite with lens.
    pose proof (len_nonneg pre). pose proof (len_nonneg post).
    replace (len pre <? len pre + (1 + len post)) with true
      by (symmetry; apply Z.ltb_lt; lia).
    cbn [negb]. rewrite idx_app.
    change (u8 x00) with 0. cbn [Z.eqb]. do 2 f_equal. lia.
  - cbn [forallb] in Hwf. apply andb_true_iff in Hwf as [Hl Hls].
    apply wf_label_spec in Hl.
    rewrite encLabels_cons, <- app_assoc. cbn [app].
    pose proof (len_nonneg pre).
    pose proof (len_nonneg (wire.encLabels ls)). pose proof (len_nonneg post).
    replace (len pre <? _) with true
      by (symmetry; apply Z.ltb_lt; autorewrite with lens; lia).
    cbn [negb]. rewrite idx_app, u8_byte_of_Z by lia.
    replace (len l =? 0) with false by (symmetry; apply Z.eqb_neq; lia).
    cbv zeta.
    replace ((len l + 1 <=? 0) || (len pre + (len l + 1) >? _)) with false
      by (symmetry; apply orb_false_iff; split;
          [apply Z.leb_gt; lia
          | rewrite Z.gtb_ltb; apply Z.ltb_ge; autorewrite with lens; lia]).
    destruct fuel as [|fuel]; [cbn [List.length] in Hfuel; lia|].
    replace (pre ++ byte_of_Z (len l) :: l ++ wire.encLabels ls ++ x00 :: post)
      with ((pre ++ byte_of_Z (len l) :: l)
              ++ wire.encLabels ls ++ x00 :: post)
      by (rewrite <- !app_assoc; reflexivity).
    replace (len pre + (len l + 1)) with (len (pre ++ byte_of_Z (len l) :: l))
      by (autorewrite with lens; lia).
    cbn [List.length] in Hfuel. rewrite IH; [| assumption | lia].
    do 2 f_equal. autorewrite with lens. lia.
Qed.

Ltac list_eq :=
  repeat (rewrite <- app_assoc || rewrite <- app_comm_cons); reflexivity.

Lemma idx_at (b pre : list byte) (x : byte) (post : list byte) (i : Z) :
  b = pre ++ x :: post -> i = len pre -> idx b i = Ret (u8 x).
Proof. intros -> ->. apply idx_app. Qed.

Lemma slice_at (b pre mid post : list byte) (lo hi : Z) :
  b = pre ++ mid ++ post -> lo = len pre -> hi = len pre + len mid ->
  slice b lo hi = Ret mid.
Proof. intros -> -> ->. apply slice_app. Qed.

Lemma wf_param_spec (p : wire.SvcParam) :
  wire.wf_param p = true <->
  0 <= wire.key p < 65536 /\ len (wire.value p) < 65536.
Proof.
  unfold wire.wf_param. rewrite andb_true_iff, is_u16_spec, Z.ltb_lt. tauto.
Qed.

Lemma len_encParam (p : wire.SvcParam) :
  len (wire.encParam p) = 4 + len (wire.value p).
Proof. unfold wire.encParam. autorewrite with lens. lia. Qed.

(** One turn of the SvcParam loop on an encoded parameter. *)
Lemma svcParams_step (fuel : nat) (pre rest : list byte) (p : wire.SvcParam) :
  wire.wf_param p = true ->
  let data := pre ++ wire.encParam p ++ rest in
  ech.svcParams fuel data (len pre) =
  if len (wire.value p) =? 0 then Ret EmptyString
  else if wire.key p =? 5 then Ret (base64.EncodeToString (wire.value p))
  else match fuel with
       | O => Stuck
       | S fuel' => ech.svcParams fuel' data (len pre + len (wire.encParam p))
       end.
Proof.
  intros Hwf data. apply wf_param_spec in Hwf as [Hk Hv].
  pose proof (len_nonneg pre). pose proof (len_nonneg rest).
  pose proof (len_nonneg (wire.value p)).
  assert (Hlen : len data = len pre + (4 + len (wire.value p)) + len rest)
    by (unfold data; autorewrite with lens; rewrite len_encParam; lia).
  rewrite svcParams_eq, Hlen.
  replace (len pre + 4 <=? _) with true by (symmetry; apply Z.leb_le; lia).
  replace (len pre + 4 >? _) with false
    by (symmetry; rewrite Z.gtb_ltb; apply Z.ltb_ge; lia).
  cbn [negb].
  rewrite (slice_at data pre (wire.put16 (wire.key p))
             (wire.put16 (len (wire.value p)) ++ wire.value p ++ rest))
    by (try (unfold data, wire.encParam; list_eq); autorewrite with lens; lia).
  rewrite Uint16_put16 by lia.
  rewrite (slice_at data (pre ++ wire.put16 (wire.key p))
             (wire.put16 (len (wire.value p))) (wire.value p ++ rest))
    by (try (unfold data, wire.encParam; list_eq); autorewrite with lens; lia).
  rewrite Uint16_put16 by lia.
  cbv zeta.
  destruct (len (wire.value p) =? 0) eqn:E0; [reflexivity|]. cbn [orb].
  replace (len pre + 4 + len (wire.value p) >? _) with false
    by (symmetry; rewrite Z.gtb_ltb; apply Z.ltb_ge; lia).
  rewrite (slice_at data
             ((pre ++ wire.put16 (wire.key p)) ++ wire.put16 (len (wire.value p)))
             (wire.value p) rest)
    by (try (unfold data, wire.encParam; list_eq); autorewrite with lens; lia).
  rewrite len_encParam.
  replace (len pre + 4 + len (wire.value p))
    with (len pre + (4 + len (wire.value p))) by lia.
  reflexivity.
Qed.

Lemma has_key_cons (k : Z) (p : wire.SvcParam) (ps : list wire.SvcParam) :
  wire.has_key k (p :: ps) = (wire.key p =? k) || wire.has_key k ps.
Proof. reflexivity. Qed.

(** Parameters without key 5 yield nothing. *)
Lemma svcParams_none (ps : list wire.SvcParam) :
  forall (fuel : nat) (pre : list byte),
    forallb wire.wf_param ps = true ->
    wire.has_key 5 ps = false ->
    (List.length ps <= fuel)%nat ->
    ech.svcParams fuel (pre ++ flat_map wire.encParam ps) (len pre)
    = Ret EmptyString.
Proof.
  induction ps as [|p ps IH]; intros fuel pre Hwf Hkey Hfuel.
  - cbn [flat_map]. rewrite app_nil_r, svcParams_eq.
    replace (len pre + 4 <=? len pre) with false
      by (symmetry; apply Z.leb_gt; lia).
    reflexivity.
  - cbn [forallb] in Hwf. apply andb_true_iff in Hwf as [Hp Hps].
    rewrite has_key_cons in Hkey. apply orb_false_iff in Hkey as [Hk5 Hkey].
    cbn [flat_map]. rewrite (svcParams_step fuel pre _ p Hp), Hk5.
    destruct (len (wire.value p) =? 0); [reflexivity|].
    destruct fuel as [|fuel]; [cbn [List.length] in Hfuel; lia|].
    rewrite app_assoc, <- len_app. apply IH; auto.
    cbn [List.length] in Hfuel. lia.
Qed.

(** The first parameter with key 5 is returned, provided no parameter
    before it, nor itself, has an empty value. *)
Lemma svcParams_found (before : list wire.SvcParam) :
  forall (fuel : nat) (pre rest : list byte) (v : list byte),
    forallb wire.wf_param before = true ->
    wire.has_key 5 before = false ->
    forallb wire.nonempty_value before = true ->
    0 < len v < 65536 ->
    (List.length before <= fuel)%nat ->
    ech.svcParams fuel
      (pre ++ flat_map wire.encParam before
           ++ wire.encParam {| wire.key := 5; wire.value := v |} ++ rest)
      (len pre)
    = Ret (base64.EncodeToString v).
Proof.
  induction before as [|p ps IH]; intros fuel pre rest v Hwf Hkey Hne Hv Hfuel.
  - cbn [flat_map app].
    rewrite svcParams_step
      by (apply wf_param_spec; cbn [wire.key wire.value]; lia).
    cbn [wire.key wire.value].
    replace (len v =? 0) with false by (symmetry; apply Z.eqb_neq; lia).
    reflexivity.
  - cbn [forallb] in Hwf, Hne.
    apply andb_true_iff in Hwf as [Hp Hps].
    apply andb_true_iff in Hne as [Hn Hns].
    rewrite has_key_cons in Hkey. apply orb_false_iff in Hkey as [Hk5 Hkey].
    unfold wire.nonempty_value in Hn. apply Z.ltb_lt in Hn.
    cbn [flat_map]. rewrite <- (app_assoc (wire.encParam p)).
    rewrite (svcParams_step fuel pre _ p Hp), Hk5.
    replace (len (wire.value p) =? 0) with false
      by (symmetry; apply Z.eqb_neq; lia).
    destruct fuel as [|fuel]; [cbn [List.length] in Hfuel; lia|].
    rewrite app_assoc, <- len_app. apply IH; auto.
    cbn [List.length] in Hfuel. lia.
Qed.

Lemma length_flat_map_encParam (ps : list wire.SvcParam) :
  (List.length ps <= List.length (flat_map wire.encParam ps))%nat.
Proof.
  induction ps as [|p ps IH]; [apply Nat.le_refl|].
  cbn [flat_map List.length]. rewrite length_app.
  unfold wire.encParam at 1. rewrite !length_app.
  change (List.length (wire.put16 (wire.key p))) with 2%nat. lia.
Qed.

Lemma EncodeToString_nonempty (v : list byte) :
  0 < len v -> ech.nonempty (base64.EncodeToString v) = true.
Proof.
  destruct v as [|a [|b [|c v]]]; [intros H; inversion H | | |]; reflexivity.
Qed.

(** The data of an HTTPS record: priority, TargetName, parameters. *)
Lemma parseHTTPSRecord_shape (prio : Z) (tgt : list wire.label)
    (params : list byte) :
  forallb wire.wf_label tgt = true ->
  let data := wire.put16 prio ++ (wire.encLabels tgt ++ [x00]) ++ params in
  ech.parseHTTPSRecord data =
  ech.svcParams (List.length data) data (len data - len params).
Proof.
  intros Hwf data.
  pose proof (len_nonneg (wire.encLabels tgt)). pose proof (len_nonneg params).
  assert (Hlen : len data = 2 + (len (wire.encLabels tgt) + 1) + len params)
    by (unfold data; autorewrite with lens; lia).
  unfold ech.parseHTTPSRecord. rewrite Hlen.
  replace (_ <? 2) with false by (symmetry; apply Z.ltb_ge; lia).
  replace (2 >=? _) with false
    by (symmetry; rewrite Z.geb_leb; apply Z.leb_gt; lia).
  destruct tgt as [|l ls].
  - rewrite (idx_at data (wire.put16 prio) x00 params) by reflexivity.
    change (u8 x00) with 0. cbn [Z.eqb]. f_equal.
    change (len (wire.encLabels [])) with 0. lia.
  - pose proof Hwf as Hwf'. cbn [forallb] in Hwf'.
    apply andb_true_iff in Hwf' as [Hl _]. apply wf_label_spec in Hl.
    rewrite (idx_at data (wire.put16 prio) (byte_of_Z (len l))
               (l ++ wire.encLabels ls ++ x00 :: params))
      by (try (unfold data; rewrite encLabels_cons; list_eq); reflexivity).
    rewrite u8_byte_of_Z by lia.
    replace (len l =? 0) with false by (symmetry; apply Z.eqb_neq; lia).
    replace data
      with (wire.put16 prio ++ wire.encLabels (l :: ls) ++ x00 :: params)
      by (unfold data; list_eq).
    change 2 with (len (wire.put16 prio)) at 1.
    rewrite skipTarget_encLabels; [| exact Hwf |].
    + cbn [option_map]. f_equal. autorewrite with lens. lia.
    + rewrite !length_app. pose proof (length_encLabels (l :: ls)). lia.
Qed.

Lemma len_encName_pos (nm : wire.Name) : 0 < len (wire.encName nm).
Proof.
  destruct nm as [ls | t | ls t]; cbn [wire.encName];
    unfold wire.encPointer; autorewrite with lens;
    try pose proof (len_nonneg (wire.encLabels ls)); lia.
Qed.

(** The parameters of an HTTPS record without key 5 give the empty
    string. *)
Lemma parseHTTPSRecord_none (prio : Z) (tgt : list wire.label)
    (ps : list wire.SvcParam) :
  forallb wire.wf_label tgt = true ->
  forallb wire.wf_param ps = true ->
  wire.has_key 5 ps = false ->
  ech.parseHTTPSRecord (wire.encRData (wire.HTTPS prio tgt ps))
  = Ret EmptyString.
Proof.
  intros Htgt Hps Hkey. cbn [wire.encRData].
  rewrite parseHTTPSRecord_shape by exact Htgt.
  set (head := wire.put16 prio ++ wire.encLabels tgt ++ [x00]).
  replace (wire.put16 prio ++ (wire.encLabels tgt ++ [x00])
             ++ flat_map wire.encParam ps)
    with (head ++ flat_map wire.encParam ps) by (unfold head; list_eq).
  replace (len (head ++ flat_map wire.encParam ps)
           - len (flat_map wire.encParam ps)) with (len head)
    by (autorewrite with lens; lia).
  apply svcParams_none; auto.
  rewrite length_app. pose proof (length_flat_map_encParam ps). lia.
Qed.

(** The first parameter with key 5 of an HTTPS record is returned in
    base64 when neither it nor a parameter before it is empty. *)
Lemma parseHTTPSRecord_found (prio : Z) (tgt : list wire.label)
    (before after : list wire.SvcParam) (v : list byte) :
  forallb wire.wf_label tgt = true ->
  forallb wire.wf_param before = true ->
  wire.has_key 5 before = false ->
  forallb wire.nonempty_value before = true ->
  0 < len v < 65536 ->
  ech.parseHTTPSRecord
    (wire.encRData
       (wire.HTTPS prio tgt
          (before ++ {| wire.key := 5; wire.value := v |} :: after)))
  = Ret (base64.EncodeToString v).
Proof.
  intros Htgt Hwf Hkey Hne Hv. cbn [wire.encRData].
  rewrite parseHTTPSRecord_shape by exact Htgt.
  set (head := wire.put16 prio ++ wire.encLabels tgt ++ [x00]).
  rewrite flat_map_app. cbn [flat_map].
  set (p5 := wire.encParam {| wire.key := 5; wire.value := v |}).
  set (rest := flat_map wire.encParam after).
  replace (wire.put16 prio ++ (wire.encLabels tgt ++ [x00])
             ++ flat_map wire.encParam before ++ p5 ++ rest)
    with (head ++ flat_map wire.encParam before ++ p5 ++ rest)
    by (unfold head; list_eq).
  replace (len (head ++ flat_map wire.encParam before ++ p5 ++ rest)
           - len (flat_map wire.encParam before ++ p5 ++ rest)) with (len head)
    by (autorewrite with lens; lia).
  apply svcParams_found; auto.
  rewrite !length_app. pose proof (length_flat_map_encParam before). lia.
Qed.

Lemma wf_answer_spec (a : wire.Answer) :
  wire.wf_answer a = true ->
  wire.wf_name (wire.name a) = true
  /\ 0 <= wire.class a < 65536
  /\ 0 <= wire.typeOf (wire.rdata a) < 65536
  /\ len (wire.encRData (wire.rdata a)) < 65536
  /\ wire.wf_rdata (wire.rdata a) = true.
Proof.
  unfold wire.wf_answer. rewrite !andb_true_iff, is_u16_spec.
  intros ((((Hn & Hc) & _) & _) & Hr). repeat split; try tauto; try lia.
  - destruct (wire.rdata a); cbn [wire.typeOf]; [lia|].
    unfold wire.wf_rdata in Hr. rewrite !andb_true_iff, is_u16_spec in Hr. lia.
  - destruct (wire.rdata a); cbn [wire.typeOf]; [lia|].
    unfold wire.wf_rdata in Hr. rewrite !andb_true_iff, is_u16_spec in Hr. lia.
  - unfold wire.wf_rdata in Hr. rewrite andb_true_iff, Z.ltb_lt in Hr. tauto.
Qed.

(** Past a name the resolver skips by design the offset is at the type. *)
Lemma skip_plain_name (nm : wire.Name) (pre post : list byte) :
  wire.wf_name nm = true -> wire.plain nm = true ->
  let buf := pre ++ wire.encName nm ++ post in
  exists b, idx buf (len pre) = Ret b
    /\ (if Z.land b 192 =? 192 then Ret (len pre + 2)
        else o <- ech.skipLabels (List.length buf) buf (len pre) ;; Ret (o + 1))
       = Ret (len pre + len (wire.encName nm)).
Proof.
  intros Hwf Hplain buf.
  destruct nm as [ls | t | ls t]; [| | discriminate]; cbn [wire.encName] in *.
  - (* labels *)
    assert (Hskip : ech.skipLabels (List.length buf) buf (len pre)
                    = Ret (len pre + len (wire.encLabels ls))).
    { unfold buf. rewrite <- app_assoc. apply skipLabels_name. exact Hwf. }
    destruct ls as [|l ls].
    + exists 0. split.
      * apply (idx_at buf pre x00 post); reflexivity.
      * cbn [Z.land Z.eqb]. rewrite Hskip. f_equal. autorewrite with lens.
        change (len (wire.encLabels [])) with 0. lia.
    + cbn [forallb] in Hwf. apply andb_true_iff in Hwf as [Hl _].
      apply wf_label_spec in Hl.
      exists (len l). split.
      * rewrite (idx_at buf pre (byte_of_Z (len l))
                   (l ++ wire.encLabels ls ++ [x00] ++ post))
          by (try (unfold buf; rewrite encLabels_cons; list_eq); reflexivity).
        rewrite u8_byte_of_Z by lia. reflexivity.
      * rewrite land_192 by lia.
        replace (len l <? 64) with true by (symmetry; apply Z.ltb_lt; lia).
        cbn [Z.eqb]. rewrite Hskip. f_equal. autorewrite with lens. lia.
  - (* pointer *)
    apply andb_true_iff in Hwf as [H0 H1].
    apply Z.leb_le in H0. apply Z.ltb_lt in H1.
    assert (Hq : 0 <= t / 256 < 64)
      by (split; [apply Z.div_pos; lia | apply Z.div_lt_upper_bound; lia]).
    exists (192 + t / 256). split.
    + rewrite (idx_at buf pre (byte_of_Z (192 + t / 256))
                 (byte_of_Z (t mod 256) :: post)) by reflexivity.
      rewrite u8_byte_of_Z by lia. reflexivity.
    + rewrite land_192 by lia.
      replace (192 + t / 256 <? 64) with false by (symmetry; apply Z.ltb_ge; lia).
      replace (192 + t / 256 <? 128) with false by (symmetry; apply Z.ltb_ge; lia).
      replace (192 + t / 256 <? 192) with false by (symmetry; apply Z.ltb_ge; lia).
      reflexivity.
Qed.

(** One turn of the answer loop on an encoded answer. *)
Lemma answers_step (n : nat) (pre post : list byte) (a : wire.Answer) :
  wire.wf_answer a = true -> wire.plain (wire.name a) = true ->
  let buf := pre ++ wire.encAnswer a ++ post in
  ech.answers (S n) buf (len pre) =
  if wire.typeOf (wire.rdata a) =? 65 then
    ech <- ech.parseHTTPSRecord (wire.encRData (wire.rdata a)) ;;
    if ech.nonempty ech then Ret (ech, None)
    else ech.answers n buf (len pre + len (wire.encAnswer a))
  else ech.answers n buf (len pre + len (wire.encAnswer a)).
Proof.
  intros Hwf Hplain buf.
  destruct (wf_answer_spec a Hwf) as (Hname & Hclass & Hty & Hrd & _).
  set (nm := wire.encName (wire.name a)).
  set (rd := wire.encRData (wire.rdata a)) in *.
  set (fixed := wire.put16 (wire.typeOf (wire.rdata a))
                  ++ wire.put16 (wire.class a) ++ wire.put32 (wire.ttl a)).
  assert (Hbuf : buf = pre ++ nm ++ fixed ++ wire.put16 (len rd) ++ rd ++ post)
    by (unfold buf, wire.encAnswer, fixed, nm, rd; list_eq).
  assert (Hfixed : len fixed = 8) by reflexivity.
  pose proof (len_encName_pos (wire.name a)) as Hnm. fold nm in Hnm.
  pose proof (len_nonneg pre). pose proof (len_nonneg post).
  pose proof (len_nonneg rd).
  assert (Hlen : len buf = len pre + len nm + 10 + len rd + len post)
    by (rewrite Hbuf; autorewrite with lens; lia).
  assert (Hlena : len (wire.encAnswer a) = len nm + 10 + len rd)
    by (unfold wire.encAnswer; fold nm rd; autorewrite with lens; lia).
  cbn [ech.answers].
  replace (len pre >=? len buf) with false
    by (symmetry; rewrite Z.geb_leb; apply Z.leb_gt; lia).
  destruct (skip_plain_name (wire.name a) pre
              (fixed ++ wire.put16 (len rd) ++ rd ++ post) Hname Hplain)
    as (b & Hb & Hskip).
  fold nm in Hb, Hskip. rewrite <- Hbuf in Hb, Hskip.
  rewrite Hb, Hskip.
  set (o := len pre + len nm).
  replace (o + 10 >? len buf) with false
    by (symmetry; rewrite Z.gtb_ltb; apply Z.ltb_ge; lia).
  rewrite (slice_at buf (pre ++ nm) (wire.put16 (wire.typeOf (wire.rdata a)))
             (wire.put16 (wire.class a) ++ wire.put32 (wire.ttl a)
                ++ wire.put16 (len rd) ++ rd ++ post))
    by (try (rewrite Hbuf; unfold fixed; list_eq);
        unfold o; autorewrite with lens; lia).
  rewrite Uint16_put16 by lia. cbv zeta.
  rewrite (slice_at buf ((pre ++ nm) ++ fixed) (wire.put16 (len rd)) (rd ++ post))
    by (try (rewrite Hbuf; list_eq); unfold o; autorewrite with lens; lia).
  rewrite Uint16_put16 by lia.
  replace (o + 8 + 2 + len rd >? len buf) with false
    by (symmetry; rewrite Z.gtb_ltb; apply Z.ltb_ge; lia).
  rewrite (slice_at buf (((pre ++ nm) ++ fixed) ++ wire.put16 (len rd)) rd post)
    by (try (rewrite Hbuf; list_eq); unfold o; autorewrite with lens; lia).
  replace (o + 8 + 2 + len rd) with (len pre + len (wire.encAnswer a))
    by (unfold o; lia).
  reflexivity.
Qed.

Lemma parseHTTPSRecord_quiet (a : wire.Answer) :
  wire.wf_answer a = true -> wire.carries_ech a = false ->
  wire.typeOf (wire.rdata a) = 65 ->
  ech.parseHTTPSRecord (wire.encRData (wire.rdata a)) = Ret EmptyString.
Proof.
  intros Hwf Hech Hty.
  destruct (wf_answer_spec a Hwf) as (_ & _ & _ & _ & Hrd).
  unfold wire.carries_ech in Hech.
  destruct (wire.rdata a) as [prio tgt ps | t raw].
  - unfold wire.wf_rdata in Hrd. rewrite !andb_true_iff in Hrd.
    apply parseHTTPSRecord_none; tauto.
  - unfold wire.wf_rdata in Hrd. rewrite !andb_true_iff, negb_true_iff in Hrd.
    cbn [wire.typeOf] in Hty. subst t. now destruct Hrd as ((_ & Hne) & _).
Qed.

(** Answers with plain names and no key 5 are stepped over one by one. *)
Lemma answers_skip (xs : list wire.Answer) :
  forall (n : nat) (pre post : list byte),
    forallb wire.wf_answer xs = true ->
    forallb (fun a => wire.plain (wire.name a)) xs = true ->
    forallb (fun a => negb (wire.carries_ech a)) xs = true ->
    let buf := pre ++ flat_map wire.encAnswer xs ++ post in
    ech.answers (List.length xs + n) buf (len pre)
    = ech.answers n buf (len pre + len (flat_map wire.encAnswer xs)).
Proof.
  induction xs as [|a xs IH]; intros n pre post Hwf Hplain Hquiet buf.
  - cbn [List.length flat_map Nat.add]. rewrite len_nil, Z.add_0_r. reflexivity.
  - cbn [forallb] in Hwf, Hplain, Hquiet.
    apply andb_true_iff in Hwf as [Ha Hxs].
    apply andb_true_iff in Hplain as [Hpa Hpxs].
    apply andb_true_iff in Hquiet as [Hqa Hqxs].
    apply negb_true_iff in Hqa.
    assert (Hbuf : buf = pre ++ wire.encAnswer a
                           ++ (flat_map wire.encAnswer xs ++ post))
      by (unfold buf; cbn [flat_map]; list_eq).
    cbn [List.length Nat.add flat_map].
    rewrite Hbuf, (answers_step _ pre _ a Ha Hpa), <- Hbuf.
    assert (Hnext : ech.answers (List.length xs + n) buf
                      (len pre + len (wire.encAnswer a))
                    = ech.answers n buf
                        (len pre + len (wire.encAnswer a ++ flat_map wire.encAnswer xs))).
    { replace buf with ((pre ++ wire.encAnswer a)
                          ++ flat_map wire.encAnswer xs ++ post)
        by (rewrite Hbuf; list_eq).
      rewrite <- len_app, IH by assumption.
      f_equal. autorewrite with lens. lia. }
    destruct (wire.typeOf (wire.rdata a) =? 65) eqn:Ety; [|exact Hnext].
    apply Z.eqb_eq in Ety.
    rewrite (parseHTTPSRecord_quiet a Ha Hqa Ety). exact Hnext.
Qed.

Lemma len_encHeader (m : wire.Response) : len (wire.encHeader m) = 12.
Proof. reflexivity. Qed.

Lemma len_encQuestion (m : wire.Response) :
  len (wire.encQuestion m) = len (wire.encLabels (wire.qname m)) + 5.
Proof. unfold wire.encQuestion. autorewrite with lens. lia. Qed.

Lemma wf_spec (m : wire.Response) :
  wire.wf m = true ->
  forallb wire.wf_label (wire.qname m) = true
  /\ forallb wire.wf_answer (wire.answers m) = true
  /\ len (wire.answers m) < 65536.
Proof.
  unfold wire.wf. rewrite !andb_true_iff, Z.ltb_lt. tauto.
Qed.

(** On an encoded response the resolver reaches the answer section with
    [ANCOUNT] turns to go. *)
Lemma parseDNSResponse_encode (m : wire.Response) :
  wire.wf m = true ->
  ech.parseDNSResponse (wire.encode m) =
  if len (wire.answers m) =? 0 then Ret (EmptyString, Some ech.errNoAnswer)
  else ech.answers (List.length (wire.answers m)) (wire.encode m)
         (len (wire.encHeader m ++ wire.encQuestion m)).
Proof.
  intros Hwf. destruct (wf_spec m Hwf) as (Hq & _ & Hn).
  pose proof (len_nonneg (wire.answers m)).
  set (buf := wire.encode m).
  set (body := flat_map wire.encAnswer (wire.answers m) ++ wire.trailer m).
  pose proof (len_nonneg body).
  pose proof (len_nonneg (wire.encLabels (wire.qname m))).
  assert (Hlen : len buf = 12 + (len (wire.encLabels (wire.qname m)) + 5) + len body).
  { unfold buf, wire.encode. fold body.
    rewrite !len_app, len_encHeader, len_encQuestion. lia. }
  unfold ech.parseDNSResponse. fold buf.
  replace (len buf <? 12) with false by (symmetry; apply Z.ltb_ge; lia).
  rewrite (slice_at buf
             (wire.put16 (wire.id m) ++ wire.put16 (wire.flags m) ++ wire.put16 1)
             (wire.put16 (len (wire.answers m)))
             (wire.put16 (wire.nscount m) ++ wire.put16 (wire.arcount m)
                ++ wire.encQuestion m ++ body))
    by (try (unfold buf, wire.encode, wire.encHeader, body; list_eq); reflexivity).
  rewrite Uint16_put16 by lia.
  destruct (len (wire.answers m) =? 0); [reflexivity|].
  assert (Hbuf : buf = wire.encHeader m ++ wire.encLabels (wire.qname m)
                         ++ x00 :: (wire.put16 (wire.qtype m)
                                      ++ wire.put16 (wire.qclass m) ++ body))
    by (unfold buf, wire.encode, wire.encQuestion, body; list_eq).
  change 12 with (len (wire.encHeader m)) at 1.
  rewrite Hbuf at 1 2.
  rewrite (skipLabels_name (wire.qname m) (wire.encHeader m) _ Hq).
  replace (Z.to_nat (len (wire.answers m)))
    with (List.length (wire.answers m)) by (unfold len; lia).
  f_equal. rewrite len_app, len_encQuestion. lia.
Qed.

(** C1 (amended).  For a well-formed response whose first answer carrying
    SvcParam key 5 is an HTTPS record reached through names in pointer form
    or uncompressed, where no parameter before key 5 in that record, nor
    key 5 itself, has an empty value, [parseDNSResponse] returns the value
    of key 5 in standard base64 with a nil error. *)
Theorem resolver_returns_first_ech :
  forall (m : wire.Response) (before after : list wire.Answer)
         (a : wire.Answer) (prio : Z) (tgt : list wire.label)
         (pre post : list wire.SvcParam) (v : list byte),
    wire.wf m = true ->
    wire.answers m = before ++ a :: after ->
    forallb (fun x => wire.plain (wire.name x)) (before ++ [a]) = true ->
    forallb (fun x => negb (wire.carries_ech x)) before = true ->
    wire.rdata a
    = wire.HTTPS prio tgt (pre ++ {| wire.key := 5; wire.value := v |} :: post) ->
    wire.has_key 5 pre = false ->
    forallb wire.nonempty_value pre = true ->
    0 < len v ->
    ech.parseDNSResponse (wire.encode m)
    = Ret (base64.EncodeToString v, None).
Proof.
  intros m before after a prio tgt pre post v Hwf Hans Hplain Hquiet Hrd
         Hkey Hne Hv.
  destruct (wf_spec m Hwf) as (_ & Hall & _).
  rewrite Hans, forallb_app in Hall. cbn [forallb] in Hall.
  rewrite !andb_true_iff in Hall. destruct Hall as (Hwfb & Hwfa & _).
  rewrite forallb_app in Hplain. cbn [forallb] in Hplain.
  rewrite !andb_true_iff in Hplain. destruct Hplain as (Hpb & Hpa & _).
  rewrite parseDNSResponse_encode by exact Hwf.
  replace (len (wire.answers m) =? 0) with false
    by (symmetry; apply Z.eqb_neq; rewrite Hans; autorewrite with lens;
        pose proof (len_nonneg before); pose proof (len_nonneg after); lia).
  set (head := wire.encHeader m ++ wire.encQuestion m).
  set (tail := flat_map wire.encAnswer after ++ wire.trailer m).
  assert (Hbuf : wire.encode m
                 = head ++ flat_map wire.encAnswer before
                        ++ (wire.encAnswer a ++ tail)).
  { unfold wire.encode, head, tail. rewrite Hans, flat_map_app.
    cbn [flat_map]. list_eq. }
  rewrite Hans, length_app. cbn [List.length].
  rewrite Hbuf, (answers_skip before _ head _ Hwfb Hpb Hquiet).
  rewrite <- len_app.
  replace (head ++ flat_map wire.encAnswer before ++ wire.encAnswer a ++ tail)
    with ((head ++ flat_map wire.encAnswer before) ++ wire.encAnswer a ++ tail)
    by list_eq.
  rewrite (answers_step _ _ _ a Hwfa Hpa).
  destruct (wf_answer_spec a Hwfa) as (_ & _ & _ & Hlen & Hwfr).
  rewrite Hrd in *. cbn [wire.typeOf Z.eqb Pos.eqb].
  unfold wire.wf_rdata in Hwfr. rewrite !andb_true_iff in Hwfr.
  destruct Hwfr as (((_ & Htgt) & Hps) & _).
  rewrite forallb_app in Hps. cbn [forallb] in Hps.
  rewrite !andb_true_iff in Hps. destruct Hps as (Hpre & Hp5 & _).
  apply wf_param_spec in Hp5. cbn [wire.value] in Hp5.
  rewrite parseHTTPSRecord_found by (auto; lia).
  rewrite EncodeToString_nonempty by exact Hv. reflexivity.
Qed.

Lemma resolver_returns_first_ech_witness :
  ech.parseDNSResponse (wire.encode sample.with_ech)
  = Ret (base64.EncodeToString sample.ech_config, None).
Proof.
  apply (resolver_returns_first_ech sample.with_ech [sample.cname] []
           (sample.https [sample.alpn; sample.ech_param]) 1 []
           [sample.alpn] [] sample.ech_config); reflexivity.
Defined.

(** A record [alpn, no-default-alpn, ech]: the empty value of key 2 ends the
    parameter loop, and the ECH configuration behind it is not found. *)
Lemma empty_param_hides_ech :
  wire.wf sample.with_no_default_alpn = true
  /\ wire.answers sample.with_no_default_alpn
     = [sample.https [sample.alpn; sample.no_default_alpn; sample.ech_param]]
  /\ wire.key sample.ech_param = 5
  /\ ech.parseDNSResponse (wire.encode sample.with_no_default_alpn)
     = Ret (EmptyString, None)
  /\ ech.parseDNSResponse (wire.encode sample.with_no_default_alpn)
     <> Ret (base64.EncodeToString (wire.value sample.ech_param), None).
Proof.
  repeat split; try reflexivity.
  vm_compute. discriminate.
Qed.

(** ** The resolver and its caller *)

Import rt.

(** What [Prepare] makes of a DoH exchange that delivers a body. *)
Lemma Prepare_on_body (env : Env) (w : World) (body : list byte)
    (echBase64 : string) (err : error) :
  doh env (trace w) = Response 200 (inr body) ->
  ech.parseDNSResponse body = Ret (echBase64, err) ->
  exists w1,
    manager w1 = manager w
    /\ ech.Prepare env w =
       match err with
       | Some e => Ret (Some ("DNS查询失败: " ++ e)%string, w1)
       | None =>
           if String.eqb echBase64 "" then Ret (Some "未找到ECH参数"%string, w1)
           else match base64.DecodeString echBase64 with
                | None => Ret (Some "ECH解码失败: illegal base64 data"%string, w1)
                | Some raw =>
                    Ret (None,
                         {| manager := {| echList := raw;
                                          echDomain := echDomain (manager w);
                                          dnsServer := dnsServer (manager w) |};
                            trace := trace w1 |})
                end
       end.
Proof.
  intros Hdoh Hparse.
  eexists {| manager := manager w; trace := trace w ++ [_] |}.
  split; [reflexivity|].
  unfold ech.Prepare, ech.queryHTTPSRecord, ech.queryDoH, bind, getManager,
    history, emit, lift, ret, setEchList.
  rewrite Hdoh. cbn [Z.eqb Pos.eqb negb]. rewrite Hparse.
  destruct err as [e|]; [reflexivity|].
  destruct (String.eqb echBase64 ""); [reflexivity|].
  destruct (base64.DecodeString echBase64); reflexivity.
Qed.

(** C3 (amended).  For a well-formed response whose answers have names in
    pointer form or uncompressed and none of which carries SvcParam key 5,
    the resolver does not crash and returns the empty string: with the
    error "no answer records" when ANCOUNT is 0, which [Prepare] reports as
    a failed DNS query, and with a nil error otherwise, which [Prepare]
    reports as ECH not found; the store is left as it was. *)
Theorem resolver_not_found :
  forall m : wire.Response,
    wire.wf m = true ->
    forallb (fun a => wire.plain (wire.name a)) (wire.answers m) = true ->
    forallb (fun a => negb (wire.carries_ech a)) (wire.answers m) = true ->
    ech.parseDNSResponse (wire.encode m)
    = Ret (EmptyString,
           if len (wire.answers m) =? 0 then Some ech.errNoAnswer else None)
    /\ forall (env : Env) (w : World),
         doh env (trace w) = Response 200 (inr (wire.encode m)) ->
         exists w',
           ech.Prepare env w
           = Ret (Some (if len (wire.answers m) =? 0
                        then "DNS查询失败: 无应答记录"%string
                        else "未找到ECH参数"%string), w')
           /\ manager w' = manager w.
Proof.
  intros m Hwf Hplain Hquiet.
  assert (Hparse : ech.parseDNSResponse (wire.encode m)
                   = Ret (EmptyString,
                          if len (wire.answers m) =? 0
                          then Some ech.errNoAnswer else None)).
  { rewrite parseDNSResponse_encode by exact Hwf.
    destruct (len (wire.answers m) =? 0); [reflexivity|].
    destruct (wf_spec m Hwf) as (_ & Hall & _).
    replace (wire.encode m)
      with ((wire.encHeader m ++ wire.encQuestion m)
              ++ flat_map wire.encAnswer (wire.answers m) ++ wire.trailer m)
      by (unfold wire.encode; list_eq).
    replace (List.length (wire.answers m))
      with (List.length (wire.answers m) + 0)%nat by lia.
    rewrite (answers_skip (wire.answers m) 0 _ _ Hall Hplain Hquiet).
    reflexivity. }
  split; [exact Hparse|].
  intros env w Hdoh.
  destruct (Prepare_on_body env w _ _ _ Hdoh Hparse) as (w1 & Hm & ->).
  exists w1. split; [|exact Hm].
  destruct (len (wire.answers m) =? 0); reflexivity.
Qed.

(** The label walk takes the first octet of a pointer that follows labels
    for a label length: a response without any HTTPS answer then yields
    what its TXT record spells out. *)
Lemma label_then_pointer_name_is_misread :
  wire.wf sample.smuggled = true
  /\ forallb (fun a => negb (wire.carries_ech a)) (wire.answers sample.smuggled)
     = true
  /\ forallb (fun a => wire.plain (wire.name a)) (wire.answers sample.smuggled)
     = false
  /\ ech.parseDNSResponse (wire.encode sample.smuggled)
     = Ret (base64.EncodeToString (sample.bytes "xyz"), None).
Proof. repeat split; vm_compute; reflexivity. Qed.

Lemma resolver_not_found_witness :
  ech.parseDNSResponse (wire.encode sample.no_https) = Ret (EmptyString, None)
  /\ exists w',
       ech.Prepare (sample.serving sample.no_https) sample.fresh
       = Ret (Some "未找到ECH参数"%string, w')
       /\ manager w' = manager sample.fresh.
Proof.
  destruct (resolver_not_found sample.no_https eq_refl eq_refl eq_refl)
    as [Hparse Hprepare].
  split; [exact Hparse|].
  exact (Hprepare (sample.serving sample.no_https) sample.fresh eq_refl).
Defined.

(** With ANCOUNT = 0 the resolver returns an error, not an empty result
    with a nil error, and [Prepare] reports a failed DNS query, not a
    missing ECH parameter. *)
Lemma no_answers_is_a_query_failure :
  wire.wf sample.no_answers = true
  /\ wire.answers sample.no_answers = []
  /\ ech.parseDNSResponse (wire.encode sample.no_answers)
     = Ret (EmptyString, Some "无应答记录"%string)
  /\ ech.parseDNSResponse (wire.encode sample.no_answers)
     <> Ret (EmptyString, None)
  /\ (exists w',
         ech.Prepare (sample.serving sample.no_answers) sample.fresh
         = Ret (Some "DNS查询失败: 无应答记录"%string, w'))
  /\ (forall w',
         ech.Prepare (sample.serving sample.no_answers) sample.fresh
         <> Ret (Some "未找到ECH参数"%string, w')).
Proof.
  repeat split; try reflexivity.
  - vm_compute. discriminate.
  - eexists. vm_compute. reflexivity.
  - intros w'. vm_compute. discriminate.
Qed.

(** ** [parseAddress] *)

Section ParseAddress.

Import worker.
Local Open Scope string_scope.



Lemma split_nonempty (s : string) : split isSeparator s <> [].
Proof.
  destruct s as [|a s]; cbn [split]; [discriminate|].
  destruct (isSeparator a); [discriminate|].
  destruct (split isSeparator s); discriminate.
Qed.



End ParseAddress.


(** ** The ECH store *)

Import ech.

Lemma svcParams_encoded (fuel : nat) :
  forall (data : list byte) (offset : Z) (s : string),
    ech.svcParams fuel data offset = Ret s -> encoded_value s.
Proof.
  induction fuel as [|fuel IH]; intros data offset s; rewrite svcParams_eq;
    (destruct (negb (offset + 4 <=? len data));
     [intros [= <-]; now left|]);
    (destruct (offset + 4 >? len data); [intros [= <-]; now left|]);
    (destruct (slice data offset (offset + 2)) as [k| |]; try discriminate);
    (destruct (Uint16 k) as [key| |]; try discriminate);
    (destruct (slice data (offset + 2) (offset + 4)) as [l| |];
     try discriminate);
    (destruct (Uint16 l) as [n| |]; try discriminate);
    cbv zeta;
    (destruct (n =? 0) eqn:En; cbn [orb]; [intros [= <-]; now left|]);
    (destruct (offset + 4 + n >? len data) eqn:Eg; [intros [= <-]; now left|]);
    (destruct (slice data (offset + 4) (offset + 4 + n)) as [v| |] eqn:Ev;
     try discriminate);
    (destruct (key =? 5);
     [intros [= <-]; right; exists v; split; [|reflexivity] |]);
    try discriminate; try apply IH.
  all: unfold slice in Ev;
    destruct ((0 <=? offset + 4) && (offset + 4 <=? offset + 4 + n)
              && (offset + 4 + n <=? len data)) eqn:Eb; [|discriminate];
    rewrite !andb_true_iff, !Z.leb_le in Eb;
    injection Ev as <-; apply Z.eqb_neq in En;
    unfold len in *; rewrite length_firstn, length_skipn; lia.
Qed.

Lemma parseHTTPSRecord_encoded (data : list byte) (s : string) :
  ech.parseHTTPSRecord data = Ret s -> encoded_value s.
Proof.
  unfold ech.parseHTTPSRecord.
  destruct (len data <? 2); [intros [= <-]; now left|].
  destruct (2 >=? len data); [intros [= <-]; now left|].
  destruct (idx data 2) as [b| |]; try discriminate.
  destruct (b =? 0).
  - apply svcParams_encoded.
  - destruct (ech.skipTarget (List.length data) data 2) as [[o|]| |];
      cbn [option_map]; try discriminate.
    + apply svcParams_encoded.
    + intros [= <-]; now left.
Qed.

Lemma answers_encoded (n : nat) :
  forall (response : list byte) (offset : Z) (s : string) (e : ech.error),
    ech.answers n response offset = Ret (s, e) ->
    e = None /\ encoded_value s.
Proof.
  induction n as [|n IH]; intros response offset s e; cbn [ech.answers].
  - intros [= <- <-]. split; [reflexivity | now left].
  - destruct (offset >=? len response);
      [intros [= <- <-]; split; [reflexivity | now left]|].
    destruct (idx response offset) as [b| |]; try discriminate.
    destruct (if Z.land b 192 =? 192 then Ret (offset + 2)
              else o <- ech.skipLabels (List.length response) response offset ;;
                   Ret (o + 1)) as [o| |]; try discriminate.
    destruct (o + 10 >? len response);
      [intros [= <- <-]; split; [reflexivity | now left]|].
    destruct (slice response o (o + 2)) as [t| |]; try discriminate.
    destruct (Uint16 t) as [rrType| |]; try discriminate.
    cbv zeta.
    destruct (slice response (o + 8) (o + 8 + 2)) as [d| |]; try discriminate.
    destruct (Uint16 d) as [dataLen| |]; try discriminate.
    destruct (o + 8 + 2 + dataLen >? len response);
      [intros [= <- <-]; split; [reflexivity | now left]|].
    destruct (slice response (o + 8 + 2) (o + 8 + 2 + dataLen)) as [data| |];
      try discriminate.
    destruct (rrType =? ech.TypeHTTPS); [|apply IH].
    destruct (ech.parseHTTPSRecord data) as [r| |] eqn:Er; try discriminate.
    destruct (ech.nonempty r); [|apply IH].
    intros [= <- <-]. split; [reflexivity|].
    exact (parseHTTPSRecord_encoded data r Er).
Qed.

Lemma parseDNSResponse_encoded (response : list byte) (s : string)
    (e : ech.error) :
  ech.parseDNSResponse response = Ret (s, e) ->
  s = EmptyString \/ (e = None /\ encoded_value s).
Proof.
  unfold ech.parseDNSResponse.
  destruct (len response <? 12); [intros [= <- <-]; now left|].
  destruct (slice response 6 8) as [h| |]; try discriminate.
  destruct (Uint16 h) as [ancount| |]; try discriminate.
  destruct (ancount =? 0); [intros [= <- <-]; now left|].
  destruct (ech.skipLabels (List.length response) response 12) as [o| |];
    try discriminate.
  intros H. right. exact (answers_encoded _ _ _ _ _ H).
Qed.

Lemma enc_not_newline (n : Z) : base64.is_newline (base64.enc n) = false.
Proof.
  unfold base64.enc.
  assert (H : forallb (fun c => negb (base64.is_newline c)) base64.encodeStd
              = true) by reflexivity.
  rewrite forallb_forall in H.
  destruct (nth_in_or_default (Z.to_nat n) base64.encodeStd "A"%char)
    as [Hin | ->]; [|reflexivity].
  apply negb_true_iff, H, Hin.
Qed.

Lemma decode_quanta_nonempty (l : list ascii) (raw : list byte) :
  l <> [] -> base64.decode_quanta l = Some raw -> raw <> [].
Proof.
  destruct l as [|c0 [|c1 [|c2 [|c3 rest]]]]; try discriminate; [congruence|].
  intros _. cbn [base64.decode_quanta].
  destruct (base64.dec c0); [|discriminate].
  destruct (base64.dec c1); [|discriminate].
  destruct (base64.dec c2), (base64.dec c3);
    repeat match goal with
           | |- context [if ?b then _ else _] => destruct b
           | |- context [match base64.decode_quanta ?r with _ => _ end] =>
               destruct (base64.decode_quanta r)
           end; intros [= <-]; discriminate.
Qed.

(** Decoding the base64 text of a value that is not empty never gives an
    empty blob. *)
Lemma DecodeString_nonempty (v raw : list byte) :
  0 < len v ->
  base64.DecodeString (base64.EncodeToString v) = Some raw -> 0 < len raw.
Proof.
  intros Hv Hdec.
  assert (Hne : raw <> []).
  { unfold base64.DecodeString in Hdec.
    refine (decode_quanta_nonempty _ raw _ Hdec).
    destruct v as [|a [|b [|c v]]]; [inversion Hv | | |];
      cbn [base64.EncodeToString list_ascii_of_string filter];
      rewrite enc_not_newline; discriminate. }
  destruct raw; [congruence|]. rewrite len_cons. pose proof (len_nonneg raw). lia.
Qed.

(** Every call of [Prepare] returns, and either fails and leaves the
    manager as it was, or stores a blob that is not empty. *)
Lemma Prepare_cases (env : Env) (w : World) :
  (exists e w', ech.Prepare env w = Ret (Some e, w')
                /\ manager w' = manager w)
  \/ (exists w', ech.Prepare env w = Ret (None, w')
                 /\ 0 < len (echList (manager w'))).
Proof.
  unfold ech.Prepare, ech.queryHTTPSRecord, ech.queryDoH, bind, getManager,
    history, emit, lift, ret, setEchList.
  destruct (doh env (trace w)) as [e | e | e | code [e | body]];
    try (left; eexists; eexists; split; reflexivity);
    (destruct (negb (code =? 200));
     [left; eexists; eexists; split; reflexivity|]).
  - left; eexists; eexists; split; reflexivity.
  - destruct (parseDNSResponse_total body) as ([s e] & Hp). rewrite Hp.
    destruct e as [e|]; [left; eexists; eexists; split; reflexivity|].
    destruct (String.eqb s "") eqn:Es;
      [left; eexists; eexists; split; reflexivity|].
    destruct (base64.DecodeString s) as [raw|] eqn:Ed;
      [|left; eexists; eexists; split; reflexivity].
    right. eexists. split; [reflexivity|]. cbn [manager echList].
    apply parseDNSResponse_encoded in Hp as [-> | (_ & [-> | (v & Hv & ->)])];
      try discriminate.
    exact (DecodeString_nonempty v raw Hv Ed).
Qed.

Lemma GetECHList_spec (w : World) :
  ech.GetECHList w
  = Ret (if len (echList (manager w)) =? 0
         then ([], Some "ECH配置未加载"%string)
         else (echList (manager w), None), w).
Proof.
  unfold ech.GetECHList, bind, getManager, ret.
  destruct (len (echList (manager w)) =? 0); reflexivity.
Qed.

(** C10.  A [Prepare] or [Refresh] that fails leaves the stored blob as it
    was, so that [GetECHList] returns what it returned before; and after
    any run of calls from a new manager, [GetECHList] returns the blob the
    last successful [Prepare] stored, or the error "ECH configuration not
    loaded" when none succeeded. *)
Theorem failed_Prepare_keeps_store :
  (forall (env : Env) (w w' : World) (e : string),
      ech.Prepare env w = Ret (Some e, w') \/ ech.Refresh env w = Ret (Some e, w') ->
      manager w' = manager w
      /\ exists r, ech.GetECHList w = Ret (r, w)
                   /\ ech.GetECHList w' = Ret (r, w'))
  /\ (forall (env : Env) (echDomain dnsServer : string) (trace0 : list Event)
             (last : option (list byte)) (w : World),
         ech.prepared env
           {| manager := ech.NewECHManager echDomain dnsServer;
              trace := trace0 |} last w ->
         ech.GetECHList w
         = Ret (match last with
                | Some raw => (raw, None)
                | None => ([], Some "ECH配置未加载"%string)
                end, w)).
Proof.
  assert (Hfail : forall env w w' e,
             ech.Prepare env w = Ret (Some e, w') -> manager w' = manager w).
  { intros env w w' e H.
    destruct (Prepare_cases env w) as [(e1 & w1 & H1 & Hm) | (w1 & H1 & _)];
      rewrite H1 in H; [|discriminate].
    injection H as _ <-. exact Hm. }
  split.
  - intros env w w' e H.
    assert (Hm : manager w' = manager w).
    { destruct H as [H | H]; [exact (Hfail _ _ _ _ H)|].
      unfold ech.Refresh, bind, emit, ret in H.
      destruct (ech.Prepare env w) as [[r w1]| |] eqn:Hp; try discriminate.
      injection H as -> <-. cbn [manager]. exact (Hfail _ _ _ _ Hp). }
    split; [exact Hm|].
    eexists. rewrite !GetECHList_spec, Hm. split; reflexivity.
  - intros env echDomain dnsServer trace0 last w Hrun.
    rewrite GetECHList_spec.
    enough (Hinv : match last with
                   | Some raw => echList (manager w) = raw /\ 0 < len raw
                   | None => echList (manager w) = []
                   end).
    { destruct last as [raw|].
      - destruct Hinv as [-> Hpos].
        replace (len raw =? 0) with false by (symmetry; apply Z.eqb_neq; lia).
        reflexivity.
      - rewrite Hinv. reflexivity. }
    induction Hrun as [| last w w' _ IH Hm | last w w' e _ IH Hp
                       | last w w' _ _ Hp].
    + reflexivity.
    + rewrite Hm. exact IH.
    + rewrite (Hfail _ _ _ _ Hp). exact IH.
    + split; [reflexivity|].
      destruct (Prepare_cases env w) as [(e1 & w1 & H1 & _) | (w1 & H1 & Hpos)];
        rewrite H1 in Hp; [discriminate|].
      injection Hp as <-. exact Hpos.
Qed.

Lemma failed_Prepare_keeps_store_witness :
  (exists w',
      ech.Prepare (sample.serving sample.no_https) sample.loaded
      = Ret (Some "未找到ECH参数"%string, w')
      /\ ech.GetECHList w' = Ret ((sample.ech_config, None), w'))
  /\ (exists w',
         ech.Prepare (sample.serving sample.with_ech) sample.fresh
         = Ret (None, w')
         /\ ech.GetECHList w' = Ret ((sample.ech_config, None), w')).
Proof.
  destruct failed_Prepare_keeps_store as [Hkeep Hlast].
  split.
  - destruct (ech.Prepare (sample.serving sample.no_https) sample.loaded)
      as [[r w']| |] eqn:Hp.
    + pose proof Hp as Hv. vm_compute in Hv. injection Hv as Hr Hw.
      subst r. exists w'. split; [reflexivity|].
      destruct (Hkeep _ _ _ _ (or_introl Hp)) as (_ & r & Hr & Hr').
      vm_compute in Hr. injection Hr as <-. exact Hr'.
    + vm_compute in Hp. discriminate Hp.
    + vm_compute in Hp. discriminate Hp.
  - destruct (ech.Prepare (sample.serving sample.with_ech) sample.fresh)
      as [[r w']| |] eqn:Hp.
    + pose proof Hp as Hv. vm_compute in Hv. injection Hv as Hr Hw.
      subst r. exists w'. split; [reflexivity|].
      pose proof (Hlast _ _ _ _ _ w'
                    (ech.prepared_stored _ sample.fresh None sample.fresh w'
                       (ech.prepared_start _ sample.fresh) Hp)) as H.
      subst w'. exact H.
    + vm_compute in Hp. discriminate Hp.
    + vm_compute in Hp. discriminate Hp.
Defined.

(** ** The dial loop *)

Lemma calls_app (a b : list Event) : calls (a ++ b) = calls a ++ calls b.
Proof. apply flat_map_app. Qed.

Lemma builds_app (a b : list Event) : builds (a ++ b) = builds a ++ builds b.
Proof. unfold builds. rewrite calls_app. apply flat_map_app. Qed.

Lemma refreshes_app (a b : list Event) :
  refreshes (a ++ b) = (refreshes a + refreshes b)%nat.
Proof. unfold refreshes. rewrite calls_app, filter_app. apply length_app. Qed.

Lemma BuildTLSConfig_spec (env : Env) (host : string) (w : World) :
  exists r,
    ech.BuildTLSConfig env host w
    = Ret (r, {| manager := manager w;
                 trace := trace w ++ [BuildTLSConfigCall host (errOf r)] |}).
Proof.
  unfold ech.BuildTLSConfig, ech.BuildTLSConfig_body, bind.
  rewrite GetECHList_spec.
  destruct (len (echList (manager w)) =? 0).
  - eexists (inr _). reflexivity.
  - unfold history, ret, emit. cbn [trace manager].
    destruct (SystemCertPool env (trace w)).
    + eexists (inr _). reflexivity.
    + eexists (inl _). reflexivity.
Qed.

Lemma Refresh_spec (env : Env) (w : World) :
  exists r w',
    ech.Refresh env w = Ret (r, w')
    /\ exists ev, trace w' = trace w ++ ev /\ calls ev = [CRefresh].
Proof.
  unfold ech.Refresh, bind.
  assert (H : exists r w1 ev, ech.Prepare env w = Ret (r, w1)
                              /\ trace w1 = trace w ++ ev /\ calls ev = []).
  { unfold ech.Prepare, ech.queryHTTPSRecord, ech.queryDoH, bind, getManager,
      history, emit, lift, ret, setEchList.
    destruct (doh env (trace w)) as [e | e | e | code [e | body]];
      try (do 2 eexists; exists []; rewrite app_nil_r;
           repeat split; reflexivity);
      try (do 2 eexists; eexists [_]; repeat split; reflexivity);
      (destruct (negb (code =? 200));
       [do 2 eexists; eexists [_]; repeat split; reflexivity|]).
    - do 2 eexists; eexists [_]; repeat split; reflexivity.
    - destruct (parseDNSResponse_total body) as ([s e] & ->).
      destruct e as [e|];
        [do 2 eexists; eexists [_]; repeat split; reflexivity|].
      destruct (String.eqb s "");
        [do 2 eexists; eexists [_]; repeat split; reflexivity|].
      destruct (base64.DecodeString s);
        do 2 eexists; eexists [_]; repeat split; reflexivity. }
  destruct H as (r & w1 & ev & -> & Htr & Hev).
  unfold emit, ret. do 2 eexists. split; [reflexivity|].
  exists (ev ++ [RefreshCall r]). cbn [trace]. rewrite Htr, <- app_assoc.
  split; [reflexivity|]. rewrite calls_app, Hev. reflexivity.
Qed.

Section DialLoop.

Variable env : Env.
Variable c : websocket.WebSocketClient.

Lemma attempts_S (n : nat) (attempt maxRetries : Z) (host wsURL : string)
    (lastErr : error) :
  websocket.attempts env c (S n) attempt maxRetries host wsURL lastErr =
  (r <~ ech.BuildTLSConfig env host ;;
   match r with
   | inr tlsErr =>
       if (attempt <? maxRetries) && websocket.isECHConfigError tlsErr
       then
         emit (Log ("[ECH] TLS配置失败，尝试刷新ECH配置 (" ++ fmt.d attempt
                      ++ "/" ++ fmt.d maxRetries ++ "): " ++ tlsErr)%string) ;;;
         _ <~ ech.Refresh env ;;
         emit (Sleep 500) ;;;
         websocket.attempts env c n (attempt + 1) maxRetries host wsURL
           (Some tlsErr)
       else ret (None, Some ("构建TLS配置失败: " ++ tlsErr)%string)
   | inl tlsCfg =>
       let dialer := websocket.newDialer c tlsCfg in
       h <~ history ;;
       let dialErr := dial env h in
       emit (Dial dialer wsURL dialErr) ;;;
       match dialErr with
       | Some e =>
           if (attempt <? maxRetries)
              && (strings.Contains e "ECH"%string
                  || strings.Contains e "encrypted"%string)
           then
             emit (Log ("[ECH] 连接失败，尝试刷新ECH配置 (" ++ fmt.d attempt
                          ++ "/" ++ fmt.d maxRetries ++ "): " ++ e)%string) ;;;
             _ <~ ech.Refresh env ;;
             emit (Sleep 1000) ;;;
             websocket.attempts env c n (attempt + 1) maxRetries host wsURL
               (Some e)
           else ret (None, Some ("WebSocket连接失败: " ++ e)%string)
       | None =>
           emit (Log ("[WebSocket] 连接成功建立 (尝试" ++ fmt.d attempt
                        ++ "次)")%string) ;;;
           ret (Some {| websocket.dialedURL := wsURL;
                        websocket.dialedWith := dialer |}, None)
       end
   end).
Proof. reflexivity. Qed.

(** One turn of the retry loop: what it adds to the calls, and how it
    ends. *)
Lemma attempts_step (n : nat) (attempt maxRetries : Z) (host wsURL : string)
    (lastErr : error) (w : World) :
  let run := websocket.attempts env c (S n) attempt maxRetries host wsURL
               lastErr w in
  let next e w' := websocket.attempts env c n (attempt + 1) maxRetries host
                     wsURL (Some e) w' in
  exists w' : World,
    (exists e,
        calls (trace w') = calls (trace w) ++ [CBuild (Some e)]
        /\ (attempt <? maxRetries) && websocket.isECHConfigError e = false
        /\ run = Ret ((None, Some ("构建TLS配置失败: " ++ e)%string), w'))
    \/ (exists e,
           calls (trace w')
           = calls (trace w) ++ [CBuild (Some e); CRefresh; CSleep 500]
           /\ attempt < maxRetries /\ websocket.isECHConfigError e = true
           /\ run = next e w')
    \/ (exists e,
           calls (trace w') = calls (trace w) ++ [CBuild None; CDial (Some e)]
           /\ run = Ret ((None, Some ("WebSocket连接失败: " ++ e)%string), w'))
    \/ (exists e,
           calls (trace w')
           = calls (trace w)
               ++ [CBuild None; CDial (Some e); CRefresh; CSleep 1000]
           /\ attempt < maxRetries
           /\ run = next e w')
    \/ (exists conn,
           calls (trace w') = calls (trace w) ++ [CBuild None; CDial None]
           /\ run = Ret ((Some conn, None), w')).
Proof.
  intros run next.
  assert (Hrun : run = websocket.attempts env c (S n) attempt maxRetries host
                         wsURL lastErr w) by reflexivity.
  clearbody run. rewrite attempts_S in Hrun.
  unfold bind at 1 in Hrun.
  destruct (BuildTLSConfig_spec env host w) as (r & Hb). rewrite Hb in Hrun.
  clear Hb.
  set (w1 := {| manager := manager w;
                trace := trace w ++ [BuildTLSConfigCall host (errOf r)] |})
    in Hrun.
  assert (Hw1 : calls (trace w1) = calls (trace w) ++ [CBuild (errOf r)])
    by (unfold w1; cbn [trace]; rewrite calls_app; reflexivity).
  clearbody w1.
  destruct r as [tlsCfg | tlsErr]; cbn [errOf] in *.
  - (* the configuration is built: dial *)
    cbv zeta in Hrun.
    unfold bind at 1, history at 1 in Hrun.
    unfold bind at 1, emit at 1 in Hrun.
    set (d := websocket.newDialer c tlsCfg) in Hrun.
    set (w2 := {| manager := manager w1;
                  trace := trace w1 ++ [Dial d wsURL (dial env (trace w1))] |})
      in Hrun.
    assert (Hw2 : calls (trace w2)
                  = calls (trace w) ++ [CBuild None; CDial (dial env (trace w1))])
      by (unfold w2; cbn [trace]; rewrite calls_app, Hw1, <- app_assoc;
          reflexivity).
    clearbody w2.
    destruct (dial env (trace w1)) as [e|].
    + destruct ((attempt <? maxRetries)
                && (strings.Contains e "ECH"%string
                    || strings.Contains e "encrypted"%string))
        eqn:Hretry.
      * apply andb_true_iff in Hretry as [Hlt _]. apply Z.ltb_lt in Hlt.
        unfold bind at 1, emit at 1 in Hrun. unfold bind at 1 in Hrun.
        match type of Hrun with
        | context [ech.Refresh env ?w3] =>
            destruct (Refresh_spec env w3) as (r & w4 & Hr & ev & Htr & Hev)
        end.
        rewrite Hr in Hrun. unfold bind at 1, emit at 1 in Hrun.
        eexists. right. right. right. left. exists e.
        split; [|split; [exact Hlt | exact Hrun]].
        cbn [trace] in *. rewrite !calls_app, Htr, !calls_app, Hev, Hw2.
        cbn [calls flat_map callOf app]. rewrite <- !app_assoc. reflexivity.
      * exists w2. right. right. left. exists e. split; [exact Hw2 | exact Hrun].
    + unfold bind at 1, emit at 1, ret in Hrun.
      eexists. right. right. right. right. eexists.
      split; [|exact Hrun].
      cbn [trace]. rewrite calls_app, Hw2.
      cbn [calls flat_map callOf app]. rewrite app_nil_r. reflexivity.
  - (* the configuration is not built *)
    destruct ((attempt <? maxRetries) && websocket.isECHConfigError tlsErr)
      eqn:Hretry.
    + apply andb_true_iff in Hretry as [Hlt Hech]. apply Z.ltb_lt in Hlt.
      unfold bind at 1, emit at 1 in Hrun. unfold bind at 1 in Hrun.
      match type of Hrun with
      | context [ech.Refresh env ?w3] =>
          destruct (Refresh_spec env w3) as (r & w4 & Hr & ev & Htr & Hev)
      end.
      rewrite Hr in Hrun. unfold bind at 1, emit at 1 in Hrun.
      eexists. right. left. exists tlsErr.
      split; [|split; [exact Hlt | split; [exact Hech | exact Hrun]]].
      cbn [trace] in *. rewrite !calls_app, Htr, !calls_app, Hev, Hw1.
      cbn [calls flat_map callOf app]. rewrite <- !app_assoc. reflexivity.
    + exists w1. left. exists tlsErr.
      split; [exact Hw1 | split; [exact Hretry | exact Hrun]].
Qed.

(** The loop always returns, and only adds to the trace. *)
Lemma attempts_returns (n : nat) :
  forall (attempt maxRetries : Z) (host wsURL : string) (lastErr : error)
         (w : World),
  exists res w' new,
    websocket.attempts env c n attempt maxRetries host wsURL lastErr w
    = Ret (res, w')
    /\ calls (trace w') = calls (trace w) ++ new.
Proof.
  induction n as [|n IH]; intros attempt maxRetries host wsURL lastErr w.
  - do 2 eexists. exists []. rewrite app_nil_r. split; reflexivity.
  - destruct (attempts_step n attempt maxRetries host wsURL lastErr w)
      as (w1 & [(e & Hc & _ & ->) | [(e & Hc & _ & _ & ->)
               | [(e & Hc & ->) | [(e & Hc & _ & ->) | (conn & Hc & ->)]]]]);
      try (do 3 eexists; split; [reflexivity | exact Hc]);
      destruct (IH (attempt + 1) maxRetries host wsURL (Some e) w1)
        as (res & w' & new & -> & Hnew);
      do 3 eexists; (split; [reflexivity|]);
      rewrite Hnew, Hc, <- app_assoc; reflexivity.
Qed.

End DialLoop.

Lemma builds_calls (tr : list Event) (cs : list Call) :
  calls tr = cs ->
  builds tr = flat_map (fun c => match c with CBuild err => [err] | _ => [] end) cs.
Proof. intros <-. reflexivity. Qed.

Lemma refreshes_calls (tr : list Event) (cs : list Call) :
  calls tr = cs ->
  refreshes tr
  = List.length (filter (fun c => match c with CRefresh => true | _ => false end) cs).
Proof. intros <-. reflexivity. Qed.

(** C7 (amended).  With [maxRetries] = 3 the dial always returns; and when
    [BuildTLSConfig] failed on the first two attempts with a message
    recognized as ECH-related and succeeded on the third, [Refresh] was
    called exactly twice, each time right after the failure and followed by
    a sleep of 500 ms before the next attempt, the third attempt dialled,
    and [DialWithECH] succeeds exactly when that dial connects. *)
Theorem dial_after_two_refreshes :
  forall (env : Env) (c : websocket.WebSocketClient) (w0 : World),
    trace w0 = [] ->
    exists res w',
      websocket.DialWithECH env c 3 w0 = Ret (res, w')
      /\ forall e1 e2 : string,
           builds (trace w') = [Some e1; Some e2; None] ->
           websocket.isECHConfigError e1 = true ->
           websocket.isECHConfigError e2 = true ->
           refreshes (trace w') = 2%nat
           /\ exists d,
                calls (trace w')
                = [CBuild (Some e1); CRefresh; CSleep 500;
                   CBuild (Some e2); CRefresh; CSleep 500;
                   CBuild None; CDial d]
                /\ match d with
                   | None => exists conn, res = (Some conn, None)
                   | Some e =>
                       res = (None, Some ("WebSocket连接失败: " ++ e)%string)
                   end.
Proof.
  intros env c w0 Hw0. unfold websocket.DialWithECH.
  destruct (websocket.ParseServerAddr c) as [[[host port] path] | e].
  2:{ do 2 eexists. split; [reflexivity|]. intros e1 e2 Hb.
      rewrite Hw0 in Hb. discriminate Hb. }
  set (wsURL := ("wss://" ++ host ++ ":" ++ port ++ path)%string).
  change (Z.to_nat 3) with 3%nat.
  assert (Hc0 : calls (trace w0) = []) by (rewrite Hw0; reflexivity).
  (* first attempt *)
  destruct (attempts_step env c 2 1 3 host wsURL None w0)
    as (w1 & [(e & Hc & _ & ->) | [(e & Hc & _ & _ & ->)
             | [(e & Hc & ->) | [(e & Hc & _ & ->) | (conn & Hc & ->)]]]]);
    rewrite Hc0 in Hc; cbn [app] in Hc;
    try (do 2 eexists; split; [reflexivity|]; intros e1 e2 Hb;
         rewrite (builds_calls _ _ Hc) in Hb; discriminate Hb).
  2:{ destruct (attempts_returns env c 2 (1 + 1) 3 host wsURL (Some e) w1)
        as (res & w' & new & -> & Hnew).
      do 2 eexists; split; [reflexivity|]; intros e1 e2 Hb.
      rewrite Hc in Hnew. rewrite (builds_calls _ _ Hnew) in Hb.
      discriminate Hb. }
  (* second attempt *)
  rename e into e1', Hc into Hc1.
  destruct (attempts_step env c 1 (1 + 1) 3 host wsURL (Some e1') w1)
    as (w2 & [(e & Hc & _ & ->) | [(e & Hc & _ & _ & ->)
             | [(e & Hc & ->) | [(e & Hc & _ & ->) | (conn & Hc & ->)]]]]);
    rewrite Hc1 in Hc; cbn [app] in Hc;
    try (do 2 eexists; split; [reflexivity|]; intros e1 e2 Hb;
         rewrite (builds_calls _ _ Hc) in Hb; discriminate Hb).
  2:{ destruct (attempts_returns env c 1 (1 + 1 + 1) 3 host wsURL (Some e) w2)
        as (res & w' & new & -> & Hnew).
      do 2 eexists; split; [reflexivity|]; intros e1 e2 Hb.
      rewrite Hc in Hnew. rewrite (builds_calls _ _ Hnew) in Hb.
      discriminate Hb. }
  (* third attempt *)
  rename e into e2', Hc into Hc2.
  destruct (attempts_step env c 0 (1 + 1 + 1) 3 host wsURL (Some e2') w2)
    as (w3 & [(e & Hc & _ & ->) | [(e & Hc & Hlt & _ & ->)
             | [(e & Hc & ->) | [(e & Hc & Hlt & ->) | (conn & Hc & ->)]]]]);
    try (exfalso; lia);
    rewrite Hc2 in Hc; cbn [app] in Hc;
    (do 2 eexists; split; [reflexivity|]; intros e1 e2 Hb He1 He2;
     rewrite (builds_calls _ _ Hc) in Hb; cbn [flat_map app] in Hb;
     try discriminate Hb).
  - injection Hb as <- <-.
    split; [rewrite (refreshes_calls _ _ Hc); reflexivity|].
    exists (Some e). split; [exact Hc | reflexivity].
  - injection Hb as <- <-.
    split; [rewrite (refreshes_calls _ _ Hc); reflexivity|].
    exists None. split; [exact Hc | now exists conn].
Qed.

Lemma dial_after_two_refreshes_witness :
  exists conn w',
    websocket.DialWithECH (sample.recovering None) sample.client 3 sample.fresh
    = Ret ((Some conn, None), w')
    /\ refreshes (trace w') = 2%nat
    /\ calls (trace w')
       = [CBuild (Some "ECH配置未加载"%string); CRefresh; CSleep 500;
          CBuild (Some "ECH配置未加载"%string); CRefresh; CSleep 500;
          CBuild None; CDial None].
Proof.
  destruct (dial_after_two_refreshes (sample.recovering None) sample.client
              sample.fresh eq_refl) as (res & w' & Hrun & Hspec).
  pose proof Hrun as Hv. vm_compute in Hv. injection Hv as Hres Hw.
  destruct (Hspec "ECH配置未加载"%string "ECH配置未加载"%string)
    as (Hrefresh & d & Hcalls & Hd).
  - rewrite <- Hw. vm_compute. reflexivity.
  - reflexivity.
  - reflexivity.
  - assert (d = None) as ->.
    { rewrite <- Hw in Hcalls. vm_compute in Hcalls. now injection Hcalls. }
    destruct Hd as (conn & ->).
    exists conn, w'. repeat split; assumption.
Defined.

(** [BuildTLSConfig] fails twice with "ECH configuration not loaded",
    succeeds on the third attempt, and the dial that follows is refused:
    [DialWithECH] fails. *)
Lemma refused_dial_after_two_refreshes :
  exists w',
    websocket.DialWithECH
      (sample.recovering (Some "dial tcp: connection refused"%string))
      sample.client 3 sample.fresh
    = Ret ((None, Some "WebSocket连接失败: dial tcp: connection refused"%string),
           w')
    /\ builds (trace w')
       = [Some "ECH配置未加载"%string; Some "ECH配置未加载"%string; None]
    /\ websocket.isECHConfigError "ECH配置未加载" = true
    /\ refreshes (trace w') = 2%nat.
Proof.
  eexists. split; [vm_compute; reflexivity|].
  repeat split.
Qed.

Section Exhaustion.

Variable env : Env.
Variable c : websocket.WebSocketClient.

(** While attempts are left, the loop never ends in the error of its last
    line: a failure of the last attempt returns on the spot. *)
Lemma attempts_never_exhausted (n : nat) :
  forall (attempt maxRetries : Z) (host wsURL : string) (lastErr : error)
         (w w' : World) (res : option websocket.Conn * error),
    (1 <= n)%nat -> Z.of_nat n = maxRetries - attempt + 1 ->
    websocket.attempts env c n attempt maxRetries host wsURL lastErr w
    = Ret (res, w') ->
    forall l, snd res <> Some (websocket.errDialExhausted maxRetries l).
Proof.
  induction n as [|n IH];
    intros attempt maxRetries host wsURL lastErr w w' res Hn Hatt Hrun l;
    [lia|].
  destruct (attempts_step env c n attempt maxRetries host wsURL lastErr w)
    as (w1 & [(e & _ & _ & Hr) | [(e & _ & Hlt & _ & Hr)
             | [(e & _ & Hr) | [(e & _ & Hlt & Hr) | (conn & _ & Hr)]]]]);
    rewrite Hr in Hrun;
    try (injection Hrun as <- _; cbn [snd];
         unfold websocket.errDialExhausted; cbn [append]; congruence);
    (eapply IH; [| | exact Hrun]; lia).
Qed.

Lemma DialExhausted_needs_no_attempt (maxRetries : Z) (w w' : World)
    (res : option websocket.Conn * error) :
  1 <= maxRetries ->
  websocket.DialWithECH env c maxRetries w = Ret (res, w') ->
  forall l, snd res <> Some (websocket.errDialExhausted maxRetries l).
Proof.
  intros Hmax Hrun l. unfold websocket.DialWithECH in Hrun.
  destruct (websocket.ParseServerAddr c) as [[[host port] path] | e].
  - refine (attempts_never_exhausted _ _ _ _ _ _ _ _ _ _ _ Hrun l); lia.
  - injection Hrun as <- _. cbn [snd].
    unfold websocket.errDialExhausted. cbn [append]. congruence.
Qed.

End Exhaustion.

(** C8.  Three attempts used up without success: the store is empty and no
    DoH query gets through, or the edge rejects ECH on every dial.  The
    error returned wraps the last error as a failure of that attempt
    ("构建TLS配置失败" or "WebSocket连接失败"), not as the error of the
    last line of [DialWithECH], "已达最大重试次数". *)
Theorem last_failure_is_not_reported_as_exhausted :
  (exists w',
      websocket.DialWithECH sample.offline sample.client 3 sample.fresh
      = Ret ((None, Some "构建TLS配置失败: ECH配置未加载"%string), w')
      /\ builds (trace w')
         = [Some "ECH配置未加载"%string; Some "ECH配置未加载"%string;
            Some "ECH配置未加载"%string])
  /\ (exists w',
         websocket.DialWithECH sample.rejecting sample.client 3 sample.loaded
         = Ret ((None,
                 Some "WebSocket连接失败: tls: server rejected ECH"%string), w')
         /\ calls (trace w')
            = [CBuild None; CDial (Some "tls: server rejected ECH"%string);
               CRefresh; CSleep 1000;
               CBuild None; CDial (Some "tls: server rejected ECH"%string);
               CRefresh; CSleep 1000;
               CBuild None; CDial (Some "tls: server rejected ECH"%string)])
  /\ websocket.errDialExhausted 3 (Some "ECH配置未加载"%string)
     = "连接失败，已达最大重试次数(3): ECH配置未加载"%string
  /\ websocket.errDialExhausted 3 (Some "tls: server rejected ECH"%string)
     = "连接失败，已达最大重试次数(3): tls: server rejected ECH"%string.
Proof.
  split; [|split; [|split]].
  - eexists. split; [vm_compute; reflexivity | reflexivity].
  - eexists. split; [vm_compute; reflexivity | reflexivity].
  - reflexivity.
  - reflexivity.
Qed.

(** ** The relay session *)

Ltac fields :=
  cbn [worker.remoteSocket worker.remoteWriter worker.remoteReader
       worker.isClosed worker.isConnecting worker.connectionAttempts
       worker.readyState worker.pump worker.opened worker.effects
       worker.emit worker.setHandles worker.setIsClosed
       worker.setIsConnecting worker.setConnectionAttempts
       worker.setReadyState worker.setPump worker.setOpened] in *.

Section Session.

Import worker.

Lemma closeOps_app (a b : list Effect) :
  closeOps (a ++ b) = closeOps a ++ closeOps b.
Proof. apply filter_app. Qed.

(** The first teardown does the work. *)
Lemma cleanup_open (s : Session) :
  isClosed s = false ->
  let s' := cleanup s in
  effects s' = effects s ++ teardownOps s
  /\ isClosed s' = true /\ isConnecting s' = false
  /\ remoteSocket s' = None /\ remoteWriter s' = None /\ remoteReader s' = None
  /\ connectionAttempts s' = connectionAttempts s /\ pump s' = pump s
  /\ readyState s' <> 1.
Proof.
  intros Hopen. destruct s as [k w r cl cg a rs p o ef]. fields. subst cl.
  unfold cleanup, releaseHandles, safeCloseWebSocket, teardownOps. fields.
  destruct w, r, k; fields;
    destruct ((rs =? 1) || (rs =? 2)) eqn:Ers; fields;
    rewrite <- ?app_assoc, ?app_nil_r; cbn [app];
    repeat split; try reflexivity; try discriminate;
    apply orb_false_iff in Ers as [E1 _]; apply Z.eqb_neq in E1; exact E1.
Qed.

(** Every later one does nothing. *)
Lemma cleanup_closed (s : Session) : isClosed s = true -> cleanup s = s.
Proof. intros H. unfold cleanup. rewrite H. reflexivity. Qed.

Lemma teardownOps_closeOps (s : Session) :
  closeOps (teardownOps s) = teardownOps s.
Proof.
  unfold teardownOps.
  destruct (remoteWriter s), (remoteReader s), (remoteSocket s),
    ((readyState s =? 1) || (readyState s =? 2)); reflexivity.
Qed.

(** After teardown a trigger adds no close operation. *)
Lemma fire_closed (s : Session) (t : Trigger) :
  isClosed s = true ->
  isClosed (fire s t) = true
  /\ closeOps (effects (fire s t)) = closeOps (effects s)
  /\ remoteSocket (fire s t) = remoteSocket s
  /\ remoteWriter (fire s t) = remoteWriter s
  /\ remoteReader (fire s t) = remoteReader s.
Proof.
  intros Hc. destruct t; cbn [fire step].
  - unfold onMessage. rewrite Hc. auto.
  - rewrite cleanup_closed by exact Hc. auto.
  - rewrite cleanup_closed by exact Hc. auto.
  - rewrite cleanup_closed by (fields; exact Hc). fields.
    rewrite closeOps_app. cbn [closeOps filter isCloseOp].
    rewrite app_nil_r. auto.
  - unfold pumpFinish. fields. rewrite Hc. cbn [negb]. fields. auto.
Qed.

(** The first trigger tears the session down. *)
Lemma fire_open (s : Session) (t : Trigger) :
  isClosed s = false ->
  isClosed (fire s t) = true
  /\ closeOps (effects (fire s t)) = closeOps (effects s) ++ teardownOps s
  /\ remoteSocket (fire s t) = None
  /\ remoteWriter (fire s t) = None
  /\ remoteReader (fire s t) = None.
Proof.
  intros Ho.
  assert (Hkey : forall s0, isClosed s0 = false ->
             closeOps (effects s0) = closeOps (effects s) ->
             teardownOps s0 = teardownOps s ->
             isClosed (cleanup s0) = true
             /\ closeOps (effects (cleanup s0))
                = closeOps (effects s) ++ teardownOps s
             /\ remoteSocket (cleanup s0) = None
             /\ remoteWriter (cleanup s0) = None
             /\ remoteReader (cleanup s0) = None).
  { intros s0 H0 He Ht.
    destruct (cleanup_open s0 H0) as (Heff & Hcl & _ & Hk & Hw & Hr & _).
    rewrite Heff, closeOps_app, teardownOps_closeOps, He, Ht. auto. }
  destruct t; cbn [fire step].
  - unfold onMessage. rewrite Ho. cbn [handle startsWith String.prefix].
    change (String.eqb "CLOSE" "CLOSE") with true. cbv iota.
    apply Hkey; auto.
  - apply Hkey; auto.
  - apply Hkey; auto.
  - apply Hkey; fields; auto.
    rewrite closeOps_app. cbn [closeOps filter isCloseOp]. apply app_nil_r.
  - unfold pumpFinish. fields. rewrite Ho. cbn [negb].
    apply Hkey; fields; auto.
    rewrite closeOps_app. cbn [closeOps filter isCloseOp]. apply app_nil_r.
Qed.

(** C5.  Whatever the triggers and however many, [N >= 1] invocations of
    teardown on a session not yet torn down perform the close operations of
    one teardown, each once: the release of the writer and of the reader
    and the close of the outbound socket that the session holds, and the
    close of the WebSocket that is open or closing; the handles end up
    cleared. *)
Theorem teardown_exactly_once :
  forall (s : Session) (t : Trigger) (ts : list Trigger),
    isClosed s = false ->
    let s' := fold_left fire (t :: ts) s in
    closeOps (effects s') = closeOps (effects s) ++ teardownOps s
    /\ NoDup (teardownOps s)
    /\ isClosed s' = true
    /\ remoteSocket s' = None /\ remoteWriter s' = None
    /\ remoteReader s' = None.
Proof.
  intros s t ts Ho. cbn [fold_left].
  destruct (fire_open s t Ho) as (Hc & He & Hk & Hw & Hr).
  assert (Hnodup : NoDup (teardownOps s)).
  { unfold teardownOps.
    destruct (remoteWriter s), (remoteReader s), (remoteSocket s),
      ((readyState s =? 1) || (readyState s =? 2)); cbn [app];
      repeat (constructor; [cbn [In]; intuition discriminate|]);
      constructor. }
  revert Hc He Hk Hw Hr. generalize (fire s t) as s1.
  induction ts as [|t' ts IH]; intros s1 Hc He Hk Hw Hr; cbn [fold_left].
  - auto 10.
  - destruct (fire_closed s1 t' Hc) as (Hc' & He' & Hk' & Hw' & Hr').
    apply IH; congruence.
Qed.

(** C4 (amended).  While the session is connecting or connected,
    [connectToRemote] rejects a further Connect with the error "already
    connected or connecting" and leaves the session untouched; the
    [message] listener that called it then reports [ERROR:<message>] to the
    peer and tears the session down: the writer and the reader are
    released, the outbound socket and the WebSocket are closed and the
    handles are cleared. *)
Theorem second_connect_tears_down :
  forall (s : Session) (io : IO) (data : string),
    isConnecting s = true \/ remoteSocket s <> None ->
    (forall targetAddr firstFrameData proxyIP : string,
        connectToRemote targetAddr firstFrameData proxyIP (attemptOutcome io) s
        = Throw errAlreadyConnecting s)
    /\ (isClosed s = false ->
        startsWith data "CONNECT:" = true ->
        substringFrom (nth 0 (split (Ascii.eqb "|") data) ""%string) 8
        <> ""%string ->
        let s' := step s (Message (Text data) io) in
        s' = cleanup (emit (WsSend (Text ("ERROR:" ++ errAlreadyConnecting))) s)
        /\ effects s'
           = effects s
               ++ WsSend (Text ("ERROR:" ++ errAlreadyConnecting))
               :: teardownOps s
        /\ isClosed s' = true
        /\ remoteSocket s' = None /\ remoteWriter s' = None
        /\ remoteReader s' = None /\ readyState s' <> 1).
Proof.
  intros s io data Hbusy.
  assert (Hreject : forall targetAddr firstFrameData proxyIP,
             connectToRemote targetAddr firstFrameData proxyIP
               (attemptOutcome io) s = Throw errAlreadyConnecting s).
  { intros. unfold connectToRemote.
    destruct (isConnecting s); [reflexivity|].
    destruct (remoteSocket s); [reflexivity|].
    destruct Hbusy; [discriminate | congruence]. }
  split; [exact Hreject|].
  intros Hopen Hconnect Htarget s'.
  assert (Hs' : s' = cleanup (emit (WsSend (Text ("ERROR:" ++ errAlreadyConnecting))) s)).
  { unfold s'. cbn [step]. unfold onMessage. rewrite Hopen.
    cbn [handle]. rewrite Hconnect.
    destruct (String.eqb_spec
                (substringFrom (nth 0 (split (Ascii.eqb "|") data) ""%string) 8)
                ""%string) as [E|_]; [contradiction|].
    rewrite Hreject. reflexivity. }
  split; [exact Hs'|]. rewrite Hs'.
  destruct (cleanup_open (emit (WsSend (Text ("ERROR:" ++ errAlreadyConnecting))) s))
    as (Heff & Hcl & _ & Hk & Hw & Hr & _ & _ & Hrs); [exact Hopen|].
  rewrite Heff. cbn [effects emit]. rewrite <- app_assoc.
  repeat split; assumption.
Qed.

Lemma second_connect_tears_down_witness :
  effects (step sample.connected
             (Message (Text "CONNECT:other.example:443|hello|203.0.113.9")
                sample.io))
  = effects sample.connected
      ++ [WsSend (Text "ERROR:已有连接或正在连接中"); WriterReleaseLock 0;
          ReaderReleaseLock 0; SocketClose 0; WsClose 1000 "Server closed"].
Proof.
  assert (Hbusy : isConnecting sample.connected = true
                  \/ remoteSocket sample.connected <> None).
  { right. vm_compute. discriminate. }
  destruct (second_connect_tears_down sample.connected sample.io
              "CONNECT:other.example:443|hello|203.0.113.9" Hbusy) as [_ H].
  destruct H as (_ & Heff & _).
  - reflexivity.
  - vm_compute. reflexivity.
  - vm_compute. discriminate.
  - rewrite Heff. vm_compute. reflexivity.
Defined.

(** A second Connect on a connected session: the outbound socket, its
    writer and reader are gone and the WebSocket is closing. *)
Lemma second_connect_closes_first_connection :
  let s := sample.connected in
  let s' := step s (Message (Text "CONNECT:other.example:443") sample.io) in
  isClosed s = false
  /\ remoteSocket s = Some 0%nat /\ remoteSocket s' = None
  /\ remoteWriter s = Some 0%nat /\ remoteWriter s' = None
  /\ remoteReader s = Some 0%nat /\ remoteReader s' = None
  /\ readyState s = 1 /\ readyState s' = 2
  /\ effects s'
     = effects s
         ++ [WsSend (Text "ERROR:已有连接或正在连接中"); WriterReleaseLock 0;
             ReaderReleaseLock 0; SocketClose 0; WsClose 1000 "Server closed"].
Proof. repeat split. Qed.

Lemma teardown_exactly_once_witness :
  closeOps
    (effects
       (fold_left fire
          [PumpExhausted; PeerClose; CloseEvent; HandlerError "boom";
           ErrorEvent] sample.connected))
  = [WriterReleaseLock 0; ReaderReleaseLock 0; SocketClose 0;
     WsClose 1000 "Server closed"].
Proof.
  exact (proj1 (teardown_exactly_once sample.connected PumpExhausted
                  [PeerClose; CloseEvent; HandlerError "boom"; ErrorEvent]
                  eq_refl)).
Defined.

End Session.

(** ** The pump and its restarts *)

Section Pump.

Import worker.

Lemma timeouts_app (a b : list Effect) :
  timeouts (a ++ b) = timeouts a ++ timeouts b.
Proof.
  induction a as [|e a IH]; [reflexivity|].
  destruct e; cbn [app timeouts]; rewrite ?IH; reflexivity.
Qed.

Lemma restarts_app (a b : list Effect) :
  restarts (a ++ b) = (restarts a + restarts b)%nat.
Proof. unfold restarts. rewrite filter_app. apply length_app. Qed.

Lemma delays_succ (n : nat) :
  delays (S n) = delays n ++ [1000 * Z.of_nat (S n)].
Proof. unfold delays. rewrite seq_S, map_app. reflexivity. Qed.

(** The effects of teardown contain no timer and no restart. *)
Lemma teardownOps_quiet (s : Session) :
  timeouts (teardownOps s) = [] /\ restarts (teardownOps s) = 0%nat.
Proof.
  unfold teardownOps.
  destruct (remoteWriter s), (remoteReader s), (remoteSocket s),
    ((readyState s =? 1) || (readyState s =? 2)); split; reflexivity.
Qed.

(** A state that differs from one satisfying the invariant by quiet
    effects satisfies it too. *)
Lemma Inv_transfer (s s' : Session) :
  Inv s ->
  connectionAttempts s' = connectionAttempts s ->
  timeouts (effects s') = timeouts (effects s) ->
  restarts (effects s') = restarts (effects s) ->
  (pump s' = AwaitTimer -> pump s = AwaitTimer) ->
  (isClosed s' = false -> remoteSocket s' = None ->
   connectionAttempts s = 0 /\ pump s' = Idle) ->
  (isClosed s' = true -> remoteSocket s' = None) ->
  isConnecting s' = false ->
  Inv s'.
Proof.
  intros [Ha Ht Hr Htm Hi Hc Hg] Ea Et Er Hp Hidle Hclosed Hconn.
  constructor; rewrite ?Ea, ?Et, ?Er; auto.
Qed.

Lemma Inv_cleanup (s : Session) : Inv s -> Inv (cleanup s).
Proof.
  intros HI. destruct (isClosed s) eqn:Hc.
  - rewrite cleanup_closed by exact Hc. exact HI.
  - destruct (cleanup_open s Hc)
      as (Heff & Hcl & Hcg & Hk & Hw & Hr & Ha & Hp & _).
    destruct (teardownOps_quiet s) as [Ht Hrs].
    apply (Inv_transfer s); auto.
    + rewrite Heff, timeouts_app, Ht. apply app_nil_r.
    + rewrite Heff, restarts_app, Hrs. lia.
    + congruence.
    + congruence.
Qed.

Lemma Inv_emit (e : Effect) (s : Session) :
  Inv s -> timeouts [e] = [] -> isRestart e = false -> Inv (emit e s).
Proof.
  intros HI Ht Hr. apply (Inv_transfer s); fields; auto.
  - rewrite timeouts_app, Ht. apply app_nil_r.
  - rewrite restarts_app. unfold restarts at 2. cbn [filter]. rewrite Hr.
    cbn [List.length]. lia.
  - intros H0 H1. destruct (inv_idle s HI H0 H1). auto.
  - apply (inv_closed s HI).
  - apply (inv_connecting s HI).
Qed.

Lemma Inv_pumpFinish (s : Session) : Inv s -> Inv (pumpFinish s).
Proof.
  intros HI. unfold pumpFinish. fields.
  destruct (isClosed s) eqn:Hc; cbn [negb].
  - apply (Inv_transfer s); fields; auto; try discriminate.
    + congruence.
    + apply (inv_closed s HI).
    + apply (inv_connecting s HI).
  - apply Inv_cleanup.
    apply (Inv_transfer s); fields; auto; try discriminate.
    + rewrite timeouts_app. apply app_nil_r.
    + rewrite restarts_app. cbn. lia.
    + intros _ Hk. destruct (inv_idle s HI Hc Hk). auto.
    + congruence.
    + apply (inv_connecting s HI).
Qed.

(** Entering the read loop keeps the invariant when an open session has
    its outbound socket. *)
Lemma Inv_pumpLoop (s : Session) :
  Inv s -> (isClosed s = false -> remoteSocket s <> None) ->
  Inv (pumpLoop s).
Proof.
  intros HI Hsock. unfold pumpLoop.
  destruct (remoteReader s) as [r|]; [|apply Inv_pumpFinish; exact HI].
  destruct (isClosed s) eqn:Hc; cbn [negb];
    [apply Inv_pumpFinish; exact HI|].
  apply (Inv_transfer s); fields; auto; try discriminate.
  - rewrite timeouts_app. apply app_nil_r.
  - rewrite restarts_app. cbn. lia.
  - intros _ Hk. destruct (Hsock eq_refl Hk).
  - congruence.
  - apply (inv_connecting s HI).
Qed.

Lemma Inv_socket (s : Session) :
  Inv s -> pump s <> Idle -> isClosed s = false -> remoteSocket s <> None.
Proof.
  intros HI Hp Hc Hk. destruct (inv_idle s HI Hc Hk) as [_ Hidle].
  contradiction.
Qed.

Lemma Inv_onRead (r : ReadResult) (s : Session) : Inv s -> Inv (onRead r s).
Proof.
  intros HI. unfold onRead.
  destruct (pump s) eqn:Hp; try exact HI.
  assert (Hsock : isClosed s = false -> remoteSocket s <> None)
    by (apply Inv_socket; [exact HI | congruence]).
  destruct r as [value | |].
  - destruct (negb (readyState s =? 1)); [apply Inv_pumpFinish; exact HI|].
    apply Inv_pumpLoop.
    + destruct (len value >? 0); [|exact HI].
      apply Inv_emit; [exact HI | reflexivity | reflexivity].
    + destruct (len value >? 0); fields; exact Hsock.
  - apply Inv_pumpFinish; exact HI.
  - fields.
    destruct (isClosed s) eqn:Hc; cbn [negb andb];
      [apply Inv_pumpFinish, Inv_emit; [exact HI | reflexivity | reflexivity]|].
    destruct (connectionAttempts s <? 3) eqn:Hlt;
      [|apply Inv_pumpFinish, Inv_emit; [exact HI | reflexivity | reflexivity]].
    apply Z.ltb_lt in Hlt.
    destruct HI as [Ha Ht Hr Htm Hi Hcl Hg].
    constructor; fields.
    + lia.
    + rewrite !timeouts_app, Ht. cbn [timeouts]. rewrite app_nil_r.
      replace (Z.to_nat (connectionAttempts s + 1))
        with (S (Z.to_nat (connectionAttempts s))) by lia.
      rewrite delays_succ. do 2 f_equal. lia.
    + rewrite !restarts_app. cbn. lia.
    + intros _. rewrite !restarts_app. cbn. lia.
    + intros _ Hk. destruct (Hsock eq_refl Hk).
    + congruence.
    + exact Hg.
Qed.

(** The pump's own state does not matter to the loop it enters. *)
Lemma pumpLoop_from_idle (s : Session) :
  pumpLoop s = pumpLoop (setPump Idle s).
Proof.
  destruct s as [k w r cl cg a rs p o ef].
  unfold pumpLoop, pumpFinish. fields. reflexivity.
Qed.

Lemma Inv_onTimer (readable getReaderOk : bool) (s : Session) :
  Inv s -> Inv (onTimer readable getReaderOk s).
Proof.
  intros HI. unfold onTimer.
  destruct (pump s) eqn:Hp; try exact HI.
  destruct (remoteSocket s) as [k|] eqn:Hk; [|apply Inv_pumpFinish; exact HI].
  destruct readable; [|apply Inv_pumpFinish; exact HI].
  destruct getReaderOk;
    [|apply Inv_pumpFinish, Inv_emit; [exact HI | reflexivity | reflexivity]].
  rewrite pumpLoop_from_idle.
  apply Inv_pumpLoop; [|fields; rewrite Hk; discriminate].
  pose proof (inv_timer s HI Hp) as Hlt.
  destruct HI as [Ha Ht Hr Htm Hi Hcl Hg].
  constructor; fields; rewrite ?Hk.
  - exact Ha.
  - rewrite !timeouts_app. cbn [timeouts]. rewrite !app_nil_r. exact Ht.
  - rewrite !restarts_app. cbn. lia.
  - discriminate.
  - discriminate.
  - intros Hc. specialize (Hcl Hc). congruence.
  - exact Hg.
Qed.

(** Releasing the handles adds no timer and no restart. *)
Lemma releaseHandles_spec (s : Session) :
  let s' := releaseHandles s in
  remoteSocket s' = None /\ isClosed s' = isClosed s
  /\ isConnecting s' = isConnecting s
  /\ connectionAttempts s' = connectionAttempts s /\ pump s' = pump s
  /\ timeouts (effects s') = timeouts (effects s)
  /\ restarts (effects s') = restarts (effects s).
Proof.
  destruct s as [k w r cl cg a rs p o ef]. unfold releaseHandles. fields.
  destruct w, r, k; fields; rewrite ?timeouts_app, ?restarts_app;
    cbn [timeouts restarts filter isRestart List.length];
    rewrite ?app_nil_r, ?Nat.add_0_r; repeat split; reflexivity.
Qed.

(** One connect attempt on an open session: it ends connected with the
    pump reading, or throws; either way no timer and no restart. *)
Lemma attempt_spec (h : string) (p : Z) (f : string) (o : AttemptOutcome)
    (s : Session) :
  isClosed s = false ->
  match attempt h p f o s with
  | Normal s' =>
      remoteSocket s' <> None /\ pump s' = AwaitRead
      /\ isConnecting s' = false
  | Throw _ s' => pump s' = pump s
  end
  /\ let s' := match attempt h p f o s with Normal s' | Throw _ s' => s' end in
     isClosed s' = false
     /\ connectionAttempts s' = connectionAttempts s
     /\ timeouts (effects s') = timeouts (effects s)
     /\ restarts (effects s') = restarts (effects s).
Proof.
  intros Hc. destruct s as [k w r cl cg a rs pm op ef]. fields. subst cl.
  unfold attempt.
  destruct o as [|st m]; [|destruct st]; cbn [fails stage_eqb]; fields;
    destruct (String.eqb f ""); fields;
    unfold pumpLoop, pumpFinish; fields; cbn [negb]; fields;
    rewrite ?timeouts_app, ?restarts_app;
    cbn [timeouts restarts filter isRestart List.length];
    rewrite ?app_nil_r, ?Nat.add_0_r;
    repeat split; try reflexivity; discriminate.
Qed.

Lemma tryAttempts_cons (original : Address) (f : string)
    (io : nat -> AttemptOutcome) (i : nat) (a : option string)
    (rest : list (option string)) (s : Session) :
  tryAttempts original f io i (a :: rest) s =
  let '(attemptHost, attemptPort) :=
    match a with
    | None => (host original, port original)
    | Some fallback =>
        let parsed := parseAddress fallback in (host parsed, port parsed)
    end in
  match attempt attemptHost attemptPort f (io i) s with
  | Normal s => Normal s
  | Throw err s =>
      let s := releaseHandles s in
      if negb (isCFError err) || match rest with [] => true | _ => false end
      then Throw err s
      else tryAttempts original f io (S i) rest s
  end.
Proof. reflexivity. Qed.

(** The attempts of [connectToRemote], one after the other. *)
Lemma tryAttempts_spec (original : Address) (f : string)
    (io : nat -> AttemptOutcome) (rest : list (option string)) :
  forall (a : option string) (i : nat) (s : Session),
    isClosed s = false ->
    match tryAttempts original f io i (a :: rest) s with
    | Normal s' =>
        remoteSocket s' <> None /\ pump s' = AwaitRead
        /\ isConnecting s' = false
    | Throw _ s' => remoteSocket s' = None /\ pump s' = pump s
    end
    /\ let s' := match tryAttempts original f io i (a :: rest) s with
                 | Normal s' | Throw _ s' => s'
                 end in
       isClosed s' = false
       /\ connectionAttempts s' = connectionAttempts s
       /\ timeouts (effects s') = timeouts (effects s)
       /\ restarts (effects s') = restarts (effects s).
Proof.
  induction rest as [|b rest IH]; intros a i s Hc; rewrite tryAttempts_cons;
    (destruct (match a with
               | Some fallback =>
                   let parsed := parseAddress fallback in
                   (host parsed, port parsed)
               | None => (host original, port original)
               end) as [h p]);
    pose proof (attempt_spec h p f (io i) s Hc) as Hatt;
    destruct (attempt h p f (io i) s) as [s1 | err s1];
    cbv zeta in Hatt; destruct Hatt as (H1 & Hc1 & Ha1 & Ht1 & Hr1);
    try (split; [exact H1 | repeat split; assumption]);
    destruct (releaseHandles_spec s1) as (Hk2 & Hc2 & _ & Ha2 & Hp2 & Ht2 & Hr2).
  - rewrite orb_true_r. cbv zeta.
    repeat split; congruence.
  - destruct (negb (isCFError err)); cbn [orb]; cbv zeta.
    + repeat split; congruence.
    + assert (Hc3 : isClosed (releaseHandles s1) = false) by congruence.
      destruct (IH b (S i) (releaseHandles s1) Hc3) as (H3 & Hc4 & Ha4 & Ht4 & Hr4).
      cbv zeta in *.
      destruct (tryAttempts original f io (S i) (b :: rest) (releaseHandles s1))
        as [s4 | err4 s4].
      * split; [exact H3 | repeat split; congruence].
      * destruct H3 as [Hk3 Hp3]. repeat split; congruence.
Qed.

Lemma Inv_onMessage (data : Payload) (io : IO) (s : Session) :
  Inv s -> Inv (onMessage data io s).
Proof.
  intros HI. unfold onMessage.
  destruct (isClosed s) eqn:Hc; [exact HI|].
  assert (Hthrow : forall m s0, Inv s0 ->
             Inv (cleanup (emit (WsSend (Text ("ERROR:" ++ m))) s0)))
    by (intros; apply Inv_cleanup, Inv_emit; auto).
  assert (Hwrite : forall w chunk,
             Inv match write w chunk io s with
                 | Normal s0 => s0
                 | Throw message s0 =>
                     cleanup (emit (WsSend (Text ("ERROR:" ++ message))) s0)
                 end).
  { intros w chunk. unfold write.
    destruct (writeRejects io);
      [apply Hthrow|]; apply Inv_emit; auto. }
  destruct data as [data | b]; cbn [handle].
  - destruct (startsWith data "CONNECT:").
    + destruct (String.eqb _ ""); [apply Hthrow; exact HI|].
      unfold connectToRemote. rewrite (inv_connecting s HI). cbn [orb].
      destruct (remoteSocket s) as [k|] eqn:Hk; [apply Hthrow; exact HI|].
      destruct (inv_idle s HI Hc Hk) as [Ha0 Hp0].
      set (s0 := setConnectionAttempts 0 (setIsConnecting true s)).
      set (atts := if String.eqb _ "" then [] else [Some _]).
      assert (Hc0 : isClosed s0 = false) by (unfold s0; fields; exact Hc).
      destruct (tryAttempts_spec (parseAddress
                  (substringFrom (nth 0 (split (Ascii.eqb "|") data) ""%string) 8))
                  (nth 1 (split (Ascii.eqb "|") data) ""%string)
                  (attemptOutcome io) atts None 0%nat s0 Hc0)
        as (H1 & Hc1 & Ha1 & Ht1 & Hr1).
      cbv zeta in *.
      destruct (tryAttempts _ _ _ 0%nat (None :: atts) s0) as [s1 | err s1].
      * destruct H1 as (Hk1 & Hp1 & Hg1).
        apply (Inv_transfer s); unfold s0 in *; fields; auto; try congruence.
      * destruct H1 as (Hk1 & Hp1).
        apply Hthrow.
        apply (Inv_transfer s); unfold s0 in *; fields; auto; try congruence.
        intros _ _. split; congruence.
    + destruct (startsWith data "DATA:").
      * destruct (remoteWriter s); [apply Hwrite | exact HI].
      * destruct (String.eqb data "CLOSE"); [apply Inv_cleanup|]; exact HI.
  - destruct (remoteWriter s); [apply Hwrite | exact HI].
Qed.

(** Every event keeps the invariant, and so does every run of events from
    a new session. *)
Lemma Inv_step (s : Session) (e : Event) : Inv s -> Inv (step s e).
Proof.
  intros HI. destruct e; cbn [step].
  - apply Inv_onMessage; exact HI.
  - apply Inv_cleanup; exact HI.
  - apply Inv_cleanup; exact HI.
  - apply (Inv_transfer s); fields; auto.
    + intros H0 H1. destruct (inv_idle s HI H0 H1). auto.
    + apply (inv_closed s HI).
    + apply (inv_connecting s HI).
  - apply Inv_onRead; exact HI.
  - apply Inv_onTimer; exact HI.
Qed.

Lemma Inv_run (evs : list Event) :
  forall s, Inv s -> Inv (run evs s).
Proof.
  induction evs as [|e evs IH]; intros s HI; [exact HI|].
  apply IH, Inv_step, HI.
Qed.

Lemma Inv_newSession : Inv newSession.
Proof. constructor; cbn; try reflexivity; try lia; try discriminate; auto. Qed.

(** Once torn down, a session stays so and its pump neither sets a timer
    nor restarts, whatever happens. *)
Lemma step_closed (s : Session) (e : Event) :
  isClosed s = true -> remoteSocket s = None ->
  let s' := step s e in
  isClosed s' = true /\ remoteSocket s' = None
  /\ restarts (effects s') = restarts (effects s)
  /\ timeouts (effects s') = timeouts (effects s).
Proof.
  destruct s as [k w r cl cg a rs p o ef]. fields. intros -> ->.
  destruct e as [data io | | | rs' | [value | |] | readable ok];
    cbn [step]; unfold onMessage, cleanup, onRead, onTimer, pumpLoop,
      pumpFinish; fields; try (repeat split; reflexivity);
    destruct p; fields; try (repeat split; reflexivity).
  - destruct (negb (rs =? 1)); fields; [repeat split; reflexivity|].
    destruct (len value >? 0); fields; destruct r; fields; cbn [negb]; fields;
      rewrite ?timeouts_app, ?restarts_app;
      cbn [timeouts restarts filter isRestart List.length];
      rewrite ?app_nil_r, ?Nat.add_0_r; repeat split; reflexivity.
  - cbn [negb andb]. fields. rewrite ?timeouts_app, ?restarts_app;
      cbn [timeouts restarts filter isRestart List.length];
      rewrite ?app_nil_r, ?Nat.add_0_r; repeat split; reflexivity.
Qed.

Lemma run_closed (evs : list Event) :
  forall s, isClosed s = true -> remoteSocket s = None ->
    restarts (effects (run evs s)) = restarts (effects s)
    /\ timeouts (effects (run evs s)) = timeouts (effects s).
Proof.
  induction evs as [|e evs IH]; intros s Hc Hk; [split; reflexivity|].
  destruct (step_closed s e Hc Hk) as (Hc' & Hk' & Hr & Ht).
  cbn [run fold_left]. destruct (IH (step s e) Hc' Hk') as [Hr' Ht'].
  unfold run in *. split; congruence.
Qed.

Lemma length_delays (n : nat) : List.length (delays n) = n.
Proof. unfold delays. rewrite length_map. apply length_seq. Qed.

(** C6.  In any run of a session the pump restarts at most three times,
    never more often than it has waited, and the k-th wait is 1000 k ms;
    a read error after three attempts, a socket that is not readable when
    the wait ends, or a reader that cannot be had, make an open session
    send [CLOSE] and tear down; and once the session is torn down no
    timer is set and no restart happens any more. *)
Theorem pump_restarts_bounded :
  (forall evs : list Event,
      let s := run evs newSession in
      (restarts (effects s) <= 3)%nat
      /\ (restarts (effects s) <= List.length (timeouts (effects s)))%nat
      /\ (exists n, (n <= 3)%nat /\ timeouts (effects s) = delays n)
      /\ (isClosed s = true ->
          forall evs' : list Event,
            restarts (effects (run evs' s)) = restarts (effects s)
            /\ timeouts (effects (run evs' s)) = timeouts (effects s)))
  /\ (forall s : Session,
         isClosed s = false -> pump s = AwaitRead ->
         3 <= connectionAttempts s ->
         let s' := step s (ReadSettles ReadError) in
         effects s'
         = effects s ++ ConsoleError :: WsSend (Text "CLOSE") :: teardownOps s
         /\ isClosed s' = true /\ pump s' = Idle)
  /\ (forall (s : Session) (readable ok : bool),
         isClosed s = false -> pump s = AwaitTimer ->
         remoteSocket s = None \/ readable = false ->
         let s' := step s (TimerFires readable ok) in
         effects s' = effects s ++ WsSend (Text "CLOSE") :: teardownOps s
         /\ isClosed s' = true /\ pump s' = Idle)
  /\ (forall (s : Session) (k : nat),
         isClosed s = false -> pump s = AwaitTimer ->
         remoteSocket s = Some k ->
         let s' := step s (TimerFires true false) in
         effects s'
         = effects s ++ GetReader k :: WsSend (Text "CLOSE") :: teardownOps s
         /\ isClosed s' = true /\ pump s' = Idle).
Proof.
  assert (Hfinish : forall s, isClosed s = false ->
             effects (pumpFinish s)
             = effects s ++ WsSend (Text "CLOSE") :: teardownOps s
             /\ isClosed (pumpFinish s) = true /\ pump (pumpFinish s) = Idle).
  { intros s Hc. unfold pumpFinish. fields. rewrite Hc. cbn [negb].
    destruct (cleanup_open (emit (WsSend (Text "CLOSE")) (setPump Idle s)))
      as (Heff & Hcl & _ & _ & _ & _ & _ & Hp & _); [fields; exact Hc|].
    rewrite Heff, Hp. fields. rewrite <- app_assoc.
    repeat split; auto. }
  split; [|split; [|split]].
  - intros evs s.
    pose proof (Inv_run evs newSession Inv_newSession) as HI. fold s in HI.
    destruct HI as [Ha Ht Hr Htm Hi Hcl Hg].
    split; [lia|]. split; [rewrite Ht, length_delays; exact Hr|].
    split; [exists (Z.to_nat (connectionAttempts s)); split; [lia | exact Ht]|].
    intros Hc evs'. apply run_closed; auto.
  - intros s Hc Hp Hatt s'. unfold s'. cbn [step]. unfold onRead.
    rewrite Hp. fields. rewrite Hc. cbn [negb andb].
    replace (connectionAttempts s <? 3) with false
      by (symmetry; apply Z.ltb_ge; lia).
    destruct (Hfinish (emit ConsoleError s)) as (Heff & Hcl & Hpi);
      [fields; exact Hc|].
    rewrite Heff. fields. rewrite <- app_assoc. auto.
  - intros s readable ok Hc Hp Hun s'. unfold s'. cbn [step]. unfold onTimer.
    rewrite Hp.
    destruct (remoteSocket s) as [k|] eqn:Hk; [|apply Hfinish; exact Hc].
    destruct Hun as [Hun | ->]; [discriminate|]. apply Hfinish; exact Hc.
  - intros s k Hc Hp Hk s'. unfold s'. cbn [step]. unfold onTimer.
    rewrite Hp, Hk.
    destruct (Hfinish (emit (GetReader k) s)) as (Heff & Hcl & Hpi);
      [fields; exact Hc|].
    rewrite Heff. fields. rewrite <- app_assoc.
    assert (Htd : teardownOps (emit (GetReader k) s) = teardownOps s)
      by reflexivity.
    rewrite Htd. auto.
Qed.

Lemma pump_restarts_bounded_witness :
  let s := run sample.restart_run newSession in
  (restarts (effects s) <= 3)%nat
  /\ timeouts (effects s) = [1000; 2000; 3000]
  /\ effects (step s (ReadSettles ReadError))
     = effects s
         ++ [ConsoleError; WsSend (Text "CLOSE"); WriterReleaseLock 0;
             ReaderReleaseLock 0; SocketClose 0; WsClose 1000 "Server closed"]
  /\ isClosed (step s (ReadSettles ReadError)) = true.
Proof.
  intros s.
  destruct pump_restarts_bounded as (Hrun & Hexhausted & _ & _).
  destruct (Hrun sample.restart_run) as (Hle & _).
  assert (Hatt : 3 <= connectionAttempts s) by (vm_compute; discriminate).
  destruct (Hexhausted s eq_refl eq_refl Hatt) as (Heff & Hcl & _).
  split; [exact Hle|]. split; [reflexivity|].
  split; [rewrite Heff; reflexivity | exact Hcl].
Defined.

End Pump.

(** * Further properties of the client and of the relay *)

(** ** Base64: decoding undoes encoding *)

Lemma lor_shiftl_low (x y k : Z) :
  0 <= k -> 0 <= y < 2 ^ k -> Z.lor (Z.shiftl x k) y = x * 2 ^ k + y.
Proof.
  intros Hk Hy.
  assert (D : Z.land (Z.shiftl x k) y = 0).
  { apply Z.bits_inj'. intros n Hn. rewrite Z.land_spec, Z.bits_0.
    destruct (Z.ltb_spec n k).
    - rewrite Z.shiftl_spec_low by lia. reflexivity.
    - destruct (Z.eq_dec y 0) as [->|].
      + rewrite Z.bits_0. apply andb_false_r.
      + rewrite (Z.bits_above_log2 y n); [apply andb_false_r | lia |].
        apply Z.lt_le_trans with k; [|lia].
        apply Z.log2_lt_pow2; lia. }
  rewrite <- Z.lxor_lor by exact D.
  rewrite <- Z.add_nocarry_lxor by exact D.
  rewrite Z.shiftl_mul_pow2 by lia. reflexivity.
Qed.

(** The decoder reads back each character of the alphabet. *)
Lemma dec_enc (n : Z) : 0 <= n < 64 -> base64.dec (base64.enc n) = Some n.
Proof.
  intros H.
  assert (E : forallb (fun k =>
                         match base64.dec (base64.enc (Z.of_nat k)) with
                         | Some m => m =? Z.of_nat k
                         | None => false
                         end)
                (seq 0 64) = true) by (vm_compute; reflexivity).
  rewrite forallb_forall in E.
  specialize (E (Z.to_nat n)). rewrite Z2Nat.id in E by lia.
  destruct (base64.dec (base64.enc n)).
  - f_equal. apply Z.eqb_eq. apply E. apply in_seq. lia.
  - discriminate E. apply in_seq. lia.
Qed.

Lemma byte_of_u8 (b : byte) : byte_of_Z (u8 b) = b.
Proof.
  unfold byte_of_Z, u8. rewrite N2Z.id, Byte.of_to_N. reflexivity.
Qed.

(** The four 6-bit digits the encoder takes from a quantum of three bytes,
    and the bytes the decoder puts together from them. *)
Lemma quantum3 (a b c : Z) :
  0 <= a < 256 -> 0 <= b < 256 -> 0 <= c < 256 ->
  forall v, v = a * 65536 + b * 256 + c ->
  let v0 := Z.land (Z.shiftr v 18) 63 in
  let v1 := Z.land (Z.shiftr v 12) 63 in
  let v2 := Z.land (Z.shiftr v 6) 63 in
  let v3 := Z.land v 63 in
  (0 <= v0 < 64 /\ 0 <= v1 < 64 /\ 0 <= v2 < 64 /\ 0 <= v3 < 64) /\
  Z.lor (Z.shiftl v0 2) (Z.shiftr v1 4) = a /\
  Z.lor (Z.land (Z.shiftl v1 4) 255) (Z.shiftr v2 2) = b /\
  Z.lor (Z.land (Z.shiftl v2 6) 255) v3 = c.
Proof.
  intros Ha Hb Hc v Hv v0 v1 v2 v3.
  assert (L63 : forall x, 0 <= x -> Z.land x 63 = x mod 64).
  { intros x Hx. change 63 with (Z.ones 6). rewrite Z.land_ones by lia.
    reflexivity. }
  assert (L255 : forall x, 0 <= x -> Z.land x 255 = x mod 256).
  { intros x Hx. change 255 with (Z.ones 8). rewrite Z.land_ones by lia.
    reflexivity. }
  assert (E0 : v0 = v / 262144 mod 64).
  { unfold v0. rewrite Z.shiftr_div_pow2 by lia. apply L63.
    apply Z.div_pos; lia. }
  assert (E1 : v1 = v / 4096 mod 64).
  { unfold v1. rewrite Z.shiftr_div_pow2 by lia. apply L63.
    apply Z.div_pos; lia. }
  assert (E2 : v2 = v / 64 mod 64).
  { unfold v2. rewrite Z.shiftr_div_pow2 by lia. apply L63.
    apply Z.div_pos; lia. }
  assert (E3 : v3 = v mod 64).
  { unfold v3. apply L63. lia. }
  clearbody v0 v1 v2 v3.
  assert (R0 : 0 <= v0 < 64) by (subst v0; apply Z.mod_pos_bound; lia).
  assert (R1 : 0 <= v1 < 64) by (subst v1; apply Z.mod_pos_bound; lia).
  assert (R2 : 0 <= v2 < 64) by (subst v2; apply Z.mod_pos_bound; lia).
  assert (R3 : 0 <= v3 < 64) by (subst v3; apply Z.mod_pos_bound; lia).
  split; [auto|].
  rewrite !L255 by (rewrite Z.shiftl_mul_pow2; lia).
  rewrite !Z.shiftl_mul_pow2, !Z.shiftr_div_pow2 by lia.
  assert (lor_add : forall x y k, 0 <= k -> 0 <= y < 2 ^ k ->
                               Z.lor (x * 2 ^ k) y = x * 2 ^ k + y).
  { intros x y k Hk Hy. rewrite <- lor_shiftl_low by lia.
    rewrite Z.shiftl_mul_pow2 by lia. reflexivity. }
  split; [|split].
  - rewrite (lor_add v0 (v1 / 2 ^ 4) 2); [|lia|].
    + subst. change (2 ^ 2) with 4. Z.div_mod_to_equations. lia.
    + change (2 ^ 2) with 4. Z.div_mod_to_equations. lia.
  - replace (v1 * 2 ^ 4 mod 256) with ((v1 mod 16) * 2 ^ 4)
      by (change (2 ^ 4) with 16; Z.div_mod_to_equations; lia).
    rewrite lor_add; [|lia|].
    + subst. change (2 ^ 4) with 16. Z.div_mod_to_equations. lia.
    + change (2 ^ 4) with 16. Z.div_mod_to_equations. lia.
  - replace (v2 * 2 ^ 6 mod 256) with ((v2 mod 4) * 2 ^ 6)
      by (change (2 ^ 6) with 64; Z.div_mod_to_equations; lia).
    rewrite lor_add; [|lia|].
    + subst. change (2 ^ 6) with 64. Z.div_mod_to_equations. lia.
    + change (2 ^ 6) with 64. lia.
Qed.

Lemma pack3 (a b c : Z) :
  0 <= a < 256 -> 0 <= b < 256 -> 0 <= c < 256 ->
  Z.lor (Z.lor (Z.shiftl a 16) (Z.shiftl b 8)) c = a * 65536 + b * 256 + c.
Proof.
  intros Ha Hb Hc. rewrite (Z.shiftl_mul_pow2 b 8) by lia.
  rewrite (lor_shiftl_low a (b * 2 ^ 8) 16) by lia.
  replace (a * 2 ^ 16 + b * 2 ^ 8) with (Z.shiftl (a * 256 + b) 8)
    by (rewrite Z.shiftl_mul_pow2; lia).
  rewrite lor_shiftl_low by lia. lia.
Qed.

Lemma EncodeToString_3 (a b c : byte) (rest : list byte) :
  base64.EncodeToString (a :: b :: c :: rest) =
  let v := Z.lor (Z.lor (Z.shiftl (u8 a) 16) (Z.shiftl (u8 b) 8)) (u8 c) in
  String (base64.enc (Z.land (Z.shiftr v 18) 63))
    (String (base64.enc (Z.land (Z.shiftr v 12) 63))
       (String (base64.enc (Z.land (Z.shiftr v 6) 63))
          (String (base64.enc (Z.land v 63)) (base64.EncodeToString rest)))).
Proof. reflexivity. Qed.

Lemma dec_pad : base64.dec base64.pad = None.
Proof. reflexivity. Qed.

(** Decoding undoes encoding. *)
Lemma decode_quanta_encode (v : list byte) :
  base64.decode_quanta (list_ascii_of_string (base64.EncodeToString v))
  = Some v.
Proof.
  assert (H : forall n v, (List.length v <= n)%nat ->
    base64.decode_quanta (list_ascii_of_string (base64.EncodeToString v))
    = Some v).
  { clear v. induction n as [|n IH]; intros v Hn.
    - destruct v; [reflexivity | cbn [List.length] in Hn; lia].
    - destruct v as [|a [|b [|c rest]]].
      + reflexivity.
      + pose proof (u8_range a) as Ra.
        destruct (quantum3 (u8 a) 0 0 Ra ltac:(lia) ltac:(lia)
                    (Z.shiftl (u8 a) 16))
          as [(R0 & R1 & R2 & R3) (E0 & E1 & E2)].
        { rewrite Z.shiftl_mul_pow2 by lia. lia. }
        cbn [base64.EncodeToString list_ascii_of_string base64.decode_quanta].
        rewrite !dec_enc by assumption. rewrite dec_pad.
        cbv iota beta zeta. rewrite E0, byte_of_u8. reflexivity.
      + pose proof (u8_range a) as Ra. pose proof (u8_range b) as Rb.
        destruct (quantum3 (u8 a) (u8 b) 0 Ra Rb ltac:(lia)
                    (Z.lor (Z.shiftl (u8 a) 16) (Z.shiftl (u8 b) 8)))
          as [(R0 & R1 & R2 & R3) (E0 & E1 & E2)].
        { rewrite <- (Z.lor_0_r (Z.lor _ _)). rewrite pack3; lia. }
        cbn [base64.EncodeToString list_ascii_of_string base64.decode_quanta].
        rewrite !dec_enc by assumption. rewrite dec_pad.
        cbv iota beta zeta. rewrite E0, E1, !byte_of_u8. reflexivity.
      + pose proof (u8_range a) as Ra. pose proof (u8_range b) as Rb.
        pose proof (u8_range c) as Rc.
        destruct (quantum3 (u8 a) (u8 b) (u8 c) Ra Rb Rc
                    (Z.lor (Z.lor (Z.shiftl (u8 a) 16) (Z.shiftl (u8 b) 8))
                       (u8 c)))
          as [(R0 & R1 & R2 & R3) (E0 & E1 & E2)].
        { apply pack3; lia. }
        rewrite EncodeToString_3. cbv zeta.
        cbn [list_ascii_of_string base64.decode_quanta].
        rewrite !dec_enc by assumption.
        cbv iota beta zeta. rewrite E0, E1, E2, !byte_of_u8.
        rewrite IH by (cbn [List.length] in Hn; lia). reflexivity. }
  apply (H (List.length v)). lia.
Qed.

Lemma EncodeToString_no_newline (v : list byte) :
  filter (fun c => negb (base64.is_newline c))
    (list_ascii_of_string (base64.EncodeToString v))
  = list_ascii_of_string (base64.EncodeToString v).
Proof.
  assert (P : base64.is_newline base64.pad = false) by reflexivity.
  assert (H : forall n v, (List.length v <= n)%nat ->
    filter (fun c => negb (base64.is_newline c))
      (list_ascii_of_string (base64.EncodeToString v))
    = list_ascii_of_string (base64.EncodeToString v)).
  { clear v. induction n as [|n IH]; intros v Hn.
    - destruct v; [reflexivity | cbn [List.length] in Hn; lia].
    - destruct v as [|a [|b [|c rest]]].
      + reflexivity.
      + cbn [base64.EncodeToString list_ascii_of_string filter].
        rewrite !enc_not_newline, P. reflexivity.
      + cbn [base64.EncodeToString list_ascii_of_string filter].
        rewrite !enc_not_newline, P. reflexivity.
      + rewrite EncodeToString_3. cbv zeta.
        cbn [list_ascii_of_string filter].
        rewrite !enc_not_newline. cbn [negb].
        rewrite IH by (cbn [List.length] in Hn; lia). reflexivity. }
  apply (H (List.length v)). lia.
Qed.

Lemma DecodeString_EncodeToString (v : list byte) :
  base64.DecodeString (base64.EncodeToString v) = Some v.
Proof.
  unfold base64.DecodeString.
  rewrite EncodeToString_no_newline. apply decode_quanta_encode.
Qed.

(** ** Strings of the Go client *)

Section GoStrings.

Local Open Scope string_scope.
Local Open Scope Z_scope.

Lemma prefix_nil (s : string) : String.prefix "" s = true.
Proof. destruct s; reflexivity. Qed.

Lemma prefix_append (p s : string) : String.prefix p (p ++ s) = true.
Proof.
  induction p as [|a p IH]; [destruct s; reflexivity|].
  cbn [append String.prefix].
  destruct (ascii_dec a a) as [_|N]; [exact IH | now destruct N].
Qed.

Lemma length_append (a b : string) :
  String.length (a ++ b) = (String.length a + String.length b)%nat.
Proof. induction a as [|x a IH]; [reflexivity|]. cbn. now rewrite IH. Qed.

Lemma append_assoc (a b c : string) : (a ++ b) ++ c = a ++ b ++ c.
Proof. induction a as [|x a IH]; [reflexivity|]. cbn. now rewrite IH. Qed.

Lemma substring_all (s : string) : String.substring 0 (String.length s) s = s.
Proof. induction s as [|x s IH]; [reflexivity|]. cbn. now rewrite IH. Qed.

Lemma substring_app_l (a b : string) :
  String.substring 0 (String.length a) (a ++ b) = a.
Proof.
  induction a as [|x a IH]; [destruct b; reflexivity|]. cbn. now rewrite IH.
Qed.

Lemma substring_app_r (a b : string) :
  String.substring (String.length a) (String.length b) (a ++ b) = b.
Proof.
  induction a as [|x a IH]; [apply substring_all|]. cbn. exact IH.
Qed.

Lemma sub_app (a b : string) :
  strings.sub (a ++ b) 0 (Z.of_nat (String.length a)) = a.
Proof.
  unfold strings.sub. rewrite Z.sub_0_r, Nat2Z.id. apply substring_app_l.
Qed.

Lemma from_app (a b : string) :
  strings.from (a ++ b) (Z.of_nat (String.length a)) = b.
Proof.
  unfold strings.from, strings.sub. rewrite length_append, Nat2Z.id.
  replace (Z.to_nat (Z.of_nat (String.length a + String.length b)
                     - Z.of_nat (String.length a)))
    with (String.length b) by lia.
  apply substring_app_r.
Qed.

Lemma from_0 (s : string) : strings.from s 0 = s.
Proof. exact (from_app "" s). Qed.

Lemma Index_char (s : string) (c : ascii) :
  strings.Index s (String c "") = strings.IndexByte s c.
Proof.
  unfold strings.Index. induction s as [|a s IH]; [reflexivity|].
  cbn [String.index strings.IndexByte String.prefix].
  destruct (ascii_dec c a) as [<-|N].
  - rewrite prefix_nil, Ascii.eqb_refl. reflexivity.
  - replace (Ascii.eqb a c) with false
      by (symmetry; apply Ascii.eqb_neq; congruence).
    destruct (String.index 0 (String c "") s) as [n|]; rewrite <- IH.
    + replace (Z.of_nat n <? 0) with false by (symmetry; apply Z.ltb_ge; lia).
      lia.
    + reflexivity.
Qed.

Lemma IndexByte_range (s : string) (c : ascii) :
  strings.IndexByte s c = -1
  \/ 0 <= strings.IndexByte s c < Z.of_nat (String.length s).
Proof.
  induction s as [|a s IH]; [now left|].
  cbn [strings.IndexByte String.length].
  destruct (Ascii.eqb a c); [right; lia|].
  destruct IH as [-> | IH]; [now left|].
  replace (strings.IndexByte s c <? 0) with false
    by (symmetry; apply Z.ltb_ge; lia).
  right. lia.
Qed.

Lemma IndexByte_head (s : string) (c : ascii) :
  strings.IndexByte (String c s) c = 0.
Proof. cbn [strings.IndexByte]. now rewrite Ascii.eqb_refl. Qed.

(** The first occurrence in [a ++ b] of a byte that [a] does not hold. *)
Lemma IndexByte_app (a b : string) (c : ascii) :
  strings.IndexByte a c = -1 ->
  strings.IndexByte (a ++ b) c
  = if strings.IndexByte b c <? 0 then -1
    else Z.of_nat (String.length a) + strings.IndexByte b c.
Proof.
  induction a as [|x a IH]; intros Ha.
  - cbn [append String.length]. destruct (IndexByte_range b c) as [-> | H].
    + reflexivity.
    + replace (strings.IndexByte b c <? 0) with false
        by (symmetry; apply Z.ltb_ge; lia).
      lia.
  - cbn [strings.IndexByte] in Ha. cbn [append strings.IndexByte String.length].
    destruct (Ascii.eqb x c); [discriminate|].
    destruct (IndexByte_range a c) as [E | H].
    + rewrite (IH E).
      destruct (IndexByte_range b c) as [-> | Hb]; [reflexivity|].
      replace (strings.IndexByte b c <? 0) with false
        by (symmetry; apply Z.ltb_ge; lia).
      replace (Z.of_nat (String.length a) + strings.IndexByte b c <? 0)
        with false by (symmetry; apply Z.ltb_ge; lia).
      lia.
    + replace (strings.IndexByte a c <? 0) with false in Ha
        by (symmetry; apply Z.ltb_ge; lia).
      lia.
Qed.

Lemma IndexByte_absent_app (a b : string) (c : ascii) :
  strings.IndexByte a c = -1 -> strings.IndexByte b c = -1 ->
  strings.IndexByte (a ++ b) c = -1.
Proof. intros Ha Hb. rewrite (IndexByte_app a b c Ha), Hb. reflexivity. Qed.

Lemma LastIndexByte_absent (s : string) (c : ascii) :
  strings.IndexByte s c = -1 -> strings.LastIndexByte s c = -1.
Proof.
  induction s as [|a s IH]; [reflexivity|].
  cbn [strings.IndexByte strings.LastIndexByte].
  destruct (Ascii.eqb a c); [discriminate|].
  destruct (IndexByte_range s c) as [E | H].
  - intros _. rewrite (IH E). reflexivity.
  - replace (strings.IndexByte s c <? 0) with false
      by (symmetry; apply Z.ltb_ge; lia).
    lia.
Qed.

(** The last occurrence of [c] in [a ++ c :: b] when [b] does not hold
    it. *)
Lemma LastIndexByte_app (a b : string) (c : ascii) :
  strings.IndexByte b c = -1 ->
  strings.LastIndexByte (a ++ String c b) c = Z.of_nat (String.length a).
Proof.
  intros Hb. apply LastIndexByte_absent in Hb.
  induction a as [|x a IH].
  - cbn [append strings.LastIndexByte String.length]. rewrite Hb.
    cbn [Z.leb]. now rewrite Ascii.eqb_refl.
  - cbn [append strings.LastIndexByte String.length]. rewrite IH.
    replace (0 <=? Z.of_nat (String.length a)) with true
      by (symmetry; apply Z.leb_le; lia).
    lia.
Qed.

(** Cutting a string at the first occurrence of a byte. *)
Lemma IndexByte_cut (s : string) (c : ascii) :
  0 <= strings.IndexByte s c ->
  exists a b : string,
    s = a ++ String c b
    /\ strings.IndexByte a c = -1
    /\ strings.IndexByte s c = Z.of_nat (String.length a).
Proof.
  induction s as [|x s IH]; cbn [strings.IndexByte]; [lia|].
  destruct (Ascii.eqb_spec x c) as [->|N].
  - intros _. exists "", s. repeat split.
  - destruct (IndexByte_range s c) as [E | H].
    + rewrite E. cbn. lia.
    + replace (strings.IndexByte s c <? 0) with false
        by (symmetry; apply Z.ltb_ge; lia).
      intros _. destruct IH as (a & b & -> & Ha & Hi); [lia|].
      exists (String x a), b. cbn [append strings.IndexByte String.length].
      replace (Ascii.eqb x c) with false
        by (symmetry; apply Ascii.eqb_neq; exact N).
      rewrite Ha. repeat split; try reflexivity; lia.
Qed.

Import websocket.

Lemma plainPart_spec (s : string) (c : ascii) :
  plainPart s = true ->
  c = ":"%char \/ c = "/"%char \/ c = "["%char \/ c = "]"%char ->
  strings.IndexByte s c = -1.
Proof.
  intros Hs Hc. induction s as [|a s IH]; [reflexivity|].
  cbn [plainPart] in Hs. apply andb_true_iff in Hs as [Ha Hs].
  apply negb_true_iff in Ha. rewrite !orb_false_iff in Ha.
  destruct Ha as (((H1 & H2) & H3) & H4).
  cbn [strings.IndexByte]. rewrite (IH Hs).
  replace (Ascii.eqb a c) with false; [reflexivity|].
  symmetry. destruct Hc as [-> | [-> | [-> | ->]]]; assumption.
Qed.

Lemma plainPart_first (s t : string) :
  plainPart s = true -> String.prefix "[" (s ++ String ":" t) = false.
Proof.
  destruct s as [|a s]; [reflexivity|]. cbn [plainPart append String.prefix].
  intros H. apply andb_true_iff in H as [Ha _].
  apply negb_true_iff in Ha. rewrite !orb_false_iff in Ha.
  destruct Ha as (((_ & _) & H3) & _).
  destruct (ascii_dec "[" a) as [<-|]; [discriminate H3 | reflexivity].
Qed.

(** [net.SplitHostPort] on a plain host and a plain port. *)
Lemma SplitHostPort_plain (h p : string) :
  plainPart h = true -> plainPart p = true ->
  net.SplitHostPort (h ++ String ":" p) = inl (h, p).
Proof.
  intros Hh Hp. unfold net.SplitHostPort.
  assert (Hall : forall c,
             c = "["%char \/ c = "]"%char ->
             strings.IndexByte (h ++ String ":" p) c = -1).
  { intros c Hc. apply IndexByte_absent_app.
    - apply plainPart_spec; [exact Hh | tauto].
    - cbn [strings.IndexByte].
      replace (Ascii.eqb ":" c) with false
        by (destruct Hc as [-> | ->]; reflexivity).
      rewrite (plainPart_spec p c Hp) by tauto. reflexivity. }
  rewrite (LastIndexByte_app h p ":") by (apply plainPart_spec; auto).
  replace (Z.of_nat (String.length h) <? 0) with false
    by (symmetry; apply Z.ltb_ge; lia).
  rewrite (plainPart_first h p Hh).
  rewrite sub_app, (plainPart_spec h ":" Hh) by auto. cbn [Z.leb].
  rewrite from_0, !Hall by auto. cbn [Z.leb].
  replace (h ++ String ":" p) with ((h ++ ":") ++ p)
    by (rewrite append_assoc; reflexivity).
  replace (Z.of_nat (String.length h) + 1)
    with (Z.of_nat (String.length (h ++ ":")))
    by (rewrite length_append; cbn [String.length]; lia).
  rewrite from_app. reflexivity.
Qed.

(** Without a colon there is no port. *)
Lemma SplitHostPort_no_colon (s : string) :
  strings.IndexByte s ":" = -1 ->
  net.SplitHostPort s = inr (net.AddrError s "missing port in address").
Proof.
  intros H. unfold net.SplitHostPort.
  rewrite (LastIndexByte_absent s ":" H). reflexivity.
Qed.

End GoStrings.

(** ** The ECH store and its resolver *)

(** What [Prepare] does when the DoH server delivers a response whose
    first usable HTTPS record carries the value [v]. *)
Lemma Prepare_succeeds (env : Env) (w : World) (body v : list byte) :
  doh env (trace w) = Response 200 (inr body) ->
  ech.parseDNSResponse body = Ret (base64.EncodeToString v, None) ->
  0 < len v ->
  exists w' : World,
    ech.Prepare env w = Ret (None, w')
    /\ manager w' = {| echList := v; echDomain := echDomain (manager w);
                       dnsServer := dnsServer (manager w) |}.
Proof.
  intros Hdoh Hparse Hv.
  destruct (Prepare_on_body env w body _ _ Hdoh Hparse) as (w1 & _ & Hp).
  rewrite DecodeString_EncodeToString in Hp.
  destruct (String.eqb_spec (base64.EncodeToString v) "") as [E|_].
  - pose proof (EncodeToString_nonempty v Hv) as Hne. rewrite E in Hne.
    discriminate Hne.
  - eexists. split; [exact Hp | reflexivity].
Qed.


(** X1.  A [Prepare] that succeeds has received a DoH response with
    status 200 from which the resolver returned the base64 text of a
    value that is not empty, and it stores exactly the bytes of that value:
    decoding undoes the encoding of [parseHTTPSRecord].  Conversely, such a
    response always makes [Prepare] succeed and store the value.  The
    domain and the DoH server of the manager are left as they were. *)
Theorem Prepare_stores_resolved_value :
  forall (env : Env) (w : World),
    (forall w' : World,
        ech.Prepare env w = Ret (None, w') ->
        exists body : list byte,
          doh env (trace w) = Response 200 (inr body)
          /\ ech.parseDNSResponse body
             = Ret (base64.EncodeToString (echList (manager w')), None)
          /\ 0 < len (echList (manager w'))
          /\ echDomain (manager w') = echDomain (manager w)
          /\ dnsServer (manager w') = dnsServer (manager w))
    /\ (forall (body v : list byte),
           doh env (trace w) = Response 200 (inr body) ->
           ech.parseDNSResponse body = Ret (base64.EncodeToString v, None) ->
           0 < len v ->
           exists w' : World,
             ech.Prepare env w = Ret (None, w') /\ echList (manager w') = v).
Proof.
  intros env w. split.
  - intros w'.
    unfold ech.Prepare, ech.queryHTTPSRecord, ech.queryDoH, bind, getManager,
      history, emit, lift, ret, setEchList.
    destruct (doh env (trace w)) as [e | e | e | code [e | body]];
      try discriminate;
      (destruct (code =? 200) eqn:Ecode; cbn [negb]; [|discriminate]);
      try discriminate.
    apply Z.eqb_eq in Ecode. subst code.
    destruct (parseDNSResponse_total body) as ([s e] & Hp). rewrite Hp.
    destruct e as [e|]; [discriminate|].
    destruct (String.eqb s "") eqn:Es; [discriminate|].
    destruct (base64.DecodeString s) as [raw|] eqn:Ed; [|discriminate].
    intros [= <-]. cbn [manager echList echDomain dnsServer].
    exists body. split; [reflexivity|].
    apply parseDNSResponse_encoded in Hp as Henc.
    destruct Henc as [-> | (_ & [-> | (v & Hv & ->)])]; try discriminate.
    rewrite DecodeString_EncodeToString in Ed. injection Ed as <-.
    auto.
  - intros body v Hdoh Hparse Hv.
    destruct (Prepare_succeeds env w body v Hdoh Hparse Hv) as (w' & Hp & Hm).
    exists w'. split; [exact Hp|]. rewrite Hm. reflexivity.
Qed.

Lemma Prepare_stores_resolved_value_witness :
  exists w' : World,
    ech.Prepare (sample.serving sample.with_ech) sample.fresh = Ret (None, w')
    /\ echList (manager w') = sample.ech_config.
Proof.
  destruct (Prepare_stores_resolved_value (sample.serving sample.with_ech)
              sample.fresh) as [_ H].
  apply (H (wire.encode sample.with_ech) sample.ech_config).
  - reflexivity.
  - vm_compute. reflexivity.
  - vm_compute. reflexivity.
Defined.

Lemma length_list_byte_of_string (s : string) :
  List.length (list_byte_of_string s) = String.length s.
Proof.
  unfold list_byte_of_string. rewrite length_map.
  induction s as [|c s IH]; [reflexivity|].
  cbn [list_ascii_of_string List.length String.length]. now rewrite IH.
Qed.

(** The label loop of [buildDNSQuery] appends the labels one after the
    other. *)
Lemma buildDNSQuery_labels (labels : list string) (query : list byte) :
  fold_left
    (fun query label =>
       (query ++ [byte_of_Z (Z.of_nat (String.length label) mod 256)])
         ++ list_byte_of_string label)
    labels query
  = query
      ++ flat_map (fun label =>
                     byte_of_Z (Z.of_nat (String.length label) mod 256)
                       :: list_byte_of_string label) labels.
Proof.
  revert query. induction labels as [|l labels IH]; intros query;
    cbn [fold_left flat_map].
  - now rewrite app_nil_r.
  - rewrite IH. list_eq.
Qed.

Lemma Split_nonempty (s : string) (sep : ascii) : strings.Split s sep <> [].
Proof.
  destruct s as [|a s]; cbn [strings.Split]; [discriminate|].
  destruct (Ascii.eqb a sep); [discriminate|].
  destruct (strings.Split s sep); discriminate.
Qed.

(** The pieces of [Split] and the separators between them make up the
    string. *)
Lemma Split_length (s : string) (sep : ascii) :
  list_sum (map (fun l => S (String.length l)) (strings.Split s sep))
  = S (String.length s).
Proof.
  unfold list_sum. induction s as [|a s IH]; [reflexivity|].
  cbn [strings.Split]. destruct (Ascii.eqb a sep).
  - cbn [map fold_right]. rewrite IH. reflexivity.
  - destruct (strings.Split s sep) as [|p ps] eqn:E;
      [destruct (Split_nonempty s sep E)|].
    cbn [map fold_right String.length] in *. lia.
Qed.

(** X2.  The query [buildDNSQuery] builds for a domain of [n] bytes has
    [n + 18] bytes; and when every label of the domain (its pieces between
    dots) has 1 to 63 bytes, the query is the wire form of a well-formed DNS
    message with ID 1, the RD flag, one question for the labels of the
    domain with the given type and class IN, and no other record. *)
Theorem buildDNSQuery_is_a_wire_query :
  forall (domain : string) (qtype : Z),
    len (ech.buildDNSQuery domain qtype) = Z.of_nat (String.length domain) + 18
    /\ let labels := map list_byte_of_string (strings.Split domain ".") in
       (forallb wire.wf_label labels = true -> 0 <= qtype < 65536 ->
        let m := {| wire.id := 1; wire.flags := 256;
                    wire.qname := labels; wire.qtype := qtype; wire.qclass := 1;
                    wire.answers := []; wire.nscount := 0; wire.arcount := 0;
                    wire.trailer := [] |} in
        wire.wf m = true /\ ech.buildDNSQuery domain qtype = wire.encode m).
Proof.
  intros domain qtype. split.
  - unfold ech.buildDNSQuery. rewrite buildDNSQuery_labels.
    autorewrite with lens.
    assert (H : forall ls : list string,
               len (flat_map (fun label =>
                      byte_of_Z (Z.of_nat (String.length label) mod 256)
                        :: list_byte_of_string label) ls)
               = Z.of_nat (list_sum (map (fun l => S (String.length l)) ls))).
    { induction ls as [|l ls IH]; [reflexivity|].
      unfold list_sum in *. cbn [flat_map map fold_right].
      autorewrite with lens. rewrite IH.
      unfold len. rewrite length_list_byte_of_string. lia. }
    rewrite H, Split_length. lia.
  - intros labels Hwf Hq m. split.
    + unfold wire.wf, m. cbn [wire.id wire.flags wire.qname wire.qtype
        wire.qclass wire.answers wire.nscount wire.arcount].
      rewrite Hwf. cbn [forallb]. change (len (@nil wire.Answer)) with 0.
      replace (wire.is_u16 qtype) with true
        by (symmetry; apply is_u16_spec; lia).
      reflexivity.
    + unfold ech.buildDNSQuery. rewrite buildDNSQuery_labels.
      unfold wire.encode, wire.encHeader, wire.encQuestion, m.
      cbn [wire.id wire.flags wire.qname wire.qtype wire.qclass wire.answers
           wire.nscount wire.arcount wire.trailer flat_map].
      rewrite app_nil_r.
      change (wire.put16 1 ++ wire.put16 256 ++ wire.put16 1
                ++ wire.put16 (len (@nil wire.Answer)) ++ wire.put16 0
                ++ wire.put16 0)
        with [x00; x01; x01; x00; x00; x01; x00; x00; x00; x00; x00; x00].
      rewrite <- !app_assoc. f_equal.
      assert (Hl : flat_map (fun label =>
                      byte_of_Z (Z.of_nat (String.length label) mod 256)
                        :: list_byte_of_string label) (strings.Split domain ".")
                   = wire.encLabels labels).
      { unfold labels. clear m. revert Hwf. unfold labels.
        induction (strings.Split domain ".") as [|l ls IH]; [reflexivity|].
        cbn [map forallb flat_map wire.encLabels]. intros H.
        apply andb_true_iff in H as [H1 H2]. apply wf_label_spec in H1.
        fold (wire.encLabels (map list_byte_of_string ls)).
        rewrite (IH H2). unfold wire.encLabel. cbn [app]. do 2 f_equal.
        unfold len in *. rewrite length_list_byte_of_string in *.
        rewrite Z.mod_small by lia. reflexivity. }
      rewrite Hl. f_equal. unfold wire.put16. cbn [app].
      rewrite Z.shiftr_div_pow2 by lia. change (2 ^ 8) with 256.
      rewrite (Z.mod_small (qtype / 256)) by (Z.div_mod_to_equations; lia).
      reflexivity.
Qed.

Lemma buildDNSQuery_is_a_wire_query_witness :
  ech.buildDNSQuery "cloudflare-ech.com" ech.TypeHTTPS
  = wire.encode
      {| wire.id := 1; wire.flags := 256;
         wire.qname := [sample.bytes "cloudflare-ech"; sample.bytes "com"];
         wire.qtype := 65; wire.qclass := 1;
         wire.answers := []; wire.nscount := 0; wire.arcount := 0;
         wire.trailer := [] |}.
Proof.
  destruct (buildDNSQuery_is_a_wire_query "cloudflare-ech.com" ech.TypeHTTPS)
    as [_ H].
  apply H.
  - vm_compute. reflexivity.
  - unfold ech.TypeHTTPS. lia.
Defined.


Lemma after_after (w : World) (a b : list Event) :
  after (after w a) b = after w (a ++ b).
Proof. unfold after. cbn [manager trace]. now rewrite app_assoc. Qed.

Lemma sleeps_app (a b : list Event) : sleeps (a ++ b) = sleeps a ++ sleeps b.
Proof. apply flat_map_app. Qed.

Lemma dials_app (a b : list Event) : dials (a ++ b) = dials a ++ dials b.
Proof. apply flat_map_app. Qed.

(** What [Prepare] adds to the trace: the DoH request, if it got as far as
    sending one. *)
Lemma Prepare_trace (env : Env) (w : World) :
  let m := manager w in
  let dohURL :=
    if strings.HasPrefix (dnsServer m) "https://"
       || strings.HasPrefix (dnsServer m) "http://"
    then dnsServer m else ("https://" ++ dnsServer m)%string in
  exists (r : rt.error) (w' : World),
    ech.Prepare env w = Ret (r, w')
    /\ trace w'
       = trace w
           ++ match doh env (trace w) with
              | ParseFails _ | NewRequestFails _ => []
              | DoFails _ | Response _ _ =>
                  [DoHRequest dohURL
                     (ech.buildDNSQuery (echDomain m) ech.TypeHTTPS)]
              end.
Proof.
  intros m dohURL.
  assert (Hurl : (if negb (strings.HasPrefix (dnsServer m) "https://")
                     && negb (strings.HasPrefix (dnsServer m) "http://")
                  then ("https://" ++ dnsServer m)%string else dnsServer m)
                 = dohURL).
  { unfold dohURL. destruct (strings.HasPrefix (dnsServer m) "https://"),
      (strings.HasPrefix (dnsServer m) "http://"); reflexivity. }
  unfold ech.Prepare, ech.queryHTTPSRecord, ech.queryDoH, bind, getManager,
    history, emit, lift, ret, setEchList.
  fold m. rewrite Hurl.
  destruct (doh env (trace w)) as [e | e | e | code [e | body]];
    try (do 2 eexists; split; [reflexivity|]; cbn [trace];
         rewrite ?app_nil_r; reflexivity);
    (destruct (negb (code =? 200));
     [do 2 eexists; split; [reflexivity|]; reflexivity|]).
  + do 2 eexists; split; [reflexivity|]; reflexivity.
  + destruct (parseDNSResponse_total body) as ([s e] & ->).
    destruct e as [e|]; [do 2 eexists; split; reflexivity|].
    destruct (String.eqb s ""); [do 2 eexists; split; reflexivity|].
    destruct (base64.DecodeString s); do 2 eexists; split; reflexivity.
Qed.

(** [Refresh] adds at most a DoH request, then its own record. *)
Lemma Refresh_trace (env : Env) (w : World) :
  exists (r : rt.error) (w' : World) (q : list Event),
    ech.Refresh env w = Ret (r, w')
    /\ ech.Prepare env w = Ret (r, {| manager := manager w'; trace := trace w ++ q |})
    /\ trace w' = trace w ++ q ++ [RefreshCall r]
    /\ calls q = []
    /\ builds q = [] /\ refreshes q = 0%nat /\ sleeps q = [] /\ dials q = [].
Proof.
  destruct (Prepare_trace env w) as (r & w1 & Hp & Htr).
  unfold ech.Refresh, bind, emit, ret. rewrite Hp.
  exists r. eexists. eexists. split; [reflexivity|].
  cbn [manager trace]. rewrite Htr.
  split; [destruct w1 as [m1 t1]; cbn [trace manager] in *; now subst t1|].
  split; [now rewrite <- app_assoc|].
  destruct (doh env (trace w)); repeat split; reflexivity.
Qed.

Section DialTurn.

Variable env : Env.
Variable c : websocket.WebSocketClient.

(** One turn of the retry loop, event by event. *)
Lemma attempts_turn (n : nat) (attempt maxRetries : Z) (host wsURL : string)
    (lastErr : rt.error) (w : World) :
  let run := websocket.attempts env c (S n) attempt maxRetries host wsURL
               lastErr w in
  let next e w' := websocket.attempts env c n (attempt + 1) maxRetries host
                     wsURL (Some e) w' in
  let r : tlsConfig + string :=
    if len (echList (manager w)) =? 0 then inr "ECH配置未加载"%string
    else match SystemCertPool env (trace w) with
         | Some e => inr ("加载系统根证书失败: " ++ e)%string
         | None =>
             inl {| MinVersion := ech.VersionTLS13;
                    ServerName := host;
                    EncryptedClientHelloConfigList := echList (manager w) |}
         end in
  let w1 := after w [BuildTLSConfigCall host (errOf r)] in
  match r with
  | inr e =>
      if (attempt <? maxRetries) && websocket.isECHConfigError e
      then exists (l : string),
             match ech.Refresh env (after w1 [Log l]) with
             | Ret (_, w3) => run = next e (after w3 [Sleep 500])
             | _ => False
             end
      else run = Ret ((None, Some ("构建TLS配置失败: " ++ e)%string), w1)
  | inl tlsCfg =>
      let d := websocket.newDialer c tlsCfg in
      let w2 := after w1 [Dial d wsURL (dial env (trace w1))] in
      match dial env (trace w1) with
      | Some e =>
          if (attempt <? maxRetries)
             && (strings.Contains e "ECH" || strings.Contains e "encrypted")
          then exists (l : string),
                 match ech.Refresh env (after w2 [Log l]) with
                 | Ret (_, w3) => run = next e (after w3 [Sleep 1000])
                 | _ => False
                 end
          else run = Ret ((None, Some ("WebSocket连接失败: " ++ e)%string), w2)
      | None =>
          exists (l : string),
            run = Ret ((Some {| websocket.dialedURL := wsURL;
                                websocket.dialedWith := d |}, None),
                       after w2 [Log l])
      end
  end.
Proof.
  intros run next r w1.
  assert (Hrun : run = websocket.attempts env c (S n) attempt maxRetries host
                         wsURL lastErr w) by reflexivity.
  clearbody run. rewrite attempts_S in Hrun.
  unfold bind at 1 in Hrun.
  assert (Hb : ech.BuildTLSConfig env host w = Ret (r, w1)).
  { unfold ech.BuildTLSConfig, ech.BuildTLSConfig_body, bind.
    rewrite GetECHList_spec. unfold r, w1, after.
    destruct (len (echList (manager w)) =? 0); [reflexivity|].
    unfold history, ret, emit. cbn [trace manager].
    destruct (SystemCertPool env (trace w)); reflexivity. }
  rewrite Hb in Hrun. clear Hb. clearbody r. clearbody w1.
  destruct r as [tlsCfg | e].
  - cbv zeta in Hrun |- *.
    unfold bind at 1, history at 1 in Hrun.
    unfold bind at 1, emit at 1 in Hrun.
    fold (after w1 [Dial (websocket.newDialer c tlsCfg) wsURL (dial env (trace w1))])
      in Hrun.
    set (w2 := after w1 _) in *. clearbody w2.
    destruct (dial env (trace w1)) as [e|].
    + destruct ((attempt <? maxRetries)
                && (strings.Contains e "ECH" || strings.Contains e "encrypted")).
      * unfold bind at 1, emit at 1 in Hrun. unfold bind at 1 in Hrun.
        match type of Hrun with context [Log ?l] => exists l end.
        unfold after at 2. unfold after at 1.
        match type of Hrun with
        | context [ech.Refresh env ?w3] =>
            destruct (Refresh_trace env w3) as (rr & w4 & q & Hr & _)
        end.
        rewrite Hr in Hrun |- *.
        unfold bind at 1, emit at 1 in Hrun. exact Hrun.
      * exact Hrun.
    + unfold bind at 1, emit at 1, ret in Hrun. eexists. exact Hrun.
  - fold (websocket.isECHConfigError e) in Hrun.
    destruct ((attempt <? maxRetries) && websocket.isECHConfigError e).
    + unfold bind at 1, emit at 1 in Hrun. unfold bind at 1 in Hrun.
      match type of Hrun with context [Log ?l] => exists l end.
      unfold after at 2. unfold after at 1.
      match type of Hrun with
      | context [ech.Refresh env ?w3] =>
          destruct (Refresh_trace env w3) as (rr & w4 & q & Hr & _)
      end.
      rewrite Hr in Hrun |- *.
      unfold bind at 1, emit at 1 in Hrun. exact Hrun.
    + exact Hrun.
Qed.

End DialTurn.

(** X3.  The URL [Prepare] queries is the DoH server of the manager with
    [https://] put in front unless it already starts with [https://] or
    [http://], so it always has a scheme.  Every call of [Prepare] returns
    and sends at most one request: none when the URL does not parse or the
    request cannot be created, else one, to that URL, asking for the HTTPS
    record of the ECH domain. *)
Theorem Prepare_sends_one_query :
  forall (env : Env) (w : World),
    let m := manager w in
    let dohURL :=
      if strings.HasPrefix (dnsServer m) "https://"
         || strings.HasPrefix (dnsServer m) "http://"
      then dnsServer m else ("https://" ++ dnsServer m)%string in
    strings.HasPrefix dohURL "https://" || strings.HasPrefix dohURL "http://"
    = true
    /\ exists (r : rt.error) (w' : World),
         ech.Prepare env w = Ret (r, w')
         /\ trace w'
            = trace w
                ++ match doh env (trace w) with
                   | ParseFails _ | NewRequestFails _ => []
                   | DoFails _ | Response _ _ =>
                       [DoHRequest dohURL
                          (ech.buildDNSQuery (echDomain m) ech.TypeHTTPS)]
                   end.
Proof.
  intros env w m dohURL. split.
  - unfold dohURL.
    destruct (strings.HasPrefix (dnsServer m) "https://") eqn:E1;
      cbn [orb]; [rewrite E1; reflexivity|].
    destruct (strings.HasPrefix (dnsServer m) "http://") eqn:E2;
      [rewrite E1, E2; reflexivity|].
    unfold strings.HasPrefix at 1. rewrite prefix_append. reflexivity.
  - exact (Prepare_trace env w).
Qed.

(** ** The dial loop, event by event *)

Ltac trace_counts :=
  rewrite ?builds_app, ?refreshes_app, ?sleeps_app, ?dials_app, ?length_app;
  cbn [builds refreshes sleeps dials calls callOf flat_map filter app
       List.length].

Section DialTrace.

Variable env : Env.
Variable c : websocket.WebSocketClient.

(** What a dial of the loop looks like: to [wsURL], with TLS 1.3, the
    server name [host] and an ECH configuration list that is not empty. *)
Lemma attempts_trace (n : nat) :
  forall (attempt maxRetries : Z) (host wsURL : string) (lastErr : rt.error)
         (w : World),
    Z.of_nat n = Z.max 0 (maxRetries - attempt + 1) ->
    exists (res : option websocket.Conn * rt.error) (w' : World)
           (new : list Event),
      websocket.attempts env c n attempt maxRetries host wsURL lastErr w
      = Ret (res, w')
      /\ trace w' = trace w ++ new
      /\ (List.length (builds new) <= n)%nat
      /\ ((1 <= n)%nat -> (refreshes new < List.length (builds new))%nat)
      /\ List.length (sleeps new) = refreshes new
      /\ (List.length (dials new) <= List.length (builds new))%nat
      /\ Forall (fun x : Dialer * string * rt.error =>
                   snd (fst x) = wsURL
                   /\ exists echBytes : list byte,
                        echBytes <> []
                        /\ fst (fst x)
                           = websocket.newDialer c
                               {| MinVersion := ech.VersionTLS13;
                                  ServerName := host;
                                  EncryptedClientHelloConfigList := echBytes |})
           (dials new)
      /\ (forall conn : websocket.Conn,
             fst res = Some conn ->
             snd res = None
             /\ exists (pre : list Event) (l : string),
                  new = pre ++ [Dial (websocket.dialedWith conn)
                                  (websocket.dialedURL conn) None; Log l]).
Proof.
  induction n as [|n IH]; intros attempt maxRetries host wsURL lastErr w Hn.
  - exists (None, Some (websocket.errDialExhausted maxRetries lastErr)), w, [].
    rewrite app_nil_r. repeat split; try reflexivity; try lia.
    + constructor.
    + discriminate.
    + discriminate.
  - assert (Hnext : attempt < maxRetries ->
                    Z.of_nat n = Z.max 0 (maxRetries - (attempt + 1) + 1)
                    /\ (1 <= n)%nat) by lia.
    pose proof (attempts_turn env c n attempt maxRetries host wsURL lastErr w)
      as T.
    cbv zeta in T.
    destruct (len (echList (manager w)) =? 0) eqn:Elen.
    + (* the store is empty *)
      destruct ((attempt <? maxRetries)
                && websocket.isECHConfigError "ECH配置未加载") eqn:Eretry.
      * apply andb_true_iff in Eretry as [Hlt _]. apply Z.ltb_lt in Hlt.
        destruct (Hnext Hlt) as [Hn' H1].
        destruct T as (l & T).
        match type of T with
        | context [ech.Refresh env ?w3] =>
            destruct (Refresh_trace env w3)
              as (rr & w4 & q & Hr & _ & Htr & _ & Hqb & Hqr & Hqs & Hqd)
        end.
        rewrite Hr in T. rewrite T.
        destruct (IH (attempt + 1) maxRetries host wsURL
                    (Some "ECH配置未加载"%string) (after w4 [Sleep 500]) Hn')
          as (res & w' & new & -> & Htr' & Hb & Hrf & Hs & Hd & Hall & Hconn).
        exists res, w'.
        eexists (BuildTLSConfigCall host _ :: Log l :: q
                   ++ RefreshCall rr :: Sleep 500 :: new).
        split; [reflexivity|].
        split.
        { rewrite Htr'. cbn [after trace]. rewrite Htr. cbn [after trace].
          list_eq. }
        change (BuildTLSConfigCall host (errOf (inr "ECH配置未加载"%string))
                  :: Log l :: q ++ RefreshCall rr :: Sleep 500 :: new)
          with ([BuildTLSConfigCall host (Some "ECH配置未加载"%string); Log l]
                  ++ q ++ [RefreshCall rr; Sleep 500] ++ new).
        trace_counts. rewrite Hqb, Hqr, Hqs, Hqd. cbn [List.length app].
        specialize (Hrf H1).
        repeat split; try lia; try exact Hall.
        -- exact (proj1 (Hconn conn H)).
        -- destruct (Hconn conn H) as (_ & pre & l' & ->).
           eexists (_ :: _ :: q ++ _ :: _ :: pre), l'.
           cbn [app]. rewrite <- !app_assoc. reflexivity.
      * rewrite T.
        do 2 eexists. exists [BuildTLSConfigCall host (Some "ECH配置未加载"%string)].
        split; [reflexivity|]. split; [reflexivity|].
        trace_counts. repeat split; try lia; try constructor; discriminate.
    + destruct (SystemCertPool env (trace w)) as [pe|].
      * (* the trust store does not load *)
        destruct ((attempt <? maxRetries)
                  && websocket.isECHConfigError ("加载系统根证书失败: " ++ pe))
          eqn:Eretry.
        -- apply andb_true_iff in Eretry as [Hlt _]. apply Z.ltb_lt in Hlt.
           destruct (Hnext Hlt) as [Hn' H1].
           destruct T as (l & T).
           match type of T with
           | context [ech.Refresh env ?w3] =>
               destruct (Refresh_trace env w3)
                 as (rr & w4 & q & Hr & _ & Htr & _ & Hqb & Hqr & Hqs & Hqd)
           end.
           rewrite Hr in T. rewrite T.
           destruct (IH (attempt + 1) maxRetries host wsURL
                       (Some ("加载系统根证书失败: " ++ pe)%string)
                       (after w4 [Sleep 500]) Hn')
             as (res & w' & new & -> & Htr' & Hb & Hrf & Hs & Hd & Hall & Hconn).
           exists res, w'.
           eexists ([BuildTLSConfigCall host _; Log l]
                      ++ q ++ [RefreshCall rr; Sleep 500] ++ new).
           split; [reflexivity|].
           split.
           { rewrite Htr'. cbn [after trace]. rewrite Htr. cbn [after trace].
             list_eq. }
           trace_counts. rewrite Hqb, Hqr, Hqs, Hqd. cbn [List.length app].
           specialize (Hrf H1).
           repeat split; try lia; try exact Hall.
           ++ exact (proj1 (Hconn conn H)).
           ++ destruct (Hconn conn H) as (_ & pre & l' & ->).
              eexists (_ :: _ :: q ++ _ :: _ :: pre), l'.
              cbn [app]. rewrite <- !app_assoc. reflexivity.
        -- rewrite T.
           do 2 eexists. eexists [BuildTLSConfigCall host _].
           split; [reflexivity|]. split; [reflexivity|].
           trace_counts. repeat split; try lia; try constructor; discriminate.
      * (* the configuration is built: dial *)
        assert (Hech : echList (manager w) <> []).
        { intros E. rewrite E in Elen. discriminate Elen. }
        set (cfg := {| MinVersion := ech.VersionTLS13; ServerName := host;
                       EncryptedClientHelloConfigList := echList (manager w) |})
          in *.
        assert (Hgood : forall de,
                   (fun x : Dialer * string * rt.error =>
                      snd (fst x) = wsURL
                      /\ exists echBytes : list byte,
                           echBytes <> []
                           /\ fst (fst x)
                              = websocket.newDialer c
                                  {| MinVersion := ech.VersionTLS13;
                                     ServerName := host;
                                     EncryptedClientHelloConfigList := echBytes |})
                     (websocket.newDialer c cfg, wsURL, de)).
        { intros de. split; [reflexivity|].
          exists (echList (manager w)). split; [exact Hech | reflexivity]. }
        cbn [errOf] in T.
        set (w1 := after w [BuildTLSConfigCall host None]) in *.
        destruct (dial env (trace w1)) as [de|].
        -- destruct ((attempt <? maxRetries)
                     && (strings.Contains de "ECH"
                         || strings.Contains de "encrypted")) eqn:Eretry.
           ++ apply andb_true_iff in Eretry as [Hlt _]. apply Z.ltb_lt in Hlt.
              destruct (Hnext Hlt) as [Hn' H1].
              destruct T as (l & T).
              match type of T with
              | context [ech.Refresh env ?w3] =>
                  destruct (Refresh_trace env w3)
                    as (rr & w4 & q & Hr & _ & Htr & _ & Hqb & Hqr & Hqs & Hqd)
              end.
              rewrite Hr in T. rewrite T.
              destruct (IH (attempt + 1) maxRetries host wsURL (Some de)
                          (after w4 [Sleep 1000]) Hn')
                as (res & w' & new & -> & Htr' & Hb & Hrf & Hs & Hd & Hall
                    & Hconn).
              exists res, w'.
              eexists ([BuildTLSConfigCall host None;
                        Dial (websocket.newDialer c cfg) wsURL (Some de); Log l]
                         ++ q ++ [RefreshCall rr; Sleep 1000] ++ new).
              split; [reflexivity|].
              split.
              { rewrite Htr'. cbn [after trace]. rewrite Htr.
                unfold w1. cbn [after trace]. list_eq. }
              trace_counts. rewrite Hqb, Hqr, Hqs, Hqd. cbn [List.length app].
              specialize (Hrf H1).
              repeat split; try lia.
              ** constructor; [apply Hgood | exact Hall].
              ** exact (proj1 (Hconn conn H)).
              ** destruct (Hconn conn H) as (_ & pre & l' & ->).
                 eexists (_ :: _ :: _ :: q ++ _ :: _ :: pre), l'.
                 cbn [app]. rewrite <- !app_assoc. reflexivity.
           ++ rewrite T.
              do 2 eexists.
              eexists [BuildTLSConfigCall host None;
                       Dial (websocket.newDialer c cfg) wsURL (Some de)].
              split; [reflexivity|].
              split; [unfold w1; cbn [after trace]; list_eq|].
              trace_counts. repeat split; try lia; try discriminate.
              constructor; [apply Hgood | constructor].
        -- destruct T as (l & T). rewrite T.
           do 2 eexists.
           eexists [BuildTLSConfigCall host None;
                    Dial (websocket.newDialer c cfg) wsURL None; Log l].
           split; [reflexivity|].
           split; [unfold w1; cbn [after trace]; list_eq|].
           trace_counts.
           split; [lia|]. split; [lia|]. split; [reflexivity|]. split; [lia|].
           split; [constructor; [apply Hgood | constructor]|].
           intros conn H. cbn [fst snd] in *. injection H as H. subst conn.
           split; [reflexivity|].
           exists [BuildTLSConfigCall host None], l. reflexivity.
Qed.

End DialTrace.


(** X5.  Every dial of [DialWithECH] goes to [wss://host:port/path] as
    [ParseServerAddr] split the server address, with a TLS configuration
    that requires TLS 1.3, names the host and carries an ECH configuration
    list that is not empty, with the token as the only subprotocol when
    there is one, a handshake timeout of 10 s, and the dial override exactly
    when a server IP is set; a connection is returned only with a nil
    error, and it is the connection of the last dial, which succeeded. *)
Theorem DialWithECH_dials_with_ECH :
  forall (env : Env) (c : websocket.WebSocketClient) (maxRetries : Z)
         (w : World),
  exists (res : option websocket.Conn * rt.error) (w' : World)
         (new : list Event),
    websocket.DialWithECH env c maxRetries w = Ret (res, w')
    /\ trace w' = trace w ++ new
    /\ (forall (d : Dialer) (u : string) (err : rt.error),
           In (d, u, err) (dials new) ->
           exists host port path : string,
             websocket.ParseServerAddr c = inl (host, port, path)
             /\ u = ("wss://" ++ host ++ ":" ++ port ++ path)%string
             /\ MinVersion (TLSClientConfig d) = ech.VersionTLS13
             /\ ServerName (TLSClientConfig d) = host
             /\ EncryptedClientHelloConfigList (TLSClientConfig d) <> []
             /\ Subprotocols d
                = (if String.eqb (websocket.token c) "" then []
                   else [websocket.token c])
             /\ HandshakeTimeout d = 10000
             /\ NetDial d
                = (if String.eqb (websocket.serverIP c) "" then None
                   else Some (websocket.serverIP c)))
    /\ (forall conn : websocket.Conn,
           fst res = Some conn ->
           snd res = None
           /\ exists pre : list (Dialer * string * rt.error),
                dials new
                = pre ++ [(websocket.dialedWith conn,
                           websocket.dialedURL conn, None)]).
Proof.
  intros env c maxRetries w. unfold websocket.DialWithECH.
  destruct (websocket.ParseServerAddr c) as [[[host port] path] | e].
  - destruct (attempts_trace env c (Z.to_nat maxRetries) 1 maxRetries host
                ("wss://" ++ host ++ ":" ++ port ++ path)%string None w
                ltac:(lia))
      as (res & w' & new & Hrun & Htr & _ & _ & _ & _ & Hall & Hconn).
    exists res, w', new. repeat split; try assumption.
    + intros d u err Hin. rewrite Forall_forall in Hall.
      destruct (Hall _ Hin) as (Hu & echBytes & Hne & Hd).
      cbn [fst snd] in Hu, Hd. subst u d.
      exists host, port, path. repeat split; assumption.
    + exact (proj1 (Hconn conn H)).
    + destruct (Hconn conn H) as (_ & pre & l & ->).
      exists (dials pre). rewrite dials_app. reflexivity.
  - exists (None, Some ("解析服务器地址失败: " ++ e)%string), w, [].
    rewrite app_nil_r. repeat split; try reflexivity.
    + intros d u err [].
    + discriminate H.
    + discriminate H.
Qed.

Section Fatal.

Variable env : Env.
Variable c : websocket.WebSocketClient.

(** X6.  With a loaded store and at least one attempt allowed, a failure
    that is not recognized as ECH-related ends [DialWithECH] at once,
    without [Refresh] and without a second attempt: a trust store that does
    not load, after the one call of [BuildTLSConfig]; and a dial error whose
    text holds neither "ECH" nor "encrypted", after the one dial. *)
Theorem DialWithECH_other_failures_are_fatal :
  forall (maxRetries : Z) (w : World) (host port path : string),
    websocket.ParseServerAddr c = inl (host, port, path) ->
    1 <= maxRetries ->
    echList (manager w) <> [] ->
    let wsURL := ("wss://" ++ host ++ ":" ++ port ++ path)%string in
    let built := BuildTLSConfigCall host None in
    let tlsCfg := {| MinVersion := ech.VersionTLS13; ServerName := host;
                     EncryptedClientHelloConfigList := echList (manager w) |} in
    (forall e : string,
        SystemCertPool env (trace w) = Some e ->
        websocket.isECHConfigError ("加载系统根证书失败: " ++ e) = false ->
        websocket.DialWithECH env c maxRetries w
        = Ret ((None, Some ("构建TLS配置失败: 加载系统根证书失败: " ++ e)%string),
               after w [BuildTLSConfigCall host
                          (Some ("加载系统根证书失败: " ++ e)%string)]))
    /\ (forall e : string,
           SystemCertPool env (trace w) = None ->
           dial env (trace w ++ [built]) = Some e ->
           strings.Contains e "ECH" = false ->
           strings.Contains e "encrypted" = false ->
           websocket.DialWithECH env c maxRetries w
           = Ret ((None, Some ("WebSocket连接失败: " ++ e)%string),
                  after w [built;
                           Dial (websocket.newDialer c tlsCfg) wsURL (Some e)])).
Proof.
  intros maxRetries w host port path Haddr Hmax Hech wsURL built tlsCfg.
  unfold websocket.DialWithECH. rewrite Haddr. fold wsURL.
  destruct (Z.to_nat maxRetries) as [|n] eqn:En; [lia|].
  pose proof (attempts_turn env c n 1 maxRetries host wsURL None w) as T.
  cbv zeta in T.
  replace (len (echList (manager w)) =? 0) with false in T.
  2:{ symmetry. apply Z.eqb_neq. destruct (echList (manager w));
        [congruence|]. rewrite len_cons. pose proof (len_nonneg l). lia. }
  split.
  - intros e Hpool Hother. rewrite Hpool in T. rewrite Hother in T.
    rewrite andb_false_r in T. exact T.
  - intros e Hpool Hdial H1 H2. rewrite Hpool in T. cbn [errOf] in T.
    cbn [after trace] in T. fold built in T. rewrite Hdial in T.
    rewrite H1, H2 in T. cbn [orb] in T. rewrite andb_false_r in T.
    rewrite after_after in T. exact T.
Qed.

End Fatal.

Lemma DialWithECH_other_failures_are_fatal_witness :
  websocket.DialWithECH sample.untrusted sample.client 3 sample.loaded
  = Ret ((None,
          Some "构建TLS配置失败: 加载系统根证书失败: x509: system roots unavailable"%string),
         after sample.loaded
           [BuildTLSConfigCall "edge.example.com"
              (Some "加载系统根证书失败: x509: system roots unavailable"%string)])
  /\ exists w' : World,
       websocket.DialWithECH
         (sample.recovering (Some "dial tcp: connection refused"%string))
         sample.client 3 sample.loaded
       = Ret ((None, Some "WebSocket连接失败: dial tcp: connection refused"%string),
              w')
       /\ calls (trace w')
          = [CBuild None; CDial (Some "dial tcp: connection refused"%string)].
Proof.
  split.
  - refine (proj1 (DialWithECH_other_failures_are_fatal sample.untrusted
                     sample.client 3 sample.loaded "edge.example.com" "443"
                     "/tunnel" _ _ _)
              "x509: system roots unavailable"%string _ _).
    + vm_compute. reflexivity.
    + lia.
    + vm_compute. discriminate.
    + reflexivity.
    + vm_compute. reflexivity.
  - eexists. split.
    + refine (proj2 (DialWithECH_other_failures_are_fatal
                       (sample.recovering
                          (Some "dial tcp: connection refused"%string))
                       sample.client 3 sample.loaded "edge.example.com" "443"
                       "/tunnel" _ _ _)
                "dial tcp: connection refused"%string _ _ _ _).
      * vm_compute. reflexivity.
      * lia.
      * vm_compute. discriminate.
      * reflexivity.
      * reflexivity.
      * vm_compute. reflexivity.
      * vm_compute. reflexivity.
    + vm_compute. reflexivity.
Defined.

(** X7.  [DialWithECH] returns the error of its last line, "maximum
    number of retries reached", exactly when the server address parses and
    [maxRetries] is zero or negative; it then has called nothing, and the
    last error the message names is [<nil>]. *)
Theorem DialExhausted_only_without_attempts :
  forall (env : Env) (c : websocket.WebSocketClient) (maxRetries : Z)
         (w w' : World) (res : option websocket.Conn * rt.error),
    websocket.DialWithECH env c maxRetries w = Ret (res, w') ->
    ((exists l : rt.error,
         snd res = Some (websocket.errDialExhausted maxRetries l))
     <-> maxRetries <= 0 /\ errOf (websocket.ParseServerAddr c) = None)
    /\ (maxRetries <= 0 -> errOf (websocket.ParseServerAddr c) = None ->
        w' = w
        /\ res = (None, Some (websocket.errDialExhausted maxRetries None))
        /\ websocket.errDialExhausted maxRetries None
           = ("连接失败，已达最大重试次数(" ++ fmt.d maxRetries ++ "): <nil>")%string).
Proof.
  intros env c maxRetries w w' res Hrun.
  assert (Hzero : maxRetries <= 0 ->
                  errOf (websocket.ParseServerAddr c) = None ->
                  w' = w
                  /\ res = (None, Some (websocket.errDialExhausted maxRetries None))).
  { intros Hmax Haddr. unfold websocket.DialWithECH in Hrun.
    destruct (websocket.ParseServerAddr c) as [[[host port] path] | e];
      [|discriminate Haddr].
    replace (Z.to_nat maxRetries) with 0%nat in Hrun by lia.
    cbn [websocket.attempts] in Hrun. unfold ret in Hrun.
    injection Hrun as <- <-. auto. }
  split; [split|].
  - intros (l & Hl).
    destruct (Z.le_gt_cases maxRetries 0) as [Hmax | Hmax].
    + split; [exact Hmax|].
      unfold websocket.DialWithECH in Hrun.
      destruct (websocket.ParseServerAddr c) as [[[host port] path] | e];
        [reflexivity|].
      injection Hrun as <- _. cbn [snd] in Hl.
      unfold websocket.errDialExhausted in Hl. cbn [append] in Hl. congruence.
    + exfalso.
      refine (DialExhausted_needs_no_attempt env c maxRetries w w' res _ Hrun l Hl).
      lia.
  - intros [Hmax Haddr]. destruct (Hzero Hmax Haddr) as [_ ->].
    exists None. reflexivity.
  - intros Hmax Haddr. destruct (Hzero Hmax Haddr) as [-> ->].
    repeat split.
Qed.

Lemma DialExhausted_only_without_attempts_witness :
  exists w' : World,
    websocket.DialWithECH sample.offline sample.client 0 sample.fresh
    = Ret ((None, Some "连接失败，已达最大重试次数(0): <nil>"%string), w')
    /\ w' = sample.fresh.
Proof.
  destruct (websocket.DialWithECH sample.offline sample.client 0 sample.fresh)
    as [[res w']| |] eqn:Hrun.
  - destruct (DialExhausted_only_without_attempts _ _ _ _ _ _ Hrun)
      as [_ H].
    destruct H as (-> & -> & E); [lia | vm_compute; reflexivity |].
    exists sample.fresh. split; [|reflexivity].
    rewrite E. vm_compute. reflexivity.
  - vm_compute in Hrun. discriminate Hrun.
  - vm_compute in Hrun. discriminate Hrun.
Defined.

(** X8.  A client whose store is empty loads it on the way: when the DoH
    server answers with a response from which the resolver returns a value
    [v], the trust store loads, the edge accepts the dial and at least two
    attempts are allowed, [DialWithECH] fails to build the configuration
    once, refreshes, sleeps 500 ms, builds the configuration with [v] and
    connects; the store holds [v] afterwards. *)
Theorem DialWithECH_loads_an_empty_store :
  forall (env : Env) (c : websocket.WebSocketClient) (maxRetries : Z)
         (w : World) (host port path : string) (body v : list byte),
    websocket.ParseServerAddr c = inl (host, port, path) ->
    2 <= maxRetries ->
    echList (manager w) = [] ->
    (forall h, doh env h = Response 200 (inr body)) ->
    ech.parseDNSResponse body = Ret (base64.EncodeToString v, None) ->
    0 < len v ->
    (forall h, SystemCertPool env h = None) ->
    (forall h, dial env h = None) ->
    exists (conn : websocket.Conn) (w' : World) (new : list Event),
      websocket.DialWithECH env c maxRetries w = Ret ((Some conn, None), w')
      /\ trace w' = trace w ++ new
      /\ calls new
         = [CBuild (Some "ECH配置未加载"%string); CRefresh; CSleep 500;
            CBuild None; CDial None]
      /\ echList (manager w') = v
      /\ websocket.dialedURL conn
         = ("wss://" ++ host ++ ":" ++ port ++ path)%string
      /\ TLSClientConfig (websocket.dialedWith conn)
         = {| MinVersion := ech.VersionTLS13; ServerName := host;
              EncryptedClientHelloConfigList := v |}.
Proof.
  intros env c maxRetries w host port path body v Haddr Hmax Hempty Hdoh Hparse
    Hv Hpool Hdial.
  unfold websocket.DialWithECH. rewrite Haddr.
  set (wsURL := ("wss://" ++ host ++ ":" ++ port ++ path)%string).
  destruct (Z.to_nat maxRetries) as [|[|n]] eqn:En; try lia.
  (* first turn: the store is empty *)
  pose proof (attempts_turn env c (S n) 1 maxRetries host wsURL None w) as T.
  cbv zeta in T. rewrite Hempty in T. change (len (@nil byte) =? 0) with true in T.
  replace (1 <? maxRetries) with true in T by (symmetry; apply Z.ltb_lt; lia).
  replace (websocket.isECHConfigError "ECH配置未加载") with true in T
    by (vm_compute; reflexivity).
  cbn [andb errOf] in T. destruct T as (l & T).
  match type of T with
  | context [ech.Refresh env ?w3] =>
      destruct (Refresh_trace env w3) as (rr & w4 & q & Hr & Hp & Htr & Hq);
      destruct (Prepare_succeeds env w3 body v (Hdoh _) Hparse Hv)
        as (w5 & Hp5 & Hm5)
  end.
  rewrite Hp5 in Hp. injection Hp as <- Hw5. subst w5. cbn [manager] in Hm5.
  rewrite Hr in T. rewrite T. clear T.
  assert (Hm4 : echList (manager w4) = v) by (rewrite Hm5; reflexivity).
  (* second turn: the store is loaded *)
  pose proof (attempts_turn env c n (1 + 1) maxRetries host wsURL
                (Some "ECH配置未加载"%string) (after w4 [Sleep 500])) as T.
  cbv zeta in T. cbn [after manager trace] in T. rewrite Hm4 in T.
  replace (len v =? 0) with false in T by (symmetry; apply Z.eqb_neq; lia).
  rewrite Hpool in T. cbn [errOf] in T. rewrite Hdial in T.
  destruct T as (l2 & T). unfold after in T |- *. cbn [manager trace] in T |- *.
  rewrite T. do 3 eexists. split; [reflexivity|].
  cbn [manager trace websocket.dialedURL websocket.dialedWith
       websocket.newDialer TLSClientConfig].
  rewrite Htr. cbn [after manager trace].
  split; [rewrite <- !app_assoc; reflexivity|].
  destruct Hq as (Hqc & _).
  split.
  - rewrite !calls_app, Hqc. reflexivity.
  - repeat split. exact Hm4.
Qed.

Lemma DialWithECH_loads_an_empty_store_witness :
  exists (conn : websocket.Conn) (w' : World),
    websocket.DialWithECH (sample.serving sample.with_ech) sample.client 3
      sample.fresh
    = Ret ((Some conn, None), w')
    /\ echList (manager w') = sample.ech_config
    /\ EncryptedClientHelloConfigList
         (TLSClientConfig (websocket.dialedWith conn)) = sample.ech_config.
Proof.
  destruct (DialWithECH_loads_an_empty_store (sample.serving sample.with_ech)
              sample.client 3 sample.fresh "edge.example.com" "443" "/tunnel"
              (wire.encode sample.with_ech) sample.ech_config)
    as (conn & w' & new & Hrun & _ & _ & Hm & _ & Hcfg).
  - vm_compute. reflexivity.
  - lia.
  - reflexivity.
  - reflexivity.
  - vm_compute. reflexivity.
  - vm_compute. reflexivity.
  - reflexivity.
  - reflexivity.
  - exists conn, w'. split; [exact Hrun|]. split; [exact Hm|].
    rewrite Hcfg. reflexivity.
Defined.

Section DialRetry.

Variable env : Env.
Variable c : websocket.WebSocketClient.

(** A turn of the loop starts with a call of [BuildTLSConfig]. *)
Lemma attempts_starts_with_build (n : nat) (attempt maxRetries : Z)
    (host wsURL : string) (lastErr : rt.error) (w : World) :
  Z.of_nat (S n) = Z.max 0 (maxRetries - attempt + 1) ->
  exists (res : option websocket.Conn * rt.error) (w' : World)
         (r : rt.error) (more : list Event),
    websocket.attempts env c (S n) attempt maxRetries host wsURL lastErr w
    = Ret (res, w')
    /\ trace w' = trace w ++ BuildTLSConfigCall host r :: more.
Proof.
  intros Hn.
  assert (Hnext : attempt < maxRetries ->
                  Z.of_nat n = Z.max 0 (maxRetries - (attempt + 1) + 1))
    by lia.
  pose proof (attempts_turn env c n attempt maxRetries host wsURL lastErr w)
    as T.
  cbv zeta in T.
  set (r := if len (echList (manager w)) =? 0 then _ else _) in T.
  clearbody r.
  assert (Hretry : forall (e : string) (w1 : World) (ms : Z) (pre : list Event),
             attempt < maxRetries ->
             trace w1 = trace w ++ BuildTLSConfigCall host (errOf r) :: pre ->
             (exists l : string,
                 match ech.Refresh env (after w1 [Log l]) with
                 | Ret (_, w3) =>
                     websocket.attempts env c (S n) attempt maxRetries host
                       wsURL lastErr w
                     = websocket.attempts env c n (attempt + 1) maxRetries
                         host wsURL (Some e) (after w3 [Sleep ms])
                 | _ => False
                 end) ->
             exists res w' r' more,
               websocket.attempts env c (S n) attempt maxRetries host wsURL
                 lastErr w = Ret (res, w')
               /\ trace w' = trace w ++ BuildTLSConfigCall host r' :: more).
  { intros e w1 ms pre Hlt Hw1 (l & Hr).
    destruct (Refresh_trace env (after w1 [Log l]))
      as (rr & w3 & q & Hrf & _ & Htr & _).
    rewrite Hrf in Hr. rewrite Hr.
    destruct (attempts_trace env c n (attempt + 1) maxRetries host wsURL
                (Some e) (after w3 [Sleep ms]) (Hnext Hlt))
      as (res & w' & new & -> & Htr' & _).
    exists res, w', (errOf r). eexists. split; [reflexivity|].
    rewrite Htr'. cbn [after trace]. rewrite Htr. cbn [after trace].
    rewrite Hw1. rewrite <- !app_assoc. cbn [app]. reflexivity. }
  destruct r as [tlsCfg | e]; cbv beta iota zeta in T.
  - set (w1 := after w [BuildTLSConfigCall host (errOf (inl tlsCfg))]) in *.
    destruct (dial env (trace w1)) as [de|].
    + destruct ((attempt <? maxRetries)
                && (strings.Contains de "ECH"
                    || strings.Contains de "encrypted")) eqn:Eretry.
      * apply andb_true_iff in Eretry as [Hlt _]. apply Z.ltb_lt in Hlt.
        refine (Hretry de _ 1000 _ Hlt _ T). unfold w1. cbn [after trace].
        rewrite <- app_assoc. reflexivity.
      * rewrite T. do 4 eexists. split; [reflexivity|].
        unfold w1. cbn [after trace]. rewrite <- app_assoc. reflexivity.
    + destruct T as (l & ->). do 4 eexists. split; [reflexivity|].
      unfold w1. cbn [after trace]. rewrite <- !app_assoc. reflexivity.
  - destruct ((attempt <? maxRetries) && websocket.isECHConfigError e)
      eqn:Eretry.
    + apply andb_true_iff in Eretry as [Hlt _]. apply Z.ltb_lt in Hlt.
      refine (Hretry e _ 500 [] Hlt _ T). reflexivity.
    + rewrite T. do 4 eexists. split; reflexivity.
Qed.

(** X20.  A dial error whose text holds "ECH" or "encrypted", on an attempt
    that is not the last, does not end [DialWithECH]: with a loaded store
    and a trust store that loads, the first turn builds the configuration,
    dials, logs the failure, calls [Refresh], whose outcome it ignores,
    sleeps 1 s, and the next turn starts with [BuildTLSConfig] again. *)
Theorem DialWithECH_retries_an_ECH_dial_error :
  forall (maxRetries : Z) (w : World) (host port path e : string),
    websocket.ParseServerAddr c = inl (host, port, path) ->
    2 <= maxRetries ->
    echList (manager w) <> [] ->
    SystemCertPool env (trace w) = None ->
    dial env (trace w ++ [BuildTLSConfigCall host None]) = Some e ->
    strings.Contains e "ECH" || strings.Contains e "encrypted" = true ->
    let wsURL := ("wss://" ++ host ++ ":" ++ port ++ path)%string in
    let tlsCfg := {| MinVersion := ech.VersionTLS13; ServerName := host;
                     EncryptedClientHelloConfigList := echList (manager w) |} in
    exists (res : option websocket.Conn * rt.error) (w' : World)
           (line : string) (q more : list Event)
           (refreshErr buildErr : rt.error),
      websocket.DialWithECH env c maxRetries w = Ret (res, w')
      /\ trace w'
         = trace w
             ++ [BuildTLSConfigCall host None;
                 Dial (websocket.newDialer c tlsCfg) wsURL (Some e);
                 Log line]
             ++ q
             ++ [RefreshCall refreshErr; Sleep 1000;
                 BuildTLSConfigCall host buildErr]
             ++ more
      /\ calls q = [].
Proof.
  intros maxRetries w host port path e Haddr Hmax Hech Hpool Hdial Hmark
    wsURL tlsCfg.
  unfold websocket.DialWithECH. rewrite Haddr. fold wsURL.
  destruct (Z.to_nat maxRetries) as [|[|n]] eqn:En; try lia.
  pose proof (attempts_turn env c (S n) 1 maxRetries host wsURL None w) as T.
  cbv zeta in T.
  replace (len (echList (manager w)) =? 0) with false in T.
  2:{ symmetry. apply Z.eqb_neq. destruct (echList (manager w));
        [congruence|]. rewrite len_cons. pose proof (len_nonneg l). lia. }
  rewrite Hpool in T. cbn [errOf] in T. fold tlsCfg in T.
  cbn [after trace] in T. rewrite Hdial in T. rewrite Hmark in T.
  replace (1 <? maxRetries) with true in T by (symmetry; apply Z.ltb_lt; lia).
  cbn [andb] in T. destruct T as (l & T).
  match type of T with
  | context [ech.Refresh env ?w3] =>
      destruct (Refresh_trace env w3) as (rr & w4 & q & Hr & _ & Htr & Hq & _)
  end.
  rewrite Hr in T. rewrite T. clear T.
  destruct (attempts_starts_with_build n (1 + 1) maxRetries host wsURL
              (Some e) (after w4 [Sleep 1000]) ltac:(lia))
    as (res & w' & r & more & -> & Htr').
  exists res, w', l, q, more, rr, r. split; [reflexivity|].
  split; [|exact Hq].
  rewrite Htr'. cbn [after trace]. rewrite Htr. cbn [after trace].
  rewrite <- !app_assoc. cbn [app]. reflexivity.
Qed.

End DialRetry.

Lemma DialWithECH_retries_an_ECH_dial_error_witness :
  exists (res : option websocket.Conn * rt.error) (w' : World),
    websocket.DialWithECH sample.rejecting sample.client 2 sample.loaded
    = Ret (res, w')
    /\ calls (trace w')
       = [CBuild None; CDial (Some "tls: server rejected ECH"%string);
          CRefresh; CSleep 1000;
          CBuild None; CDial (Some "tls: server rejected ECH"%string)].
Proof.
  destruct (DialWithECH_retries_an_ECH_dial_error sample.rejecting
              sample.client 2 sample.loaded "edge.example.com" "443" "/tunnel"
              "tls: server rejected ECH")
    as (res & w' & l & q & more & rr & r & Hrun & _).
  - vm_compute. reflexivity.
  - lia.
  - vm_compute. discriminate.
  - reflexivity.
  - reflexivity.
  - vm_compute. reflexivity.
  - exists res, w'. split; [exact Hrun|].
    vm_compute in Hrun. injection Hrun as _ <-. vm_compute. reflexivity.
Defined.

(** ** The server address *)

Section ServerAddr.

Import websocket.
Local Open Scope string_scope.
Local Open Scope Z_scope.

Lemma eqb_append_nonempty (a b : string) :
  a <> "" -> String.eqb (a ++ b) "" = false.
Proof. destruct a; [congruence | reflexivity]. Qed.

(** X9.  [ParseServerAddr] splits [host:port] into the host, the port and
    the path [/], and [host:port/rest] into the host, the port and the path
    [/rest], for a host and a port that are not empty and hold none of [:],
    [/], [[] and []]; the path may hold anything. *)
Theorem ParseServerAddr_splits :
  forall (c : WebSocketClient) (host port : string),
    plainPart host = true -> plainPart port = true ->
    host <> "" -> port <> "" ->
    (serverAddr c = host ++ ":" ++ port ->
     ParseServerAddr c = inl (host, port, "/"))
    /\ (forall rest : string,
           serverAddr c = host ++ ":" ++ port ++ "/" ++ rest ->
           ParseServerAddr c = inl (host, port, "/" ++ rest)).
Proof.
  intros c host port Hh Hp Hhne Hpne.
  assert (Hsplit : net.SplitHostPort (host ++ ":" ++ port) = inl (host, port))
    by (apply SplitHostPort_plain; assumption).
  assert (Hne : String.eqb host "" || String.eqb port "" = false).
  { destruct host; [congruence|]. destruct port; [congruence|]. reflexivity. }
  assert (Hslash : strings.IndexByte (host ++ ":" ++ port) "/" = -1).
  { apply IndexByte_absent_app; [apply plainPart_spec; auto|].
    cbn [append strings.IndexByte]. cbn [Ascii.eqb Bool.eqb].
    rewrite (plainPart_spec port "/" Hp) by auto. reflexivity. }
  split.
  - intros Haddr. unfold ParseServerAddr. rewrite Haddr.
    rewrite eqb_append_nonempty by exact Hhne.
    rewrite Index_char, Hslash. rewrite Z.eqb_refl. cbn [negb].
    rewrite (eqb_append_nonempty host _ Hhne), Hsplit, Hne. reflexivity.
  - intros rest Haddr. unfold ParseServerAddr. rewrite Haddr.
    rewrite eqb_append_nonempty by exact Hhne.
    replace (host ++ ":" ++ port ++ "/" ++ rest)
      with ((host ++ ":" ++ port) ++ "/" ++ rest)
      by (rewrite !append_assoc; reflexivity).
    rewrite Index_char, (IndexByte_app _ _ "/" Hslash).
    cbn [append]. rewrite IndexByte_head. cbn [Z.ltb Z.compare].
    rewrite Z.add_0_r.
    replace (Z.of_nat (String.length (host ++ String ":" port)) =? -1)
      with false by (symmetry; apply Z.eqb_neq; lia).
    cbn [negb].
    replace (Z.of_nat (String.length (host ++ String ":" port))
             <? Z.of_nat (String.length
                            ((host ++ String ":" port) ++ String "/" rest)))
      with true
      by (symmetry; apply Z.ltb_lt; rewrite (length_append _ (String "/" rest));
          cbn [String.length]; lia).
    rewrite from_app, sub_app.
    rewrite eqb_append_nonempty by exact Hhne.
    cbn [append] in Hsplit. rewrite Hsplit, Hne. reflexivity.
Qed.

Lemma ParseServerAddr_splits_witness :
  ParseServerAddr {| serverAddr := "edge.example.com:8443/tunnel/v1";
                     token := ""; serverIP := "" |}
  = inl ("edge.example.com", "8443", "/tunnel/v1").
Proof.
  refine (proj2 (ParseServerAddr_splits
                   {| serverAddr := "edge.example.com:8443/tunnel/v1";
                      token := ""; serverIP := "" |}
                   "edge.example.com" "8443" _ _ _ _) "tunnel/v1" _).
  - reflexivity.
  - reflexivity.
  - discriminate.
  - discriminate.
  - reflexivity.
Defined.

(** X10.  When [ParseServerAddr] succeeds the host and the port are not
    empty, they are what [net.SplitHostPort] makes of the part of the
    address before its first slash, and the path is the rest of the address
    from that slash on, or [/] when the address has no slash. *)
Theorem ParseServerAddr_result :
  forall (c : WebSocketClient) (host port path : string),
    ParseServerAddr c = inl (host, port, path) ->
    host <> "" /\ port <> ""
    /\ exists hostport : string,
         net.SplitHostPort hostport = inl (host, port)
         /\ strings.IndexByte hostport "/" = -1
         /\ ((serverAddr c = hostport /\ path = "/")
             \/ (serverAddr c = hostport ++ path
                 /\ strings.HasPrefix path "/" = true)).
Proof.
  intros c host port path. unfold ParseServerAddr.
  destruct (String.eqb (serverAddr c) ""); [discriminate|].
  rewrite Index_char.
  assert (Hfinish : forall hp pa,
             (if String.eqb hp "" then inr "服务器地址格式错误"
              else match net.SplitHostPort hp with
                   | inl (host, port) =>
                       if String.eqb host "" || String.eqb port ""
                       then inr ("无效的服务器地址格式: " ++ fmt.v None)
                       else inl (host, port, pa)
                   | inr e => inr ("无效的服务器地址格式: " ++ e)
                   end) = inl (host, port, path) ->
             host <> "" /\ port <> "" /\ pa = path
             /\ net.SplitHostPort hp = inl (host, port)).
  { intros hp pa. destruct (String.eqb hp ""); [discriminate|].
    destruct (net.SplitHostPort hp) as [[h p]|e]; [|discriminate].
    destruct (String.eqb_spec h ""); [discriminate|].
    destruct (String.eqb_spec p ""); [discriminate|].
    cbn [orb]. intros [= -> -> ->]. auto. }
  destruct (IndexByte_range (serverAddr c) "/") as [E | H].
  - rewrite E, Z.eqb_refl. cbn [negb]. intros Hr.
    destruct (Hfinish _ _ Hr) as (Hh & Hp & <- & Hs).
    split; [exact Hh|]. split; [exact Hp|].
    exists (serverAddr c). auto.
  - destruct (IndexByte_cut (serverAddr c) "/") as (a & b & Hab & Ha & Hi);
      [lia|].
    rewrite Hi.
    replace (Z.of_nat (String.length a) =? -1) with false
      by (symmetry; apply Z.eqb_neq; lia).
    cbn [negb].
    replace (Z.of_nat (String.length a)
             <? Z.of_nat (String.length (serverAddr c))) with true
      by (symmetry; apply Z.ltb_lt; lia).
    rewrite Hab, from_app, sub_app. intros Hr.
    destruct (Hfinish _ _ Hr) as (Hh & Hp & <- & Hs).
    split; [exact Hh|]. split; [exact Hp|].
    exists a. split; [exact Hs|]. split; [exact Ha|]. right.
    split; [reflexivity|]. unfold strings.HasPrefix. cbn [String.prefix].
    apply prefix_nil.
Qed.

Lemma ParseServerAddr_result_witness :
  exists hostport : string,
    net.SplitHostPort hostport = inl ("edge.example.com", "443")
    /\ serverAddr sample.client = hostport ++ "/tunnel".
Proof.
  destruct (ParseServerAddr_result sample.client "edge.example.com" "443"
              "/tunnel") as (_ & _ & hp & Hs & _ & [[_ H] | [H _]]).
  - vm_compute. reflexivity.
  - vm_compute in H. discriminate H.
  - exists hp. split; [exact Hs | exact H].
Defined.

(** X11.  An address [ParseServerAddr] refuses makes [DialWithECH] return
    the wrapped error without any call and without touching the store.
    Refused are the empty address, an address that starts with a slash, an
    address without a colon before its first slash (missing port), and an
    address whose host or port is empty, for which the message ends in
    [<nil>] because the error that is wrapped is nil. *)
Theorem invalid_server_address_is_refused :
  forall (env : Env) (c : WebSocketClient) (maxRetries : Z) (w : World),
    (forall e : string,
        ParseServerAddr c = inr e ->
        DialWithECH env c maxRetries w
        = Ret ((None, Some ("解析服务器地址失败: " ++ e)), w))
    /\ (serverAddr c = "" -> ParseServerAddr c = inr "服务器地址为空")
    /\ (forall rest : string,
           serverAddr c = "/" ++ rest ->
           ParseServerAddr c = inr "服务器地址格式错误")
    /\ (forall hostport rest : string,
           hostport <> "" ->
           strings.IndexByte hostport ":" = -1 ->
           strings.IndexByte hostport "/" = -1 ->
           serverAddr c = hostport \/ serverAddr c = hostport ++ "/" ++ rest ->
           ParseServerAddr c
           = inr ("无效的服务器地址格式: address " ++ hostport
                    ++ ": missing port in address"))
    /\ (forall part : string,
           plainPart part = true ->
           serverAddr c = ":" ++ part \/ serverAddr c = part ++ ":" ->
           ParseServerAddr c = inr "无效的服务器地址格式: <nil>").
Proof.
  intros env c maxRetries w.
  split; [|split; [|split; [|split]]].
  - intros e He. unfold DialWithECH. rewrite He. reflexivity.
  - intros H. unfold ParseServerAddr. rewrite H. reflexivity.
  - intros rest H. unfold ParseServerAddr. rewrite H.
    cbn [append String.eqb]. rewrite Index_char, IndexByte_head.
    change (0 =? -1) with false. cbn [negb].
    change (strings.sub (String "/" rest) 0 0) with "". reflexivity.
  - intros hp rest Hne Hcolon Hslash Haddr.
    unfold ParseServerAddr. rewrite Index_char.
    destruct Haddr as [-> | ->].
    + destruct (String.eqb_spec hp ""); [contradiction|].
      rewrite Hslash. rewrite Z.eqb_refl. cbn [negb].
      destruct (String.eqb_spec hp ""); [contradiction|].
      rewrite (SplitHostPort_no_colon hp Hcolon). unfold net.AddrError.
      destruct (String.eqb_spec hp ""); [contradiction | reflexivity].
    + rewrite eqb_append_nonempty by exact Hne.
      rewrite (IndexByte_app _ _ "/" Hslash). cbn [append].
      rewrite IndexByte_head. cbn [Z.ltb Z.compare]. rewrite Z.add_0_r.
      replace (Z.of_nat (String.length hp) =? -1) with false
        by (symmetry; apply Z.eqb_neq; lia).
      cbn [negb]. rewrite sub_app.
      destruct (String.eqb_spec hp ""); [contradiction|].
      rewrite (SplitHostPort_no_colon hp Hcolon). unfold net.AddrError.
      destruct (String.eqb_spec hp ""); [contradiction | reflexivity].
  - intros part Hpart Haddr.
    assert (Hslash : forall s, s = ":" ++ part \/ s = part ++ ":" ->
                               strings.IndexByte s "/" = -1).
    { intros s [-> | ->].
      - cbn [append strings.IndexByte]. cbn [Ascii.eqb Bool.eqb].
        rewrite (plainPart_spec part "/" Hpart) by auto. reflexivity.
      - apply IndexByte_absent_app; [apply plainPart_spec; auto | reflexivity]. }
    unfold ParseServerAddr. rewrite Index_char, (Hslash _ Haddr).
    rewrite Z.eqb_refl. cbn [negb].
    destruct Haddr as [-> | ->].
    + pose proof (SplitHostPort_plain "" part eq_refl Hpart) as Hs.
      cbn [append] in Hs |- *. cbn [String.eqb]. rewrite Hs. reflexivity.
    + replace (String.eqb (part ++ ":") "") with false
        by (destruct part; reflexivity).
      rewrite (SplitHostPort_plain part "" Hpart eq_refl).
      rewrite orb_true_r. reflexivity.
Qed.

Lemma invalid_server_address_is_refused_witness :
  ParseServerAddr {| serverAddr := "edge.example.com/tunnel";
                     token := ""; serverIP := "" |}
  = inr "无效的服务器地址格式: address edge.example.com: missing port in address"
  /\ ParseServerAddr {| serverAddr := ":443"; token := ""; serverIP := "" |}
     = inr "无效的服务器地址格式: <nil>".
Proof.
  split.
  - destruct (invalid_server_address_is_refused sample.offline
                {| serverAddr := "edge.example.com/tunnel";
                   token := ""; serverIP := "" |} 3 sample.fresh)
      as (_ & _ & _ & H & _).
    apply (H "edge.example.com" "tunnel").
    + discriminate.
    + reflexivity.
    + reflexivity.
    + right. reflexivity.
  - destruct (invalid_server_address_is_refused sample.offline
                {| serverAddr := ":443"; token := ""; serverIP := "" |} 3
                sample.fresh)
      as (_ & _ & _ & _ & H).
    apply (H "443"); [reflexivity | left; reflexivity].
Defined.



End ServerAddr.

(** ** The outbound sockets of a session *)

Section SocketCounts.

Import worker.


Lemma connects_app (a b : list Effect) :
  connects (a ++ b) = connects a ++ connects b.
Proof. apply flat_map_app. Qed.

Lemma closes_app (k : nat) (a b : list Effect) :
  closes k (a ++ b) = (closes k a + closes k b)%nat.
Proof. unfold closes. rewrite filter_app. apply length_app. Qed.

End SocketCounts.

Ltac effects_counts :=
  rewrite ?connects_app, ?closes_app;
  cbn [worker.connects worker.closes flat_map filter List.length app];
  rewrite ?app_nil_r, ?Nat.add_0_r.

Section Sockets.

Import worker.

(** One connect attempt on an open session: it calls [connect] once and
    closes nothing; it ends connected, with the three handles on the socket
    it opened, or throws, having opened that socket or not. *)
Lemma attempt_facts (h : string) (p : Z) (f : string) (o : AttemptOutcome)
    (s : Session) :
  isClosed s = false ->
  let r := attempt h p f o s in
  let s1 := match r with Normal s1 | Throw _ s1 => s1 end in
  connects (effects s1) = connects (effects s) ++ [(h, p)]
  /\ (forall k, closes k (effects s1) = closes k (effects s))
  /\ isClosed s1 = false
  /\ readyState s1 = readyState s
  /\ connectionAttempts s1 = connectionAttempts s
  /\ match r with
     | Normal _ =>
         thrown o f = None
         /\ remoteSocket s1 = Some (opened s)
         /\ remoteWriter s1 = Some (opened s)
         /\ remoteReader s1 = Some (opened s)
         /\ opened s1 = S (opened s)
         /\ pump s1 = AwaitRead /\ isConnecting s1 = false
     | Throw m _ =>
         thrown o f = Some m
         /\ pump s1 = pump s
         /\ ((remoteSocket s1 = remoteSocket s /\ opened s1 = opened s)
             \/ (remoteSocket s1 = Some (opened s)
                 /\ opened s1 = S (opened s)))
         /\ (remoteWriter s1 = remoteWriter s
             \/ remoteWriter s1 = remoteSocket s1)
         /\ (remoteReader s1 = remoteReader s
             \/ remoteReader s1 = remoteSocket s1)
     end.
Proof.
  intros Hc. destruct s as [k w r cl cg a rs pm op ef]. fields. subst cl.
  unfold attempt.
  destruct o as [|st m]; [|destruct st]; cbn [fails stage_eqb thrown]; fields;
    destruct (String.eqb f ""); fields;
    unfold pumpLoop, pumpFinish; fields; cbn [negb]; fields;
    (split; [rewrite <- ?app_assoc; effects_counts; reflexivity|]);
    (split; [intros j; rewrite <- ?app_assoc; effects_counts; reflexivity|]);
    repeat split; auto.
Qed.

Lemma releaseHandles_facts (s : Session) :
  let s1 := releaseHandles s in
  remoteSocket s1 = None /\ remoteWriter s1 = None /\ remoteReader s1 = None
  /\ connects (effects s1) = connects (effects s)
  /\ (forall k, closes k (effects s1)
                = (closes k (effects s)
                   + match remoteSocket s with
                     | Some j => if Nat.eqb j k then 1 else 0
                     | None => 0
                     end)%nat)
  /\ isClosed s1 = isClosed s /\ readyState s1 = readyState s
  /\ connectionAttempts s1 = connectionAttempts s
  /\ pump s1 = pump s /\ opened s1 = opened s
  /\ isConnecting s1 = isConnecting s.
Proof.
  destruct s as [k w r cl cg a rs pm op ef]. unfold releaseHandles. fields.
  destruct w, r, k; fields;
    (split; [reflexivity|]); (split; [reflexivity|]); (split; [reflexivity|]);
    (split; [rewrite <- ?app_assoc; effects_counts; reflexivity|]);
    (split; [|repeat split; reflexivity]);
    intros j; rewrite <- ?app_assoc; effects_counts;
    try destruct (Nat.eqb _ j); cbn [List.length]; lia.
Qed.


(** A failed attempt and the release of the handles that follows it: the
    socket the attempt opened, if it opened one, is closed, once. *)
Lemma failed_attempt_facts (h : string) (p : Z) (f : string)
    (o : AttemptOutcome) (s s1 : Session) (m : string) :
  isClosed s = false -> remoteSocket s = None ->
  attempt h p f o s = Throw m s1 ->
  let s2 := releaseHandles s1 in
  thrown o f = Some m
  /\ remoteSocket s2 = None /\ remoteWriter s2 = None /\ remoteReader s2 = None
  /\ connects (effects s2) = connects (effects s) ++ [(h, p)]
  /\ (opened s <= opened s2 <= S (opened s))%nat
  /\ (forall k, closes k (effects s2)
                = (closes k (effects s)
                   + if (opened s <=? k)%nat && (k <? opened s2)%nat
                     then 1 else 0)%nat)
  /\ isClosed s2 = false /\ readyState s2 = readyState s
  /\ connectionAttempts s2 = connectionAttempts s
  /\ pump s2 = pump s /\ isConnecting s2 = isConnecting s1.
Proof.
  intros Hc Hk Hatt s2.
  pose proof (attempt_facts h p f o s Hc) as F. cbv zeta in F.
  rewrite Hatt in F.
  destruct F as (Hcon & Hcl & Hc1 & Hrs & Ha & Hth & Hp & Hsock & _ & _).
  destruct (releaseHandles_facts s1)
    as (Hk2 & Hw2 & Hr2 & Hcon2 & Hcl2 & Hc2 & Hrs2 & Ha2 & Hp2 & Ho2 & Hg2).
  fold s2 in Hk2, Hw2, Hr2, Hcon2, Hcl2, Hc2, Hrs2, Ha2, Hp2, Ho2, Hg2.
  repeat split; try congruence.
  - rewrite Ho2. destruct Hsock as [[_ ->] | [_ ->]]; lia.
  - rewrite Ho2. destruct Hsock as [[_ ->] | [_ ->]]; lia.
  - intros k. rewrite Hcl2, Hcl, Ho2. f_equal.
    destruct Hsock as [[-> ->] | [-> ->]]; rewrite ?Hk.
    + replace ((opened s <=? k)%nat && (k <? opened s)%nat) with false;
        [reflexivity|].
      symmetry. apply andb_false_iff.
      destruct (Nat.leb_spec (opened s) k); [right | left; reflexivity].
      apply Nat.ltb_ge. lia.
    + destruct (Nat.eqb_spec (opened s) k) as [<-|N].
      * rewrite Nat.leb_refl.
        replace (opened s <? S (opened s))%nat with true
          by (symmetry; apply Nat.ltb_lt; lia).
        reflexivity.
      * replace ((opened s <=? k)%nat && (k <? S (opened s))%nat) with false;
          [reflexivity|].
        symmetry. apply andb_false_iff.
        destruct (Nat.leb_spec (opened s) k); [right | left; reflexivity].
        apply Nat.ltb_ge. lia.
Qed.

(** [connectToRemote] on an open session that is neither connected nor
    connecting. *)
Lemma connect_facts (targetAddr f proxyIP : string)
    (io : nat -> AttemptOutcome) (s : Session) :
  isClosed s = false -> isConnecting s = false -> remoteSocket s = None ->
  let original := parseAddress targetAddr in
  let fallback := parseAddress proxyIP in
  let retry :=
    match thrown (io 0%nat) f with
    | Some m => isCFError m && negb (String.eqb proxyIP "")
    | None => false
    end in
  let r := connectToRemote targetAddr f proxyIP io s in
  let s' := match r with Normal s' | Throw _ s' => s' end in
  connects (effects s')
  = connects (effects s)
      ++ (host original, port original)
      :: (if retry then [(host fallback, port fallback)] else [])
  /\ (opened s <= opened s' <= opened s + if retry then 2 else 1)%nat
  /\ isClosed s' = false /\ readyState s' = readyState s
  /\ isConnecting s' = false
  /\ match r with
     | Normal _ =>
         (if retry then thrown (io 1%nat) f else thrown (io 0%nat) f) = None
         /\ pump s' = AwaitRead /\ connectionAttempts s' = 0
         /\ exists k : nat,
              remoteSocket s' = Some k /\ remoteWriter s' = Some k
              /\ remoteReader s' = Some k /\ opened s' = S k
              /\ forall j, closes j (effects s')
                           = (closes j (effects s)
                              + if (opened s <=? j)%nat && (j <? k)%nat
                                then 1 else 0)%nat
     | Throw m _ =>
         (if retry then thrown (io 1%nat) f else thrown (io 0%nat) f) = Some m
         /\ pump s' = pump s
         /\ remoteSocket s' = None /\ remoteWriter s' = None
         /\ remoteReader s' = None
         /\ forall j, closes j (effects s')
                      = (closes j (effects s)
                         + if (opened s <=? j)%nat && (j <? opened s')%nat
                           then 1 else 0)%nat
     end.
Proof.
  intros Hc Hg Hk original fallback retry r s'.
  subst s' r retry. unfold connectToRemote.
  rewrite Hg, Hk. cbn [orb].
  set (s0 := setConnectionAttempts 0 (setIsConnecting true s)).
  assert (Hc0 : isClosed s0 = false) by exact Hc.
  assert (Hk0 : remoteSocket s0 = None) by exact Hk.
  fold original.
  rewrite tryAttempts_cons.
  pose proof (attempt_facts (host original) (port original) f (io 0%nat) s0 Hc0)
    as F.
  cbv zeta in F.
  destruct (attempt (host original) (port original) f (io 0%nat) s0)
    as [s1 | m s1] eqn:Hatt.
  - (* the first attempt connects *)
    destruct F as (Hcon & Hcl & Hc1 & Hrs & Ha & Hth & Hk1 & Hw1 & Hr1 & Ho1
                   & Hp1 & Hg1).
    rewrite Hth. cbv iota.
    split; [exact Hcon|]. split; [rewrite Ho1; cbn; lia|].
    split; [exact Hc1|]. split; [exact Hrs|]. split; [exact Hg1|].
    split; [reflexivity|]. split; [exact Hp1|]. split; [exact Ha|].
    exists (opened s). repeat split; try assumption.
    intros j. rewrite Hcl.
    replace ((opened s <=? j)%nat && (j <? opened s)%nat) with false;
      [change (effects s0) with (effects s); lia|].
    symmetry. apply andb_false_iff.
    destruct (Nat.leb_spec (opened s) j); [right | left; reflexivity].
    apply Nat.ltb_ge. lia.
  - (* the first attempt throws *)
    clear F.
    destruct (failed_attempt_facts _ _ _ _ _ _ _ Hc0 Hk0 Hatt)
      as (Hth & Hk2 & Hw2 & Hr2 & Hcon2 & Ho2 & Hcl2 & Hc2 & Hrs2 & Ha2 & Hp2
          & _).
    cbv zeta in *. rewrite Hth. cbv iota.
    set (s2 := releaseHandles s1) in *.
    destruct (String.eqb proxyIP "") eqn:Eproxy.
    + (* no fallback to try *)
      rewrite orb_true_r, andb_false_r. cbv iota.
      fields.
      split; [exact Hcon2|]. split; [cbn in Ho2 |- *; lia|].
      split; [exact Hc2|]. split; [exact Hrs2|]. split; [reflexivity|].
      repeat split; assumption.
    + cbn [negb]. rewrite andb_true_r.
      destruct (isCFError m) eqn:Ecf; cbn [negb orb].
      2:{ fields.
          split; [exact Hcon2|]. split; [cbn in Ho2 |- *; lia|].
          split; [exact Hc2|]. split; [exact Hrs2|]. split; [reflexivity|].
          repeat split; assumption. }
      (* the fallback *)
      rewrite tryAttempts_cons. fold fallback. cbv beta iota zeta.
      pose proof (attempt_facts (host fallback) (port fallback) f (io 1%nat) s2
                    Hc2) as F.
      cbv zeta in F.
      destruct (attempt (host fallback) (port fallback) f (io 1%nat) s2)
        as [s3 | m3 s3] eqn:Hatt3.
      * destruct F as (Hcon & Hcl & Hc3 & Hrs & Ha & Hth3 & Hk3 & Hw3 & Hr3
                       & Ho3 & Hp3 & Hg3).
        split; [rewrite Hcon, Hcon2, <- app_assoc; reflexivity|].
        split; [rewrite Ho3; cbn in Ho2 |- *; lia|].
        split; [exact Hc3|]. split; [rewrite Hrs, Hrs2; reflexivity|].
        split; [exact Hg3|].
        split; [exact Hth3|]. split; [exact Hp3|].
        split; [rewrite Ha; exact Ha2|].
        exists (opened s2). repeat split; try assumption.
        intros j. rewrite Hcl, Hcl2. reflexivity.
      * clear F.
        destruct (failed_attempt_facts _ _ _ _ _ _ _ Hc2 Hk2 Hatt3)
          as (Hth3 & Hk4 & Hw4 & Hr4 & Hcon4 & Ho4 & Hcl4 & Hc4 & Hrs4 & Ha4
              & Hp4 & _).
        cbv zeta in *. rewrite orb_true_r. cbv iota. fields.
        set (s4 := releaseHandles s3) in *.
        change (opened s0) with (opened s) in Ho2.
        split; [rewrite Hcon4, Hcon2, <- app_assoc; reflexivity|].
        split; [lia|].
        split; [exact Hc4|]. split; [rewrite Hrs4, Hrs2; reflexivity|].
        split; [reflexivity|].
        split; [exact Hth3|]. split; [rewrite Hp4, Hp2; reflexivity|].
        repeat split; try assumption.
        intros j. rewrite Hcl4, Hcl2.
        change (opened s0) with (opened s).
        change (effects s0) with (effects s).
        destruct (Nat.leb_spec (opened s) j), (Nat.ltb_spec j (opened s2)),
          (Nat.leb_spec (opened s2) j), (Nat.ltb_spec j (opened s4));
          cbn [andb]; lia.
Qed.

End Sockets.

Section SocketInvariant.

Import worker.













End SocketInvariant.

Section SessionSockets.

Import worker.



End SessionSockets.

(** ** Frames of the peer *)

Section Frames.

Import worker.
Local Open Scope string_scope.
Local Open Scope Z_scope.

Lemma split_bar (a t : string) :
  indexOf a "|" = -1 ->
  split (Ascii.eqb "|") (a ++ String "|" t) = a :: split (Ascii.eqb "|") t.
Proof.
  unfold indexOf. induction a as [|x a IH]; intros Ha.
  - reflexivity.
  - cbn [strings.IndexByte] in Ha. cbn [append split].
    rewrite Ascii.eqb_sym. destruct (Ascii.eqb x "|"); [discriminate|].
    destruct (IndexByte_range a "|") as [E | H].
    + rewrite (IH E). reflexivity.
    + replace (strings.IndexByte a "|" <? 0) with false in Ha
        by (symmetry; apply Z.ltb_ge; lia).
      lia.
Qed.

Lemma split_no_bar (a : string) :
  indexOf a "|" = -1 -> split (Ascii.eqb "|") a = [a].
Proof.
  unfold indexOf. induction a as [|x a IH]; intros Ha; [reflexivity|].
  cbn [strings.IndexByte] in Ha. cbn [split].
  rewrite Ascii.eqb_sym. destruct (Ascii.eqb x "|"); [discriminate|].
  destruct (IndexByte_range a "|") as [E | H].
  - rewrite (IH E). reflexivity.
  - replace (strings.IndexByte a "|" <? 0) with false in Ha
      by (symmetry; apply Z.ltb_ge; lia).
    lia.
Qed.

Lemma substringFrom_app (a b : string) :
  substringFrom (a ++ b) (Z.of_nat (String.length a)) = b.
Proof.
  unfold substringFrom, substring. rewrite length_append, Nat2Z.id.
  replace (Z.to_nat (Z.max (Z.of_nat (String.length a))
                       (Z.of_nat (String.length a + String.length b))
                     - Z.of_nat (String.length a)))
    with (String.length b) by lia.
  apply substring_app_r.
Qed.

(** The three fields of a [CONNECT] frame. *)
Lemma connect_frame (target f proxy : string) :
  indexOf target "|" = -1 -> indexOf f "|" = -1 -> indexOf proxy "|" = -1 ->
  let parts :=
    split (Ascii.eqb "|") ("CONNECT:" ++ target ++ "|" ++ f ++ "|" ++ proxy) in
  substringFrom (nth 0 parts "") 8 = target
  /\ nth 1 parts "" = f /\ nth 2 parts "" = proxy.
Proof.
  intros Ht Hf Hp parts.
  assert (Hparts : parts = ["CONNECT:" ++ target; f; proxy]).
  { unfold parts.
    replace ("CONNECT:" ++ target ++ "|" ++ f ++ "|" ++ proxy)
      with (("CONNECT:" ++ target) ++ String "|" (f ++ String "|" proxy))
      by (rewrite append_assoc; reflexivity).
    rewrite split_bar.
    - rewrite (split_bar f proxy Hf), (split_no_bar proxy Hp). reflexivity.
    - unfold indexOf in *. apply IndexByte_absent_app; [reflexivity | exact Ht]. }
  rewrite Hparts. cbn [nth]. repeat split.
  exact (substringFrom_app "CONNECT:" target).
Qed.

(** X14.  On an open session that is neither connected nor connecting, a
    frame [CONNECT:target|first|proxy] whose first attempt goes through
    connects to the host and the port [parseAddress] reads from the target,
    takes the writer and the reader, writes the first frame if it is not
    empty, only then reports [CONNECTED], and starts the pump with a first
    read; the session holds the new socket and is no longer connecting. *)
Theorem connect_frame_opens_the_relay :
  forall (s : Session) (io : IO) (target f proxy : string),
    isClosed s = false -> isConnecting s = false -> remoteSocket s = None ->
    target <> "" ->
    indexOf target "|" = -1 -> indexOf f "|" = -1 -> indexOf proxy "|" = -1 ->
    thrown (attemptOutcome io 0%nat) f = None ->
    let s' := step s (Message (Text ("CONNECT:" ++ target ++ "|" ++ f
                                       ++ "|" ++ proxy)) io) in
    let k := opened s in
    effects s'
    = (effects s
         ++ [SocketConnect (host (parseAddress target))
               (port (parseAddress target));
             GetWriter k; GetReader k]
         ++ (if String.eqb f "" then [] else [WriterWrite k (encode f)])
         ++ [WsSend (Text "CONNECTED"); ReaderRead k])%list
    /\ remoteSocket s' = Some k /\ remoteWriter s' = Some k
    /\ remoteReader s' = Some k
    /\ isClosed s' = false /\ isConnecting s' = false /\ pump s' = AwaitRead
    /\ connectionAttempts s' = 0.
Proof.
  intros s io target f proxy Hc Hg Hk Hne Ht Hf Hp Hth s' k.
  destruct (connect_frame target f proxy Ht Hf Hp) as (E0 & E1 & E2).
  cbv zeta in E0, E1, E2.
  unfold s'. cbn [step]. unfold onMessage. rewrite Hc.
  cbn [handle].
  replace (startsWith ("CONNECT:" ++ target ++ "|" ++ f ++ "|" ++ proxy)
             "CONNECT:") with true
    by (symmetry; unfold startsWith; apply (prefix_append "CONNECT:")).
  rewrite E0, E1, E2.
  destruct (String.eqb_spec target ""); [contradiction|].
  unfold connectToRemote. rewrite Hg, Hk. cbn [orb].
  rewrite tryAttempts_cons. cbv beta iota zeta.
  destruct s as [sk w r cl cg a rs pm op ef]. fields. subst cl cg sk.
  unfold k, attempt. fields.
  destruct (attemptOutcome io 0%nat) as [|st m]; [|destruct st];
    cbn [thrown] in Hth; try discriminate Hth;
    cbn [fails stage_eqb]; fields;
    destruct (String.eqb f ""); try discriminate Hth; fields;
    unfold pumpLoop; fields; cbn [negb]; fields;
    rewrite <- ?app_assoc; cbn [app]; repeat split; reflexivity.
Qed.

End Frames.

Section Relay.

Import worker.
Local Open Scope string_scope.
Local Open Scope Z_scope.

Lemma connect_frame_opens_the_relay_witness :
  effects (step newSession
             (Message (Text "CONNECT:example.com:8443|hello|203.0.113.9")
                sample.io))
  = [SocketConnect "example.com" 8443; GetWriter 0; GetReader 0;
     WriterWrite 0 (encode "hello"); WsSend (Text "CONNECTED"); ReaderRead 0].
Proof.
  refine (proj1 (connect_frame_opens_the_relay newSession sample.io
                   "example.com:8443" "hello" "203.0.113.9" _ _ _ _ _ _ _ _));
    try reflexivity.
  discriminate.
Defined.

(** X15.  [connectToRemote] on an open session that is neither connected
    nor connecting tries the target first, and the proxy IP once, and only
    when the first attempt threw an error that [isCFError] recognizes and a
    proxy IP was given.  When the last attempt made goes through the
    session is connected and pumping; when it throws, [connectToRemote]
    throws that error with the handles cleared.  Either way the session is
    no longer connecting, and every socket that a failed attempt opened has
    been closed. *)
Theorem fallback_is_tried_once_after_a_platform_error :
  forall (targetAddr f proxyIP : string) (io : nat -> AttemptOutcome)
         (s : Session),
    isClosed s = false -> isConnecting s = false -> remoteSocket s = None ->
    let original := parseAddress targetAddr in
    let fallback := parseAddress proxyIP in
    let retry :=
      match thrown (io 0%nat) f with
      | Some m => isCFError m && negb (String.eqb proxyIP "")
      | None => false
      end in
    let r := connectToRemote targetAddr f proxyIP io s in
    let s' := match r with Normal s' | Throw _ s' => s' end in
    connects (effects s')
    = (connects (effects s)
         ++ (host original, port original)
         :: (if retry then [(host fallback, port fallback)] else []))%list
    /\ isConnecting s' = false
    /\ match (if retry then thrown (io 1%nat) f else thrown (io 0%nat) f) with
       | None =>
           r = Normal s' /\ pump s' = AwaitRead
           /\ exists k : nat,
                remoteSocket s' = Some k /\ remoteWriter s' = Some k
                /\ remoteReader s' = Some k /\ opened s' = S k
       | Some m =>
           r = Throw m s'
           /\ remoteSocket s' = None /\ remoteWriter s' = None
           /\ remoteReader s' = None
       end
    /\ (forall j : nat,
           (opened s <= j < opened s')%nat -> remoteSocket s' <> Some j ->
           closes j (effects s') = S (closes j (effects s))).
Proof.
  intros targetAddr f proxyIP io s Hc Hg Hk original fallback retry r s'.
  pose proof (connect_facts targetAddr f proxyIP io s Hc Hg Hk) as F.
  cbv zeta in F. fold original fallback retry r in F.
  change (match r with Normal s'0 | Throw _ s'0 => s'0 end) with s' in F.
  destruct F as (Hcon & Ho & _ & _ & Hg' & F).
  split; [exact Hcon|]. split; [exact Hg'|].
  destruct r as [s1 | m s1] eqn:Er; subst s'.
  - destruct F as (Hth & Hp & _ & k & Hk1 & Hw1 & Hr1 & Ho1 & Hcl1).
    rewrite Hth. split.
    + split; [reflexivity|]. split; [exact Hp|]. exists k. auto.
    + intros j Hj Hne. rewrite Hcl1.
      replace ((opened s <=? j)%nat && (j <? k)%nat) with true; [lia|].
      symmetry. apply andb_true_iff. split.
      * apply Nat.leb_le. lia.
      * apply Nat.ltb_lt. rewrite Hk1 in Hne.
        assert (j <> k) by congruence. lia.
  - destruct F as (Hth & _ & Hk1 & Hw1 & Hr1 & Hcl1).
    rewrite Hth. split; [auto|].
    intros j Hj _. rewrite Hcl1.
    replace ((opened s <=? j)%nat && (j <? opened s1)%nat) with true; [lia|].
    symmetry. apply andb_true_iff. split.
    + apply Nat.leb_le. lia.
    + apply Nat.ltb_lt. lia.
Qed.

(** A data frame is not a [CONNECT] frame. *)
Lemma data_is_not_connect (d : string) :
  startsWith d "DATA:" = true -> startsWith d "CONNECT:" = false.
Proof.
  unfold startsWith. destruct d as [|a d]; [discriminate|].
  cbn [String.prefix].
  destruct (ascii_dec "D" a) as [<-|]; [reflexivity | discriminate].
Qed.

(** X16.  On a connected, open session whose writes are accepted, a run
    of data frames of the peer and of chunks read from the outbound socket
    is relayed in order and unchanged: each data frame is one write of its
    bytes, each chunk that is not empty one binary message, each chunk is
    followed by the next read, and nothing else is done; the session stays
    connected. *)
Theorem relay_forwards_in_order :
  forall (evs : list Event) (s : Session) (w r : nat),
    isClosed s = false -> readyState s = 1 -> pump s = AwaitRead ->
    remoteWriter s = Some w -> remoteReader s = Some r ->
    Forall (fun e => match e with
                     | Message p io => isData p = true /\ writeRejects io = None
                     | ReadSettles (Chunk _) => True
                     | _ => False
                     end) evs ->
    let s' := run evs s in
    effects s'
    = (effects s
         ++ flat_map
              (fun e =>
                 match e with
                 | Message p _ => [WriterWrite w (dataBytes p)]
                 | ReadSettles (Chunk value) =>
                     (if len value >? 0 then [WsSend (Binary value)] else [])
                       ++ [ReaderRead r]
                 | _ => []
                 end) evs)%list
    /\ isClosed s' = false /\ readyState s' = 1 /\ pump s' = AwaitRead
    /\ remoteSocket s' = remoteSocket s
    /\ remoteWriter s' = Some w /\ remoteReader s' = Some r.
Proof.
  induction evs as [|e evs IH]; intros s w r Hc Hrs Hp Hw Hr Hall s'.
  - unfold s'. cbn [run fold_left flat_map]. rewrite app_nil_r. auto 10.
  - inversion Hall as [|e' evs' He Hrest]; subst e' evs'.
    unfold s'. cbn [run fold_left flat_map].
    assert (Hstep :
              effects (step s e)
              = (effects s
                   ++ match e with
                      | Message p _ => [WriterWrite w (dataBytes p)]
                      | ReadSettles (Chunk value) =>
                          (if len value >? 0 then [WsSend (Binary value)]
                           else []) ++ [ReaderRead r]
                      | _ => []
                      end)%list
              /\ isClosed (step s e) = false /\ readyState (step s e) = 1
              /\ pump (step s e) = AwaitRead
              /\ remoteSocket (step s e) = remoteSocket s
              /\ remoteWriter (step s e) = Some w
              /\ remoteReader (step s e) = Some r).
    { destruct s as [sk sw sr cl cg a rs pm op ef]. fields.
      subst cl rs pm sw sr.
      destruct e as [p io | | | | [value | |] |]; try contradiction.
      - destruct He as [Hd Hio]. cbn [step]. unfold onMessage. fields.
        destruct p as [d | b]; cbn [handle isData dataBytes] in *.
        + rewrite (data_is_not_connect d Hd), Hd. fields.
          unfold write. fields. rewrite Hio. fields. repeat split.
        + fields. unfold write. fields. rewrite Hio. fields. repeat split.
      - cbn [step]. unfold onRead. fields. cbn [Z.eqb Pos.eqb negb].
        destruct (len value >? 0); unfold pumpLoop; fields; cbn [negb]; fields;
          rewrite <- ?app_assoc; repeat split. }
    destruct Hstep as (Heff & Hc1 & Hrs1 & Hp1 & Hk1 & Hw1 & Hr1).
    destruct (IH (step s e) w r Hc1 Hrs1 Hp1 Hw1 Hr1 Hrest)
      as (Heff' & Hc' & Hrs' & Hp' & Hk' & Hw' & Hr').
    unfold run in *. rewrite Heff', Heff, <- app_assoc.
    repeat split; try assumption. congruence.
Qed.

Lemma relay_forwards_in_order_witness :
  effects (run [Message (Text "DATA:ping") sample.io;
                ReadSettles (Chunk [x70; x6f]);
                ReadSettles (Chunk []);
                Message (Binary [x01; x02]) sample.io]
             sample.connected)
  = (effects sample.connected
       ++ [WriterWrite 0 (encode "ping");
           WsSend (Binary [x70; x6f]); ReaderRead 0;
           ReaderRead 0;
           WriterWrite 0 [x01; x02]])%list.
Proof.
  refine (proj1 (relay_forwards_in_order
                   [Message (Text "DATA:ping") sample.io;
                    ReadSettles (Chunk [x70; x6f]);
                    ReadSettles (Chunk []);
                    Message (Binary [x01; x02]) sample.io]
                   sample.connected 0 0 _ _ _ _ _ _));
    try reflexivity.
  repeat constructor.
Defined.

(** X17.  On an open session an error in the [message] handler is
    reported and ends the session: a data frame whose write is rejected
    with message [m], and a [CONNECT] frame without a target, make the
    session send [ERROR:m], respectively [ERROR:] with "invalid target
    address", and then tear down, releasing what it holds; while a data
    frame that arrives when there is no writer is dropped without any
    effect. *)
Theorem handler_error_is_reported_then_tears_down :
  forall (s : Session) (io : IO),
    isClosed s = false ->
    (forall (p : Payload) (w : nat) (m : string),
        isData p = true -> remoteWriter s = Some w ->
        writeRejects io = Some m ->
        let s' := step s (Message p io) in
        effects s'
        = (effects s
             ++ WriterWrite w (dataBytes p)
             :: WsSend (Text ("ERROR:" ++ m)) :: teardownOps s)%list
        /\ isClosed s' = true /\ remoteSocket s' = None
        /\ remoteWriter s' = None /\ remoteReader s' = None)
    /\ (forall tail : string,
           tail = "" \/ startsWith tail "|" = true ->
           let s' := step s (Message (Text ("CONNECT:" ++ tail)) io) in
           effects s'
           = (effects s
                ++ WsSend (Text "ERROR:无效的目标地址") :: teardownOps s)%list
           /\ isClosed s' = true /\ remoteSocket s' = None
           /\ remoteWriter s' = None /\ remoteReader s' = None)
    /\ (forall p : Payload,
           isData p = true -> remoteWriter s = None ->
           step s (Message p io) = s).
Proof.
  intros s io Hc.
  assert (Hthrow : forall m s0,
             isClosed s0 = false ->
             let s' := cleanup (emit (WsSend (Text ("ERROR:" ++ m))) s0) in
             effects s'
             = (effects s0 ++ WsSend (Text ("ERROR:" ++ m)) :: teardownOps s0)%list
             /\ isClosed s' = true /\ remoteSocket s' = None
             /\ remoteWriter s' = None /\ remoteReader s' = None).
  { intros m s0 H0 s'.
    destruct (cleanup_open (emit (WsSend (Text ("ERROR:" ++ m))) s0) H0)
      as (Heff & Hcl & _ & Hk & Hw & Hr & _).
    fold s' in Heff, Hcl, Hk, Hw, Hr.
    rewrite Heff. cbn [effects emit]. rewrite <- app_assoc.
    repeat split; assumption. }
  split; [|split].
  - intros p w m Hd Hw Hio s'.
    assert (Hs' : s' = cleanup (emit (WsSend (Text ("ERROR:" ++ m)))
                                  (emit (WriterWrite w (dataBytes p)) s))).
    { unfold s'. cbn [step]. unfold onMessage. rewrite Hc.
      destruct p as [d | b]; cbn [handle isData dataBytes] in *.
      - rewrite (data_is_not_connect d Hd), Hd, Hw. unfold write.
        rewrite Hio. reflexivity.
      - rewrite Hw. unfold write. rewrite Hio. reflexivity. }
    rewrite Hs'.
    destruct (Hthrow m (emit (WriterWrite w (dataBytes p)) s) Hc)
      as (Heff & H).
    split; [|exact H].
    rewrite Heff. cbn [effects emit]. rewrite <- app_assoc. reflexivity.
  - intros tail Htail s'.
    assert (Hs' : s' = cleanup (emit (WsSend (Text "ERROR:无效的目标地址")) s)).
    { unfold s'. cbn [step]. unfold onMessage. rewrite Hc.
      destruct Htail as [-> | Htail]; [reflexivity|].
      destruct tail as [|a rest]; [discriminate Htail|].
      unfold startsWith in Htail. cbn [String.prefix] in Htail.
      destruct (ascii_dec "|" a) as [<-|]; [|discriminate Htail].
      cbn [handle append startsWith String.prefix].
      change (split (Ascii.eqb "|") (String "C" (String "O" (String "N"
                (String "N" (String "E" (String "C" (String "T" (String ":"
                   (String "|" rest))))))))))
        with ("CONNECT:" :: split (Ascii.eqb "|") rest).
      cbn [nth]. reflexivity. }
    rewrite Hs'. exact (Hthrow "无效的目标地址" s Hc).
  - intros p Hd Hw. cbn [step]. unfold onMessage. rewrite Hc.
    destruct p as [d | b]; cbn [handle isData] in *.
    + rewrite (data_is_not_connect d Hd), Hd, Hw. reflexivity.
    + rewrite Hw. reflexivity.
Qed.


Lemma handler_error_is_reported_then_tears_down_witness :
  effects (step sample.connected
             (Message (Text "DATA:ping")
                {| attemptOutcome := fun _ => Established;
                   writeRejects := Some "stream closed" |}))
  = (effects sample.connected
       ++ [WriterWrite 0 (encode "ping"); WsSend (Text "ERROR:stream closed");
           WriterReleaseLock 0; ReaderReleaseLock 0; SocketClose 0;
           WsClose 1000 "Server closed"])%list.
Proof.
  refine (proj1 (proj1 (handler_error_is_reported_then_tears_down
                          sample.connected
                          {| attemptOutcome := fun _ => Established;
                             writeRejects := Some "stream closed" |} _)
                   (Text "DATA:ping") 0%nat "stream closed" _ _ _));
    reflexivity.
Defined.

Lemma fallback_is_tried_once_after_a_platform_error_witness :
  let io := fun i : nat =>
              match i with
              | O => FailsAt AtOpened "proxy request failed"
              | S _ => Established
              end in
  match connectToRemote "example.com:8443" "" "203.0.113.9" io newSession with
  | Normal s' =>
      connects (effects s') = [("example.com", 8443); ("203.0.113.9", 443)]
      /\ closes 0 (effects s') = 1%nat
      /\ remoteSocket s' = Some 1%nat
  | Throw _ _ => False
  end.
Proof.
  intros io.
  pose proof (fallback_is_tried_once_after_a_platform_error
                "example.com:8443" "" "203.0.113.9" io newSession
                eq_refl eq_refl eq_refl) as H.
  cbv zeta in H.
  destruct (connectToRemote "example.com:8443" "" "203.0.113.9" io newSession)
    as [s' | m s'] eqn:E.
  - destruct H as (Hcon & _ & _ & Hcl).
    split; [rewrite Hcon; vm_compute; reflexivity|].
    assert (Hs : remoteSocket s' = Some 1%nat /\ opened s' = 2%nat).
    { vm_compute in E. injection E as <-. split; reflexivity. }
    destruct Hs as [Hk Ho].
    split; [|exact Hk].
    rewrite (Hcl 0%nat).
    + reflexivity.
    + rewrite Ho. cbn. lia.
    + rewrite Hk. discriminate.
  - vm_compute in E. discriminate E.
Defined.



End Relay.

Section Bracketed.

Import worker.
Local Open Scope string_scope.
Local Open Scope Z_scope.




End Bracketed.

(** ** Platform errors and the end of the stream *)

Section PlatformErrors.

Import worker.
Local Open Scope string_scope.
Local Open Scope Z_scope.

Lemma list_ascii_of_string_app (a b : string) :
  list_ascii_of_string (a ++ b)
  = (list_ascii_of_string a ++ list_ascii_of_string b)%list.
Proof. induction a as [|x a IH]; [reflexivity|]. cbn. now rewrite IH. Qed.

Lemma string_of_list_ascii_app (a b : list ascii) :
  string_of_list_ascii (a ++ b)
  = string_of_list_ascii a ++ string_of_list_ascii b.
Proof. induction a as [|x a IH]; [reflexivity|]. cbn. now rewrite IH. Qed.

Lemma toLowerCase_app (a b : string) :
  toLowerCase (a ++ b) = toLowerCase a ++ toLowerCase b.
Proof.
  unfold toLowerCase.
  rewrite list_ascii_of_string_app, map_app. apply string_of_list_ascii_app.
Qed.

(** A string includes what stands in it. *)
Lemma includes_app (a w b : string) :
  w <> "" -> includes (a ++ w ++ b) w = true.
Proof.
  intros Hw. unfold includes.
  destruct (String.index 0 w (a ++ w ++ b)) eqn:E; [reflexivity|].
  exfalso.
  refine (index_correct3 0 (String.length a) w (a ++ w ++ b) E Hw _ _);
    [lia|].
  clear. induction a as [|x a IH]; [exact (substring_app_l w b) | exact IH].
Qed.

(** X21.  [isCFError] recognizes a message that holds "proxy request",
    "cannot connect" or "cloudflare" anywhere in it, in any mix of upper
    and lower case. *)
Theorem isCFError_recognizes_the_platform_errors :
  forall before marker after : string,
    toLowerCase marker = "proxy request"
    \/ toLowerCase marker = "cannot connect"
    \/ toLowerCase marker = "cloudflare" ->
    isCFError (before ++ marker ++ after) = true.
Proof.
  intros a w b Hw. unfold isCFError. rewrite !toLowerCase_app.
  destruct Hw as [-> | [-> | ->]].
  - rewrite includes_app by discriminate. reflexivity.
  - rewrite (includes_app _ "cannot connect") by discriminate.
    apply orb_true_iff. left. apply orb_true_r.
  - rewrite (includes_app _ "cloudflare") by discriminate. apply orb_true_r.
Qed.

Lemma isCFError_recognizes_the_platform_errors_witness :
  isCFError "Error: Cannot Connect to 203.0.113.9:443" = true.
Proof.
  apply (isCFError_recognizes_the_platform_errors "Error: " "Cannot Connect"
           " to 203.0.113.9:443").
  right. left. reflexivity.
Defined.

(** X22.  When the pending read of the pump ends with the end of the
    stream, or delivers a chunk while the WebSocket is no longer open, an
    open session sends [CLOSE] to the peer and tears down: nothing is
    forwarded, the handles are released and cleared, and the pump
    stops. *)
Theorem end_of_stream_ends_the_session :
  forall (s : Session) (r : ReadResult),
    isClosed s = false -> pump s = AwaitRead ->
    r = Done \/ (exists value, r = Chunk value /\ readyState s <> 1) ->
    let s' := step s (ReadSettles r) in
    effects s' = (effects s ++ WsSend (Text "CLOSE") :: teardownOps s)%list
    /\ isClosed s' = true /\ pump s' = Idle
    /\ remoteSocket s' = None /\ remoteWriter s' = None
    /\ remoteReader s' = None.
Proof.
  intros s r Hc Hp Hr s'.
  assert (Hs' : s' = pumpFinish s).
  { unfold s'. cbn [step]. unfold onRead. rewrite Hp.
    destruct Hr as [-> | (value & -> & Hrs)]; [reflexivity|].
    replace (readyState s =? 1) with false
      by (symmetry; apply Z.eqb_neq; exact Hrs).
    reflexivity. }
  rewrite Hs'. unfold pumpFinish. fields. rewrite Hc. cbn [negb].
  destruct (cleanup_open (emit (WsSend (Text "CLOSE")) (setPump Idle s)))
    as (Heff & Hcl & _ & Hk & Hw & Hrd & _ & Hpm & _); [fields; exact Hc|].
  rewrite Heff, Hpm. fields. rewrite <- app_assoc.
  repeat split; assumption.
Qed.

Lemma end_of_stream_ends_the_session_witness :
  effects (step sample.connected (ReadSettles Done))
  = (effects sample.connected
       ++ [WsSend (Text "CLOSE"); WriterReleaseLock 0; ReaderReleaseLock 0;
           SocketClose 0; WsClose 1000 "Server closed"])%list.
Proof.
  refine (proj1 (end_of_stream_ends_the_session sample.connected Done _ _ _));
    try reflexivity.
  left. reflexivity.
Defined.

End PlatformErrors.
